(** * Release-automation actions: platform normalisation, checksum
    resolution, asset classification and rendering contexts.

    A shallow embedding of the TypeScript sources of the actions
    [update-homebrew-tap], [compute-checksums] and [release-notes].

    Modelling conventions.
    - A JavaScript string is a Rocq [string]; the character with code [n]
      stands for the UTF-16 code unit [n], so the model covers the strings
      whose code units are below 256 (Latin-1).  [toLowerCase] and [trim]
      are written out for that range.
    - A JavaScript object literal used as a lookup table is a [gmap] over
      its own properties; indexing it ([JS.index]) also answers the members
      that it inherits from [Object.prototype].  An object that is built by
      assignment and enumerated ([Object.entries]) is the list of its own
      properties in creation order ([JS.obj_set]).
    - [undefined] / [null] results of optional values are [None].
    - Asynchronous, effectful functions run in the monad [IO]: they read an
      immutable [World] (network, file system, digest primitive), append to
      an event log and either return a value or throw. *)

From stdpp Require Import base option list sorting strings gmap.
From Stdlib Require Import Ascii String NArith ZArith Lia DecimalString.

Local Open Scope string_scope.

(** ** JavaScript string primitives *)

Module JS.

Definition code (c : ascii) : N := N_of_ascii c.

(** [String.prototype.toLowerCase] on one code unit below 256: the ASCII
    capitals and the Latin-1 capitals U+00C0..U+00DE (U+00D7, the
    multiplication sign, excepted) move up by 32. *)
Definition lower_char (c : ascii) : ascii :=
  let n := code c in
  if ((65 <=? n) && (n <=? 90))%N
     || ((192 <=? n) && (n <=? 222) && negb (n =? 215))%N
  then ascii_of_N (n + 32) else c.

Fixpoint toLowerCase (s : string) : string :=
  match s with
  | EmptyString => EmptyString
  | String c r => String (lower_char c) (toLowerCase r)
  end.

(** [s.startsWith(p)] *)
Fixpoint startsWith (s p : string) : bool :=
  match p, s with
  | EmptyString, _ => true
  | String _ _, EmptyString => false
  | String a p', String b s' => if Ascii.eqb a b then startsWith s' p' else false
  end.

(** [s.includes(sub)]: [sub] starts at some position of [s]. *)
Fixpoint includes (s sub : string) : bool :=
  startsWith s sub ||
  match s with
  | EmptyString => false
  | String _ s' => includes s' sub
  end.

(** [s.endsWith(suf)] *)
Fixpoint endsWith (s suf : string) : bool :=
  String.eqb s suf ||
  match s with
  | EmptyString => false
  | String _ s' => endsWith s' suf
  end.

(** White space and line terminators of ECMAScript below 256:
    TAB, LF, VT, FF, CR, SP, NBSP. *)
Definition is_white (c : ascii) : bool :=
  let n := code c in
  ((9 <=? n) && (n <=? 13) || (n =? 32) || (n =? 160))%N.

Fixpoint trimStart (s : string) : string :=
  match s with
  | EmptyString => EmptyString
  | String c r => if is_white c then trimStart r else s
  end.

(** [trimEnd] keeps a character when it is not white space or when
    something survives to its right. *)
Fixpoint trimEnd (s : string) : string :=
  match s with
  | EmptyString => EmptyString
  | String c r =>
      match trimEnd r with
      | EmptyString => if is_white c then EmptyString else String c EmptyString
      | r' => String c r'
      end
  end.

Definition trim (s : string) : string := trimEnd (trimStart s).

(** Truthiness of a string: the empty string is falsy. *)
Definition truthy (s : string) : bool := negb (String.eqb s "").

(** [o || d] for an optional string [o]: [undefined] and [""] are falsy. *)
Definition or_else (o : option string) (d : string) : string :=
  match o with
  | Some a => if truthy a then a else d
  | None => d
  end.

(** [s.replace(/^v/, "")]: one leading "v" is removed. *)
Definition strip_v (s : string) : string :=
  match s with
  | String "v" r => r
  | _ => s
  end.

(** [!o] for an optional string. *)
Definition falsy_opt (o : option string) : bool :=
  match o with
  | Some a => negb (truthy a)
  | None => true
  end.

(** Decimal rendering of a number inside a template literal. *)
Definition show_N (n : N) : string := NilEmpty.string_of_uint (N.to_uint n).

(** An array index: the canonical decimal form of an integer below
    2^32 - 1.  [Object.entries] lists the properties with such keys
    first, in ascending order, and then the others in creation order. *)
Definition is_index (k : string) : bool :=
  match NilEmpty.uint_of_string k with
  | Some u => String.eqb (show_N (N.of_uint u)) k && (N.of_uint u <? 4294967295)%N
  | None => false
  end.

(** The property names of [Object.prototype], which every plain object
    inherits. *)
Definition prototype_names : list string :=
  [ "constructor"; "__defineGetter__"; "__defineSetter__"; "hasOwnProperty";
    "__lookupGetter__"; "__lookupSetter__"; "isPrototypeOf"; "propertyIsEnumerable";
    "toString"; "valueOf"; "__proto__"; "toLocaleString" ].

(** What indexing an object literal of strings can answer: a string of
    its own, or the member of [Object.prototype] that the name inherits
    (the prototype object itself for "__proto__", a built-in function for
    every other name). *)
Inductive Value :=
| Str (s : string)
| Inherited (name : string).

(** [table[key]] for an object literal with the own properties [table];
    [None] is [undefined]. *)
Definition index (table : gmap string string) (key : string) : option Value :=
  match table !! key with
  | Some s => Some (Str s)
  | None => if bool_decide (key ∈ prototype_names) then Some (Inherited key) else None
  end.

(** Truthiness: objects and functions are truthy. *)
Definition truthy_value (v : Value) : bool :=
  match v with
  | Str s => truthy s
  | Inherited _ => true
  end.

(** [String(v)], which is also the property key that [v] is converted to
    and its text in a template literal.  A built-in function prints as
    Node prints it; the function under "constructor" is [Object]. *)
Definition to_string (v : Value) : string :=
  match v with
  | Str s => s
  | Inherited name =>
      if String.eqb name "__proto__" then "[object Object]"
      else "function " ++ (if String.eqb name "constructor" then "Object" else name)
           ++ "() { [native code] }"
  end.

(** ["\n"] and the double quote, which string literals cannot hold. *)
Definition nl : string := String (ascii_of_N 10) EmptyString.
Definition dq : string := String (ascii_of_N 34) EmptyString.
Definition bs : string := String (ascii_of_N 92) EmptyString.

(** An object as the list of its own properties in creation order.
    [obj_define] creates or overwrites the own property [k]: an existing
    key keeps its place, a new key goes last.  (Keys that are array
    indices are enumerated first, see [is_index]; no function below
    observes the relative order of such keys.) *)
Fixpoint obj_define {V} (k : string) (v : V) (o : list (string * V)) : list (string * V) :=
  match o with
  | [] => [(k, v)]
  | (k', v') :: r =>
      if String.eqb k' k then (k, v) :: r else (k', v') :: obj_define k v r
  end.

(** [o[k] = v] on a plain object.  Every key but "__proto__" names an own
    data property, a key that [Object.prototype] has included (its
    members are writable, so the assignment shadows them).  "__proto__"
    is the accessor of [Object.prototype]: the assignment runs its
    setter, which creates no property (a value that is not an object is
    discarded; an object would become the prototype). *)
Definition obj_set {V} (k : string) (v : V) (o : list (string * V)) : list (string * V) :=
  if String.eqb k "__proto__" then o else obj_define k v o.

(** The own property [k] of [o], which is [o[k]] for every key that is
    not a member of [Object.prototype]. *)
Fixpoint obj_get {V} (k : string) (o : list (string * V)) : option V :=
  match o with
  | [] => None
  | (k', v') :: r => if String.eqb k' k then Some v' else obj_get k r
  end.

(** Regular expressions are searched from the left: the first position
    at which the anchored matcher [here] succeeds gives the match. *)
Fixpoint search (here : string → option string) (s : string) : option string :=
  match here s with
  | Some m => Some m
  | None =>
      match s with
      | EmptyString => None
      | String _ r => search here r
      end
  end.

(** The longest prefix whose characters satisfy [p], and the rest. *)
Fixpoint span (p : ascii → bool) (s : string) : string * string :=
  match s with
  | EmptyString => (EmptyString, EmptyString)
  | String c r =>
      if p c then let '(a, b) := span p r in (String c a, b)
      else (EmptyString, s)
  end.

Definition between (lo hi : N) (c : ascii) : bool :=
  ((lo <=? code c) && (code c <=? hi))%N.

Definition is_digit : ascii → bool := between 48 57.
Definition is_lower : ascii → bool := between 97 122.

(** The class [[a-f0-9]] under the flag [i]. *)
Definition is_hex (c : ascii) : bool :=
  is_digit c || between 97 102 c || between 65 70 c.

(** [n] leading characters of [s], when they all satisfy [p]. *)
Fixpoint take_while_n (p : ascii → bool) (n : nat) (s : string) : option string :=
  match n with
  | O => Some EmptyString
  | S n' =>
      match s with
      | String c r =>
          if p c then String c <$> take_while_n p n' r else None
      | EmptyString => None
      end
  end.

(** Capture group 1 of [s.match(/^([a-f0-9]{64})/i)]. *)
Definition match_sha256 (s : string) : option string := take_while_n is_hex 64 s.

(** [path.basename(p)] of the POSIX [path] module: trailing slashes are
    dropped and the last non-empty component is returned.  [cur] is the
    component being read, [last] the latest complete non-empty one. *)
Fixpoint basename_scan (p cur last : string) : string :=
  match p with
  | EmptyString => if truthy cur then cur else last
  | String c r =>
      if Ascii.eqb c "/" then basename_scan r EmptyString (if truthy cur then cur else last)
      else basename_scan r (cur ++ String c EmptyString) last
  end.

Definition basename (p : string) : string := basename_scan p EmptyString EmptyString.

(** The text from the last "." of [s] on, if [s] has one. *)
Fixpoint from_last_dot (s : string) : option string :=
  match s with
  | EmptyString => None
  | String c r =>
      match from_last_dot r with
      | Some e => Some e
      | None => if Ascii.eqb c "." then Some s else None
      end
  end.

(** [path.extname(p)]: the extension of the last component, empty when
    the component has no dot, when its only dot is its first character,
    or when the component is "..". *)
Definition extname (p : string) : string :=
  let b := basename p in
  match b with
  | EmptyString => EmptyString
  | String _ r =>
      match from_last_dot r with
      | Some e => if String.eqb b ".." then EmptyString else e
      | None => EmptyString
      end
  end.

(** [s.split(sep)[0]] for a one-character separator. *)
Fixpoint before (sep : ascii) (s : string) : string :=
  match s with
  | EmptyString => EmptyString
  | String c r => if Ascii.eqb c sep then EmptyString else String c (before sep r)
  end.

(** [arr.indexOf(x)], with -1 for an absent element. *)
Fixpoint indexOf (l : list string) (x : string) : Z :=
  match l with
  | [] => (-1)%Z
  | y :: r =>
      if String.eqb y x then 0%Z
      else let i := indexOf r x in if (i =? -1)%Z then (-1)%Z else (i + 1)%Z
  end.

(** [arr.sort(cmp)].  ECMAScript requires the sort to be stable; with a
    comparator that compares keys the outcome is the one stable sorted
    arrangement (lemma [sort_unique]), computed here by insertion from the
    right: an element goes in front of the first element it does not
    exceed. *)
Fixpoint sort_insert {A} (cmp : A → A → Z) (x : A) (l : list A) : list A :=
  match l with
  | [] => [x]
  | y :: r => if (cmp x y <=? 0)%Z then x :: y :: r else y :: sort_insert cmp x r
  end.

Definition sort {A} (cmp : A → A → Z) (l : list A) : list A :=
  foldr (sort_insert cmp) [] l.

End JS.


(** ** Effects: the world, the event log and the [IO] monad *)

(** A thrown JavaScript value: an [Error] with its name and message. *)
Record JsError := mkError { err_name : string; err_message : string }.

(** [`${error}`], that is [Error.prototype.toString]. *)
Definition error_toString (e : JsError) : string :=
  if negb (JS.truthy (err_name e)) then err_message e
  else if negb (JS.truthy (err_message e)) then err_name e
  else err_name e ++ ": " ++ err_message e.

(** [new Error(msg)] *)
Definition new_Error (msg : string) : JsError := mkError "Error" msg.

Inductive HashAlgorithm := alg_sha256 | alg_sha512 | alg_md5.

Definition algorithm_name (a : HashAlgorithm) : string :=
  match a with
  | alg_sha256 => "sha256"
  | alg_sha512 => "sha512"
  | alg_md5 => "md5"
  end.

(** What [fetch] resolves to.  Reading the body can itself reject. *)
Record Response := mkResponse {
  resp_ok : bool;
  resp_status : N;
  resp_statusText : string;
  resp_text : JsError + string;
  resp_arrayBuffer : JsError + list Byte.byte
}.

(** A [Date] through the two renderings that are used:
    [toLocaleDateString("en-US", { year, month: "long", day })] and
    [toISOString()]. *)
Record JsDate := mkDate {
  toLocaleDateString : string;
  toISOString : string
}.

(** The environment of one run.  [inl] is a rejection. *)
Record World := mkWorld {
  net_fetch : string → JsError + Response;
  fs_readFile : string → JsError + string;
  fs_readStream : string → JsError + list Byte.byte;
  fs_stat_size : string → JsError + N;
  glob_files : string → JsError + list string;
  url_pathname : string → JsError + string;
  crypto_digest : HashAlgorithm → list Byte.byte → string;
  clock_now : JsDate
}.

Inductive LogLevel := Debug | Info | Warning.

Inductive Event :=
| EvLog (lvl : LogLevel) (msg : string)
| EvFetch (target : string)
| EvReadFile (path : string)
| EvReadStream (path : string)
| EvStat (path : string)
| EvGlob (patterns : string)
| EvDigest (alg : HashAlgorithm) (data : list Byte.byte).

Inductive Outcome (A : Type) :=
| Returned (a : A)
| Thrown (e : JsError).
Arguments Returned {A} a.
Arguments Thrown {A} e.

Definition IO (A : Type) : Type := World → Outcome A * list Event.

Definition io_ret {A} (a : A) : IO A := λ _, (Returned a, []).

Definition io_bind {A B} (m : IO A) (f : A → IO B) : IO B :=
  λ w,
    match m w with
    | (Returned a, t1) => let '(o, t2) := f a w in (o, (t1 ++ t2)%list)
    | (Thrown e, t1) => (Thrown e, t1)
    end.

(** [try { m } catch (e) { h e }] *)
Definition try_catch {A} (m : IO A) (h : JsError → IO A) : IO A :=
  λ w,
    match m w with
    | (Returned a, t1) => (Returned a, t1)
    | (Thrown e, t1) => let '(o, t2) := h e w in (o, (t1 ++ t2)%list)
    end.

Definition throw {A} (e : JsError) : IO A := λ _, (Thrown e, []).

(** An effect that asks the world and records the event [ev]. *)
Definition perform {A} (ev : Event) (ask : World → JsError + A) : IO A :=
  λ w,
    match ask w with
    | inr a => (Returned a, [ev])
    | inl e => (Thrown e, [ev])
    end.

#[global] Instance io_mret : MRet IO := @io_ret.
#[global] Instance io_mbind : MBind IO := λ A B f m, io_bind m f.

Definition emit (ev : Event) : IO unit := λ _, (Returned tt, [ev]).

Definition core_debug (msg : string) : IO unit := emit (EvLog Debug msg).
Definition core_info (msg : string) : IO unit := emit (EvLog Info msg).
Definition core_warning (msg : string) : IO unit := emit (EvLog Warning msg).

Definition fetch (target : string) : IO Response :=
  perform (EvFetch target) (λ w, net_fetch w target).

(** A question to the world that leaves no event. *)
Definition consult {A} (ask : World → JsError + A) : IO A :=
  λ w,
    match ask w with
    | inr a => (Returned a, [])
    | inl e => (Thrown e, [])
    end.

(** [await response.text()] and [await response.arrayBuffer()] *)
Definition response_text (r : Response) : IO string :=
  consult (λ _, resp_text r).
Definition response_arrayBuffer (r : Response) : IO (list Byte.byte) :=
  consult (λ _, resp_arrayBuffer r).

Definition readFile_utf8 (path : string) : IO string :=
  perform (EvReadFile path) (λ w, fs_readFile w path).

(** [new Date()] *)
Definition new_Date : IO JsDate := consult (λ w, inr (clock_now w)).

(** [for (const x of l) { s = body s x }], the body returning early on
    [continue] and the loop ending at the first throw. *)
Fixpoint for_of {A S} (body : S → A → IO S) (l : list A) (s : S) : IO S :=
  match l with
  | [] => mret s
  | x :: r => s' ← body s x; for_of body r s'
  end.

(** Capture group 1, lower-cased, of the sidecar pattern on trimmed
    content: [content.trim().match(/^([a-f0-9]{64})/i)?.[1]?.toLowerCase()]. *)
Definition sidecar_hash (content : string) : option string :=
  JS.toLowerCase <$> JS.match_sha256 (JS.trim content).

(** ** update-homebrew-tap: [src/types.ts] and [src/index.ts] *)

Module Homebrew.

Record AssetInfo := mkAssetInfo {
  url : string;
  sha256 : option string;
  filename : option string
}.

(** [Assets]: an object keyed by platform, in enumeration order. *)
Definition Assets : Type := list (string * AssetInfo).

Record FormulaContext := mkFormulaContext {
  name : string;
  version : string;
  versionClean : string;
  description : string;
  homepage : string;
  license : string;
  binaryName : string;
  privateRepo : bool;
  assets : Assets;
  darwinArm64 : option AssetInfo;
  darwinX64 : option AssetInfo;
  darwinAmd64 : option AssetInfo;
  linuxArm64 : option AssetInfo;
  linuxX64 : option AssetInfo;
  linuxAmd64 : option AssetInfo;
  macosAssets : list (string * AssetInfo);
  linuxAssets : list (string * AssetInfo)
}.

(** The own properties of the alias table.  The table is a plain object
    and is read with [JS.index]. *)
Definition PLATFORM_ALIASES : gmap string string :=
  list_to_map
    [ ("darwin-aarch64", "darwin-arm64");
      ("darwin-x86_64", "darwin-x64");
      ("darwin-amd64", "darwin-x64");
      ("macos-arm64", "darwin-arm64");
      ("macos-x64", "darwin-x64");
      ("macos-amd64", "darwin-x64");
      ("linux-aarch64", "linux-arm64");
      ("linux-x86_64", "linux-x64");
      ("linux-amd64", "linux-x64") ].

(** [PLATFORM_ALIASES[platform.toLowerCase()] || platform.toLowerCase()].
    The table is a plain object: for a name that [Object.prototype] has,
    the lookup answers the inherited member, which is truthy and is what
    the function then returns in place of a string. *)
Definition normalizePlatform (platform : string) : JS.Value :=
  match JS.index PLATFORM_ALIASES (JS.toLowerCase platform) with
  | Some v => if JS.truthy_value v then v else JS.Str (JS.toLowerCase platform)
  | None => JS.Str (JS.toLowerCase platform)
  end.

(** [normalizePlatform(v)] for any value [v] (the annotation
    [platform: string] is erased at run time): a value that is not a
    string has no [toLowerCase], and the call throws. *)
Definition normalizePlatform_any (platform : JS.Value) : JsError + JS.Value :=
  match platform with
  | JS.Str s => inr (normalizePlatform s)
  | JS.Inherited _ => inl (mkError "TypeError" "platform.toLowerCase is not a function")
  end.

(** Fetch SHA256 from a .sha256 URL.  Everything happens inside one
    [try]; the handler logs and answers [undefined]. *)
Definition fetchSha256 (url : string) : IO (option string) :=
  let sha256Url := url ++ ".sha256" in
  try_catch
    (core_debug ("Fetching SHA256 from " ++ sha256Url);;
     response ← fetch sha256Url;
     if negb (resp_ok response) then
       core_debug ("SHA256 file not found at " ++ sha256Url ++ ", status: "
                   ++ JS.show_N (resp_status response));;
       mret None
     else
       content ← response_text response;
       match JS.match_sha256 (JS.trim content) with
       | Some m1 =>
           core_debug ("Found SHA256: " ++ m1);;
           mret (Some (JS.toLowerCase m1))
       | None =>
           core_warning ("Invalid SHA256 format in " ++ sha256Url ++ ": " ++ content);;
           mret None
       end)
    (λ error,
       core_debug ("Failed to fetch SHA256: " ++ error_toString error);;
       mret None).

(** One iteration of the loop of [processAssets] over
    [Object.entries(rawAssets)]. *)
Definition processAssets_step (assets : Assets) (entry : string * AssetInfo) : IO Assets :=
  let '(platform, info) := entry in
  let normalizedPlatform := normalizePlatform platform in
  sha ← (if JS.falsy_opt (sha256 info) && JS.truthy (url info) then
           core_info ("Fetching SHA256 for " ++ JS.to_string normalizedPlatform ++ "...");;
           fetched ← fetchSha256 (url info);
           (if JS.falsy_opt fetched then
              core_warning ("Could not fetch SHA256 for " ++ JS.to_string normalizedPlatform
                            ++ ", formula may be incomplete")
            else mret tt);;
           mret fetched
         else mret (sha256 info));
  mret (JS.obj_set (JS.to_string normalizedPlatform)
          (mkAssetInfo (url info) sha (filename info)) assets).

(** Process assets: normalize platforms and fetch missing SHA256s. *)
Definition processAssets (rawAssets : Assets) : IO Assets :=
  for_of processAssets_step rawAssets [].

(** The grouping loop of [buildContext]: [push] appends. *)
Definition group_step (acc : list (string * AssetInfo) * list (string * AssetInfo))
    (entry : string * AssetInfo) :=
  let '(macosAssets, linuxAssets) := acc in
  let '(platform, asset) := entry in
  if JS.startsWith platform "darwin-" || JS.startsWith platform "macos-" then
    (macosAssets ++ [(platform, asset)], linuxAssets)%list
  else if JS.startsWith platform "linux-" then
    (macosAssets, linuxAssets ++ [(platform, asset)])%list
  else (macosAssets, linuxAssets).

(** Build the formula context for template rendering. *)
Definition buildContext (name version : string) (assets : Assets)
    (description homepage license binaryName : string) (privateRepo : bool)
    : FormulaContext :=
  let versionClean := JS.strip_v version in
  let '(macosAssets, linuxAssets) := fold_left group_step assets ([], []) in
  {| name := name;
     version := versionClean;
     versionClean := versionClean;
     description := description;
     homepage := homepage;
     license := license;
     binaryName := JS.or_else (Some binaryName) name;
     privateRepo := privateRepo;
     assets := assets;
     darwinArm64 := JS.obj_get "darwin-arm64" assets;
     darwinX64 := JS.obj_get "darwin-x64" assets;
     darwinAmd64 := JS.obj_get "darwin-x64" assets;
     linuxArm64 := JS.obj_get "linux-arm64" assets;
     linuxX64 := JS.obj_get "linux-x64" assets;
     linuxAmd64 := JS.obj_get "linux-x64" assets;
     macosAssets := macosAssets;
     linuxAssets := linuxAssets |}.

End Homebrew.

(** ** compute-checksums: [src/index.ts] *)

Module Checksums.

(** [ChecksumResult]: an object from file name or identifier to hash. *)
Definition ChecksumResult : Type := list (string * string).

(** Compute hash of a file: the stream is read, then digested; a stream
    error rejects. *)
Definition hashFile (filepath : string) (algorithm : HashAlgorithm) : IO string :=
  data ← perform (EvReadStream filepath) (λ w, fs_readStream w filepath);
  perform (EvDigest algorithm data) (λ w, inr (crypto_digest w algorithm data)).

(** Compute hash of a buffer. *)
Definition hashBuffer (buffer : list Byte.byte) (algorithm : HashAlgorithm) : IO string :=
  perform (EvDigest algorithm buffer) (λ w, inr (crypto_digest w algorithm buffer)).

(** Read existing .sha256 file. *)
Definition readSha256File (filepath : string) : IO (option string) :=
  let sha256Path := filepath ++ ".sha256" in
  try_catch
    (content ← readFile_utf8 sha256Path;
     mret (sidecar_hash content))
    (λ _, mret None).

(** Download a URL and return the buffer. *)
Definition downloadUrl (url : string) : IO (list Byte.byte) :=
  core_debug ("Downloading " ++ url);;
  response ← fetch url;
  if negb (resp_ok response) then
    throw (new_Error ("Failed to download " ++ url ++ ": "
                      ++ JS.show_N (resp_status response) ++ " "
                      ++ resp_statusText response))
  else response_arrayBuffer response.

(** Fetch SHA256 from a .sha256 URL. *)
Definition fetchSha256FromUrl (url : string) : IO (option string) :=
  let sha256Url := url ++ ".sha256" in
  try_catch
    (core_debug ("Fetching SHA256 from " ++ sha256Url);;
     response ← fetch sha256Url;
     if negb (resp_ok response) then mret None
     else
       content ← response_text response;
       mret (sidecar_hash content))
    (λ _, mret None).

(** [if (existingHash)]: a hash that is present and not empty. *)
Definition usable (h : option string) : option string :=
  match h with
  | Some s => if JS.truthy s then Some s else None
  | None => None
  end.

(** One iteration of the loop of [processFiles]. *)
Definition processFiles_step (algorithm : HashAlgorithm) (readSha256Files : bool)
    (result : ChecksumResult) (filepath : string) : IO ChecksumResult :=
  if JS.endsWith filepath ".sha256" then mret result
  else
    let filename := JS.basename filepath in
    let compute :=
      core_info ("Computing " ++ algorithm_name algorithm ++ " for " ++ filename ++ "...");;
      hash ← hashFile filepath algorithm;
      mret (JS.obj_set filename hash result) in
    if readSha256Files then
      existingHash ← readSha256File filepath;
      match usable existingHash with
      | Some h =>
          core_info ("Read existing checksum for " ++ filename);;
          mret (JS.obj_set filename h result)
      | None => compute
      end
    else compute.

(** Process local files. *)
Definition processFiles (patterns : string) (algorithm : HashAlgorithm)
    (readSha256Files : bool) : IO ChecksumResult :=
  files ← perform (EvGlob patterns) (λ w, glob_files w patterns);
  for_of (processFiles_step algorithm readSha256Files) files [].

(** [new URL(url).pathname]; an invalid URL throws. *)
Definition new_URL_pathname (url : string) : IO string :=
  consult (λ w, url_pathname w url).

(** One iteration of the loop of [processUrls]. *)
Definition processUrls_step (algorithm : HashAlgorithm) (readSha256Files : bool)
    (result : ChecksumResult) (url : string) : IO ChecksumResult :=
  pathname ← new_URL_pathname url;
  let filename := JS.basename pathname in
  let compute :=
    core_info ("Downloading and computing " ++ algorithm_name algorithm
               ++ " for " ++ filename ++ "...");;
    buffer ← downloadUrl url;
    hash ← hashBuffer buffer algorithm;
    mret (JS.obj_set filename hash result) in
  if readSha256Files then
    existingHash ← fetchSha256FromUrl url;
    match usable existingHash with
    | Some h =>
        core_info ("Fetched existing checksum for " ++ filename);;
        mret (JS.obj_set filename h result)
    | None => compute
    end
  else compute.

(** Process URL array. *)
Definition processUrls (urls : list string) (algorithm : HashAlgorithm)
    (readSha256Files : bool) : IO ChecksumResult :=
  for_of (processUrls_step algorithm readSha256Files) urls [].

(** One iteration of the loop of [processUrlMap] over
    [Object.entries(urlMap)]. *)
Definition processUrlMap_step (algorithm : HashAlgorithm) (readSha256Files : bool)
    (result : ChecksumResult) (entry : string * string) : IO ChecksumResult :=
  let '(identifier, url) := entry in
  let compute :=
    core_info ("Downloading and computing " ++ algorithm_name algorithm
               ++ " for " ++ identifier ++ "...");;
    buffer ← downloadUrl url;
    hash ← hashBuffer buffer algorithm;
    mret (JS.obj_set identifier hash result) in
  if readSha256Files then
    existingHash ← fetchSha256FromUrl url;
    match usable existingHash with
    | Some h =>
        core_info ("Fetched existing checksum for " ++ identifier);;
        mret (JS.obj_set identifier h result)
    | None => compute
    end
  else compute.

(** Process URL map (identifier -> URL). *)
Definition processUrlMap (urlMap : list (string * string)) (algorithm : HashAlgorithm)
    (readSha256Files : bool) : IO ChecksumResult :=
  for_of (processUrlMap_step algorithm readSha256Files) urlMap [].

End Checksums.

(** ** release-notes: [src/types.ts] and [src/index.ts] *)

Module ReleaseNotes.

Record Platform := mkPlatform {
  id : string;
  os : string;
  osIcon : string;
  arch : string;
  archFull : string;
  variant : option string;
  displayName : string
}.

(** A table entry, [Partial<Platform>] without its [id]. *)
Record PlatformPattern := mkPattern {
  pat_os : string;
  pat_osIcon : string;
  pat_arch : string;
  pat_archFull : string;
  pat_variant : option string;
  pat_displayName : string
}.

Inductive AssetType := binary | deb | rpm.

Record Asset := mkAsset {
  filename : string;
  platform : Platform;
  type : AssetType;
  extension : string;
  size : option N;
  sha256 : option string
}.

(** [BuildStatus]: job name to status, in enumeration order. *)
Definition BuildStatus : Type := list (string * string).

Record InstallMethod := mkMethod {
  method_name : string;
  command : string;
  note : option string
}.

Record InstallCommand := mkCommand {
  command_os : string;
  icon : string;
  methods : list InstallMethod
}.

Record ReleaseContext := mkReleaseContext {
  version : string;
  versionClean : string;
  projectName : string;
  projectDescription : string;
  repository : string;
  repositoryUrl : string;
  isPrerelease : bool;
  isNightly : bool;
  date : string;
  dateIso : string;
  binaries : list Asset;
  debPackages : list Asset;
  rpmPackages : list Asset;
  linuxAssets : list Asset;
  macosAssets : list Asset;
  windowsAssets : list Asset;
  hasFailures : bool;
  buildStatus : BuildStatus;
  workflowRunUrl : option string;
  installCommands : list InstallCommand
}.

(** Platform detection patterns, in the order of the object literal. *)
Definition PLATFORM_PATTERNS : list (string * PlatformPattern) :=
  [ ("linux-amd64-musl",
     mkPattern "Linux" "" "x86_64" "x86_64 (64-bit, static)" (Some "musl")
               "Linux x86_64 (static)");
    ("linux-amd64",
     mkPattern "Linux" "" "x86_64" "x86_64 (64-bit)" None "Linux x86_64");
    ("linux-aarch64",
     mkPattern "Linux" "" "aarch64" "ARM64" None "Linux ARM64");
    ("linux-arm64",
     mkPattern "Linux" "" "arm64" "ARM64" None "Linux ARM64");
    ("darwin-arm64",
     mkPattern "macOS" "" "arm64" "Apple Silicon (M1/M2/M3/M4)" None
               "macOS Apple Silicon");
    ("darwin-amd64",
     mkPattern "macOS" "" "x86_64" "Intel (64-bit)" None "macOS Intel");
    ("windows-amd64",
     mkPattern "Windows" "" "x86_64" "x86_64 (64-bit)" None "Windows x86_64");
    ("windows-aarch64",
     mkPattern "Windows" "" "arm64" "ARM64" None "Windows ARM64") ].

(** DEB architecture mapping *)
Definition DEB_ARCH_MAP : gmap string string :=
  list_to_map [ ("amd64", "linux-amd64"); ("arm64", "linux-aarch64") ].

(** RPM architecture mapping *)
Definition RPM_ARCH_MAP : gmap string string :=
  list_to_map [ ("x86_64", "linux-amd64"); ("aarch64", "linux-aarch64") ].

(** [{ id, ...platform } as Platform] *)
Definition with_id (id : string) (p : PlatformPattern) : Platform :=
  mkPlatform id (pat_os p) (pat_osIcon p) (pat_arch p) (pat_archFull p)
             (pat_variant p) (pat_displayName p).

Definition is_lower_alnum (c : ascii) : bool := JS.is_lower c || JS.is_digit c.
Definition is_lower_alnum_us (c : ascii) : bool :=
  is_lower_alnum c || Ascii.eqb c "_".

(** [/_([a-z0-9]+)\.deb$/] tried at the start of [s].  The class holds
    neither "_" nor ".", so the greedy run is the only candidate for the
    group: giving back a character leaves a class character where the
    dot has to be. *)
Definition deb_here (s : string) : option string :=
  match s with
  | String "_" r =>
      let '(debArch, rest) := JS.span is_lower_alnum r in
      if JS.truthy debArch && String.eqb rest ".deb" then Some debArch else None
  | _ => None
  end.

(** [/\.([a-z0-9_]+)\.rpm$/] tried at the start of [s]. *)
Definition rpm_here (s : string) : option string :=
  match s with
  | String "." r =>
      let '(rpmArch, rest) := JS.span is_lower_alnum_us r in
      if JS.truthy rpmArch && String.eqb rest ".rpm" then Some rpmArch else None
  | _ => None
  end.

(** [platformId && PLATFORM_PATTERNS[platformId]] followed by the
    construction of the result, for the architecture table [table].
    The table is indexed as a plain object; a member that it inherits
    is looked up in [PLATFORM_PATTERNS] under its text, which is no key
    there. *)
Definition platform_of_arch (table : gmap string string) (archName : string)
    : option Platform :=
  platformId ← JS.index table archName;
  if JS.truthy_value platformId then
    with_id (JS.to_string platformId)
      <$> JS.obj_get (JS.to_string platformId) PLATFORM_PATTERNS
  else None.

(** Detect platform from filename *)
Definition detectPlatform (filename _projectName : string) : option Platform :=
  let basename := JS.basename filename in
  match find (λ entry, JS.includes basename (fst entry)) PLATFORM_PATTERNS with
  | Some (id, platform) => Some (with_id id platform)
  | None =>
      match JS.search deb_here basename ≫= platform_of_arch DEB_ARCH_MAP with
      | Some p => Some p
      | None => JS.search rpm_here basename ≫= platform_of_arch RPM_ARCH_MAP
      end
  end.

(** Determine asset type from extension *)
Definition getAssetType (filename : string) : AssetType :=
  if JS.endsWith filename ".deb" then deb
  else if JS.endsWith filename ".rpm" then rpm
  else binary.

(** Get file extension *)
Definition getExtension (filename : string) : string :=
  if JS.endsWith filename ".tar.gz" then "tar.gz"
  else if JS.endsWith filename ".tar.xz" then "tar.xz"
  else
    let ext := JS.extname filename in
    match ext with
    | String "." r => r
    | _ => ext
    end.

(** Read SHA256 checksum from .sha256 file *)
Definition readSha256 (assetPath : string) : IO (option string) :=
  let sha256Path := assetPath ++ ".sha256" in
  try_catch
    (content ← readFile_utf8 sha256Path;
     mret (sidecar_hash content))
    (λ _, mret None).

(** Get file size *)
Definition getFileSize (filepath : string) : IO (option N) :=
  try_catch
    (n ← perform (EvStat filepath) (λ w, fs_stat_size w filepath);
     mret (Some n))
    (λ _, mret None).

(** One iteration of the discovery loop: a sidecar file is skipped, an
    unclassified file is reported and skipped, any other file is pushed. *)
Definition discoverAssets_step (projectName : string) (assets : list Asset)
    (filepath : string) : IO (list Asset) :=
  if JS.endsWith filepath ".sha256" then mret assets
  else
    let filename := JS.basename filepath in
    match detectPlatform filename projectName with
    | None =>
        core_warning ("Could not detect platform for: " ++ filename);;
        mret assets
    | Some platform =>
        size ← getFileSize filepath;
        sha256 ← readSha256 filepath;
        mret (assets ++ [ mkAsset filename platform (getAssetType filename)
                                  (getExtension filename) size sha256 ])%list
    end.

Definition platformOrder : list string :=
  [ "linux-amd64"; "linux-amd64-musl"; "linux-aarch64";
    "darwin-arm64"; "darwin-amd64"; "windows-amd64" ].

(** [aIndex === -1 ? 999 : aIndex] *)
Definition orderIndex (a : Asset) : Z :=
  let aIndex := JS.indexOf platformOrder (id (platform a)) in
  if (aIndex =? -1)%Z then 999%Z else aIndex.

(** The comparator handed to [assets.sort]. *)
Definition compareAssets (a b : Asset) : Z := (orderIndex a - orderIndex b)%Z.

(** Discover all release assets *)
Definition discoverAssets (assetsDir projectName : string) : IO (list Asset) :=
  let patterns :=
    [ assetsDir ++ "/**/*.tar.gz"; assetsDir ++ "/**/*.zip";
      assetsDir ++ "/**/*.deb"; assetsDir ++ "/**/*.rpm" ] in
  let joined := String.concat JS.nl patterns in
  files ← perform (EvGlob joined) (λ w, glob_files w joined);
  assets ← for_of (discoverAssets_step projectName) files [];
  mret (JS.sort compareAssets assets).

Definition is_nightly (version : string) : bool :=
  String.eqb version "nightly" || JS.includes version "nightly".

(** Generate install commands for a version *)
Definition generateInstallCommands (version projectName repository : string)
    : list InstallCommand :=
  let isNightly := is_nightly version in
  let download := "https://github.com/" ++ repository ++ "/releases/download/"
                  ++ version ++ "/" ++ projectName in
  let shell (target : string) :=
    "curl -fsSL " ++ download ++ "-" ++ target ++ ".tar.gz | tar xz" ++ JS.nl
    ++ "sudo mv " ++ projectName ++ " /usr/local/bin/" in
  [ mkCommand "Linux" ""
      [ mkMethod "Shell (x86_64)" (shell "linux-amd64") None;
        mkMethod "Shell (ARM64)" (shell "linux-aarch64") None ];
    mkCommand "macOS" ""
      [ mkMethod "Homebrew"
          (if isNightly
           then "brew install albertocavalcante/tap/" ++ projectName ++ "-nightly"
           else "brew install albertocavalcante/tap/" ++ projectName) None;
        mkMethod "Shell (Apple Silicon)" (shell "darwin-arm64") None;
        mkMethod "Shell (Intel)" (shell "darwin-amd64") None ];
    mkCommand "Windows" ""
      [ mkMethod "PowerShell"
          ("Invoke-WebRequest -Uri " ++ JS.dq ++ download ++ "-windows-amd64.zip"
           ++ JS.dq ++ " -OutFile " ++ JS.dq ++ projectName ++ ".zip" ++ JS.dq ++ JS.nl
           ++ "Expand-Archive -Path " ++ JS.dq ++ projectName ++ ".zip" ++ JS.dq
           ++ " -DestinationPath ." ++ JS.nl
           ++ "Move-Item -Path " ++ JS.dq ++ "." ++ JS.bs ++ projectName ++ ".exe"
           ++ JS.dq ++ " -Destination " ++ JS.dq ++ "$env:LOCALAPPDATA" ++ JS.bs
           ++ "Microsoft" ++ JS.bs ++ "WindowsApps" ++ JS.bs ++ JS.dq) None ] ].

Definition has_type (t : AssetType) (a : Asset) : bool :=
  match t, type a with
  | binary, binary | deb, deb | rpm, rpm => true
  | _, _ => false
  end.

Definition on_os (o : string) (a : Asset) : bool := String.eqb (os (platform a)) o.

(** Build the release context *)
Definition buildContext (version assetsDir projectName projectDescription
    repository : string) (isPrerelease : bool) (buildStatus : BuildStatus)
    (workflowRunId : string) : IO ReleaseContext :=
  assets ← discoverAssets assetsDir projectName;
  let binaries := List.filter (has_type binary) assets in
  let debPackages := List.filter (has_type deb) assets in
  let rpmPackages := List.filter (has_type rpm) assets in
  let hasFailures := existsb (λ s, String.eqb (snd s) "failure") buildStatus in
  now ← new_Date;
  mret
    {| version := version;
       versionClean := JS.strip_v version;
       projectName := projectName;
       projectDescription := projectDescription;
       repository := repository;
       repositoryUrl := "https://github.com/" ++ repository;
       isPrerelease := isPrerelease;
       isNightly := is_nightly version;
       date := toLocaleDateString now;
       dateIso := JS.before "T" (toISOString now);
       binaries := binaries;
       debPackages := debPackages;
       rpmPackages := rpmPackages;
       linuxAssets := List.filter (on_os "Linux") assets;
       macosAssets := List.filter (on_os "macOS") assets;
       windowsAssets := List.filter (on_os "Windows") assets;
       hasFailures := hasFailures;
       buildStatus := buildStatus;
       workflowRunUrl :=
         if JS.truthy workflowRunId
         then Some ("https://github.com/" ++ repository ++ "/actions/runs/"
                    ++ workflowRunId)
         else None;
       installCommands := generateInstallCommands version projectName repository |}.

End ReleaseNotes.

(** ** Vocabulary of the statements *)

(** What a request for the sidecar [target] yields: the lower-cased hash
    when the request is answered 2xx with a text whose trimmed form starts
    with 64 hexadecimal characters, nothing otherwise. *)
Definition sidecar_of (w : World) (target : string) : option string :=
  match net_fetch w target with
  | inr r =>
      if resp_ok r then
        match resp_text r with
        | inr content => sidecar_hash content
        | inl _ => None
        end
      else None
  | inl _ => None
  end.


(** The hexadecimal digits in both cases. *)
Definition hex_digits : list ascii := list_ascii_of_string "0123456789abcdefABCDEF".

Definition all_hex (h : string) : Prop :=
  Forall (λ c, c ∈ hex_digits) (list_ascii_of_string h).

(** The sha256 of an asset has to be fetched: absent or empty, with a
    non-empty url. *)
Definition needs_fetch (info : Homebrew.AssetInfo) : bool :=
  JS.falsy_opt (Homebrew.sha256 info) && JS.truthy (Homebrew.url info).

(** The output entry of an input entry in world [w]. *)
Definition resolved (w : World) (info : Homebrew.AssetInfo) : Homebrew.AssetInfo :=
  Homebrew.mkAssetInfo (Homebrew.url info)
    (if needs_fetch info then sidecar_of w (Homebrew.url info ++ ".sha256")
     else Homebrew.sha256 info)
    (Homebrew.filename info).

(** The text of [normalizePlatform(platform)]: the key under which
    [processAssets] stores the asset, and the name it logs. *)
Definition normalized (platform : string) : string :=
  JS.to_string (Homebrew.normalizePlatform platform).

(** A platform name that does not lower-case to a member of
    [Object.prototype].  Of the names of those members only "constructor"
    and "__proto__" are written in lower case. *)
Definition plain_platform (platform : string) : Prop :=
  JS.toLowerCase platform ≠ "constructor" ∧ JS.toLowerCase platform ≠ "__proto__".

(** The effect of one iteration of [processAssets] on the object. *)
Definition put_asset (w : World) (acc : Homebrew.Assets)
    (entry : string * Homebrew.AssetInfo) : Homebrew.Assets :=
  JS.obj_set (normalized (fst entry)) (resolved w (snd entry)) acc.

(** The events of one iteration of [processAssets]. *)
Definition asset_events (w : World) (entry : string * Homebrew.AssetInfo) : list Event :=
  snd (Homebrew.processAssets_step [] entry w).

(** No entry of [post] normalises to the same key as [platform]. *)
Definition last_for_key (platform : string) (post : Homebrew.Assets) : Prop :=
  ∀ entry, entry ∈ post →
    normalized (fst entry) ≠ normalized platform.

(** The ids of the platform table, in table order. *)
Definition pattern_ids : list string := fst <$> ReleaseNotes.PLATFORM_PATTERNS.

(** No id of the platform table occurs in [s]. *)
Definition no_known_id (s : string) : Prop :=
  ∀ i, i ∈ pattern_ids → JS.includes s i = false.

(** The common shape of the two package patterns, tried at the start of
    [s]: the separator, a non-empty run of the class, the extension, the
    end of the string. *)
Definition suffix_here (sep : ascii) (cls : ascii → bool) (ext : string) (s : string)
    : option string :=
  match s with
  | String c r =>
      if Ascii.eqb c sep then
        let '(run, rest) := JS.span cls r in
        if JS.truthy run && String.eqb rest ext then Some run else None
      else None
  | EmptyString => None
  end.

(** What the discovery loop pushes for one file: nothing for a sidecar or
    an unclassified file, one asset otherwise. *)
Definition discovered_asset (w : World) (projectName filepath : string)
    : list ReleaseNotes.Asset :=
  if JS.endsWith filepath ".sha256" then []
  else
    match ReleaseNotes.detectPlatform (JS.basename filepath) projectName with
    | None => []
    | Some platform =>
        [ ReleaseNotes.mkAsset (JS.basename filepath) platform
            (ReleaseNotes.getAssetType (JS.basename filepath))
            (ReleaseNotes.getExtension (JS.basename filepath))
            (match fs_stat_size w filepath with inr n => Some n | inl _ => None end)
            (match fs_readFile w (filepath ++ ".sha256") with
             | inr content => sidecar_hash content
             | inl _ => None
             end) ]
    end.

(** The assets in discovery order, that is in the order of the files. *)
Definition discovered (w : World) (projectName : string) (files : list string)
    : list ReleaseNotes.Asset :=
  List.concat (discovered_asset w projectName <$> files).

(** The events of one iteration of the discovery loop. *)
Definition discovery_events (w : World) (projectName filepath : string) : list Event :=
  snd (ReleaseNotes.discoverAssets_step projectName [] filepath w).

(** The glob patterns of [discoverAssets], joined. *)
Definition asset_patterns (assetsDir : string) : string :=
  String.concat JS.nl
    [ assetsDir ++ "/**/*.tar.gz"; assetsDir ++ "/**/*.zip";
      assetsDir ++ "/**/*.deb"; assetsDir ++ "/**/*.rpm" ].

(** The platform of an asset is one of the display order. *)
Definition listed (a : ReleaseNotes.Asset) : Prop :=
  ReleaseNotes.id (ReleaseNotes.platform a) ∈ ReleaseNotes.platformOrder.

#[global] Instance listed_dec (a : ReleaseNotes.Asset) : Decision (listed a).
Proof. unfold listed. apply _. Defined.

(** [a] is not displayed after [b]. *)
Definition display_le (a b : ReleaseNotes.Asset) : Prop :=
  (ReleaseNotes.orderIndex a ≤ ReleaseNotes.orderIndex b)%Z.

(** ** Concrete worlds used by the examples *)

Definition no_such : JsError := mkError "Error" "ENOENT".

Definition body (text : string) : Response :=
  mkResponse true 200 "OK" (inr text) (inr []).


(** A world with the given network and files, nothing else. *)
Definition world_of (net : string → JsError + Response)
    (files : string → JsError + string) (found : list string) : World :=
  mkWorld net files (λ _, inr []) (λ _, inr 0%N) (λ _, inr found)
          (λ u, inr u) (λ _ _, "digest") (mkDate "January 1, 2025" "2025-01-01T00:00:00.000Z").

Definition offline : string → JsError + Response := λ _, inl (mkError "TypeError" "fetch failed").
Definition no_files : string → JsError + string := λ _, inl no_such.

(** A release directory with five archives, found in this order. *)
Definition release_dir : World :=
  world_of offline no_files
    [ "r/app-windows-aarch64.zip"; "r/app-darwin-arm64.tar.gz"; "r/notes.tar.gz";
      "r/app-linux-arm64.tar.gz"; "r/app-linux-amd64.tar.gz" ].

Definition upper_hash : string :=
  "DEADBEEFDEADBEEFDEADBEEFDEADBEEFDEADBEEFDEADBEEFDEADBEEFDEADBEEF".
Definition lower_hash : string :=
  "deadbeefdeadbeefdeadbeefdeadbeefdeadbeefdeadbeefdeadbeefdeadbeef".

(** A checksum-tool line: the hash, two spaces, the file name, a newline. *)
Definition sidecar_line (hash name : string) : string := hash ++ "  " ++ name ++ JS.nl.

(** A directory holding one archive and the sidecar [content] next to it. *)
Definition dist_with (content : string) : World :=
  world_of offline
    (λ path, if String.eqb path "dist/myapp.tar.gz.sha256" then inr content else inl no_such)
    [ "dist/myapp.tar.gz" ].

(** A directory in which the only file found is itself a sidecar, with a
    sidecar of its own. *)
Definition dist_sidecar_only : World :=
  world_of offline
    (λ path, if String.eqb path "dist/a.sha256.sha256"
             then inr (sidecar_line lower_hash "a.sha256") else inl no_such)
    [ "dist/a.sha256" ].

(** ** Vocabulary of the further properties *)

(** A hash written with the digits 0-9 and a-f only. *)
Definition lower_hex (h : string) : Prop :=
  Forall (λ c, c ∈ list_ascii_of_string "0123456789abcdef") (list_ascii_of_string h).

(** The elements of [l] not yet in [seen], each at its first occurrence. *)
Fixpoint dedup_from (seen l : list string) : list string :=
  match l with
  | [] => []
  | x :: r =>
      if decide (x ∈ seen) then dedup_from seen r
      else x :: dedup_from (seen ++ [x]) r
  end.

(** The tests of the grouping loop of the formula context. *)
Definition macos_key (entry : string * Homebrew.AssetInfo) : bool :=
  JS.startsWith (fst entry) "darwin-" || JS.startsWith (fst entry) "macos-".
Definition linux_key (entry : string * Homebrew.AssetInfo) : bool :=
  JS.startsWith (fst entry) "linux-".

(** The convenience fields of the formula context, each with the key of
    the assets mapping it reads. *)
Definition accessors : list ((Homebrew.FormulaContext → option Homebrew.AssetInfo) * string) :=
  [ (Homebrew.darwinArm64, "darwin-arm64");
    (Homebrew.darwinX64, "darwin-x64");
    (Homebrew.darwinAmd64, "darwin-x64");
    (Homebrew.linuxArm64, "linux-arm64");
    (Homebrew.linuxX64, "linux-x64");
    (Homebrew.linuxAmd64, "linux-x64") ].


(** What the sidecar file next to [filepath] yields. *)
Definition file_sidecar (w : World) (filepath : string) : option string :=
  match fs_readFile w (filepath ++ ".sha256") with
  | inr content => sidecar_hash content
  | inl _ => None
  end.

(** What resolving the local file [filepath] comes to: the sidecar hash
    when sidecars are read and the sidecar is usable, else the digest of
    the streamed content, else the error of the stream. *)
Definition file_hash (w : World) (alg : HashAlgorithm) (readSidecars : bool)
    (filepath : string) : JsError + string :=
  match (if readSidecars then file_sidecar w filepath else None) with
  | Some h => inr h
  | None =>
      match fs_readStream w filepath with
      | inr data => inr (crypto_digest w alg data)
      | inl e => inl e
      end
  end.

(** What resolving [url] comes to: the sidecar hash when sidecars are
    read and the sidecar is usable, else the digest of the downloaded
    content, else the error of the download. *)
Definition url_hash (w : World) (alg : HashAlgorithm) (readSidecars : bool)
    (url : string) : JsError + string :=
  match (if readSidecars then sidecar_of w (url ++ ".sha256") else None) with
  | Some h => inr h
  | None =>
      match net_fetch w url with
      | inr r =>
          if resp_ok r then
            match resp_arrayBuffer r with
            | inr buffer => inr (crypto_digest w alg buffer)
            | inl e => inl e
            end
          else inl (new_Error ("Failed to download " ++ url ++ ": "
                               ++ JS.show_N (resp_status r) ++ " " ++ resp_statusText r))
      | inl e => inl e
      end
  end.

(** The outcome of storing a resolved hash under [key]. *)
Definition stored (key : string) (result : Checksums.ChecksumResult)
    (resolution : JsError + string) : Outcome Checksums.ChecksumResult :=
  match resolution with
  | inr h => Returned (JS.obj_set key h result)
  | inl e => Thrown e
  end.

(** The paths that the loop of [processFiles] does not skip. *)
Definition not_sidecar (filepath : string) : bool := negb (JS.endsWith filepath ".sha256").

(** A URL with the key that [processUrls] gives it: the base name of its
    path (of no use for a URL that does not parse). *)
Definition keyed (w : World) (url : string) : string * string :=
  (JS.basename (match url_pathname w url with inr pathname => pathname | inl _ => "" end),
   url).

(** Entries that an object lists in this order: the keys are pairwise
    distinct and none is an array index (such keys would come first, in
    ascending order). *)
Definition enumeration {V} (entries : list (string * V)) : Prop :=
  NoDup entries.*1 ∧ Forall (λ entry, JS.is_index (fst entry) = false) entries.

(** The digest event of a download that succeeds. *)
Definition download_digest (w : World) (alg : HashAlgorithm) (url : string) : list Event :=
  match net_fetch w url with
  | inr r =>
      if resp_ok r then
        match resp_arrayBuffer r with
        | inr buffer => [ EvDigest alg buffer ]
        | inl _ => []
        end
      else []
  | inl _ => []
  end.

(** The files that the discovery loop turns into assets: not a sidecar,
    and with a base name that can be classified. *)
Definition classified (projectName filepath : string) : bool :=
  not_sidecar filepath
  && match ReleaseNotes.detectPlatform (JS.basename filepath) projectName with
     | Some _ => true
     | None => false
     end.

(** The operating systems of the platform table. *)
Definition table_systems : list string := [ "Linux"; "macOS"; "Windows" ].

(** ** update-homebrew-tap: [updateTapRepo]

    The GitHub client is an environment of its own: two requests, each
    answering with data or rejecting with an error that may carry an HTTP
    status.  The function returns its outcome together with the requests
    and log lines it made, in order. *)

Module Tap.

Record CommitterInfo := mkCommitter {
  committer_name : string;
  committer_email : string
}.

(** A rejection of the client: the thrown value and its [status], if any. *)
Record RequestError := mkRequestError {
  status : option N;
  thrown : JsError
}.

(** The [data] of [getContent]: an array for a directory, else one object
    with its [type] and [sha]. *)
Inductive ContentData :=
| Listing
| Entry (type sha : string).

(** The parameters of [createOrUpdateFileContents]. *)
Record FileWrite := mkFileWrite {
  owner : string;
  repo : string;
  path : string;
  message : string;
  content : string;
  branch : string;
  sha : option string;
  committer : CommitterInfo;
  author : CommitterInfo
}.

(** [result.commit], either field of which may be missing. *)
Record CommitData := mkCommitData {
  commit_sha : option string;
  commit_html_url : option string
}.

Record Octokit := mkOctokit {
  getContent : string → string → string → string → RequestError + ContentData;
  createOrUpdateFileContents : FileWrite → RequestError + CommitData;
  toBase64 : string → string
}.

Inductive Step :=
| Lookup (owner repo path ref : string)
| Write (params : FileWrite)
| Info (msg : string).

(** Update the formula in the tap repository *)
Definition updateTapRepo (octokit : Octokit) (owner repo branch formulaPath
    content commitMessage : string) (committer : CommitterInfo)
    : (RequestError + string * string) * list Step :=
  let lookup := Lookup owner repo formulaPath branch in
  let write (existingSha : option string) (steps : list Step) :=
    let params :=
      mkFileWrite owner repo formulaPath commitMessage (toBase64 octokit content)
                  branch existingSha committer committer in
    match createOrUpdateFileContents octokit params with
    | inr result =>
        (inr (JS.or_else (commit_sha result) "", JS.or_else (commit_html_url result) ""),
         (steps ++ [ Write params ])%list)
    | inl e => (inl e, (steps ++ [ Write params ])%list)
    end in
  match getContent octokit owner repo formulaPath branch with
  | inr (Entry type sha) =>
      if String.eqb type "file" then
        write (Some sha) [ lookup; Info ("Found existing formula at " ++ formulaPath) ]
      else write None [ lookup ]
  | inr Listing => write None [ lookup ]
  | inl e =>
      match status e with
      | Some 404%N => write None [ lookup; Info ("Creating new formula at " ++ formulaPath) ]
      | _ => (inl e, [ lookup ])
      end
  end.

(** The writes among the steps. *)
Definition writes (steps : list Step) : list FileWrite :=
  omap (λ s, match s with Write p => Some p | _ => None end) steps.

End Tap.

(** ** release-notes: the [formatBytes] helper

    The helper formats the [size] of an asset, the [stats.size] of its
    file: a [number] that holds a non-negative integer below 2^53
    exactly.  Dividing it by 1024 or by 1024 squared is exact in binary
    floating point (the divisor is a power of two), the quotient stays
    below 2^43, far from the 10^21 at which [toFixed] changes notation,
    and [toFixed(1)] rounds the exact value to the nearest tenth, upwards
    on a tie: the tenths are the integer quotient of [20 * bytes + d] by
    [2 * d] for the divisor [d]. *)

Module Format.

(** A file size: an integer below 2^53. *)
Record Size := mkSize {
  bytes_of : N;
  bytes_safe : (bytes_of <? 9007199254740992)%N = true
}.

(** Format bytes to human readable *)
Definition formatBytes (bytes : Size) : string :=
  let n := bytes_of bytes in
  let toFixed1 (d : N) :=
    let tenths := ((20 * n + d) / (2 * d))%N in
    JS.show_N (tenths / 10) ++ "." ++ JS.show_N (tenths mod 10) in
  if (n <? 1024)%N then JS.show_N n ++ " B"
  else if (n <? 1024 * 1024)%N then toFixed1 1024%N ++ " KB"
  else toFixed1 (1024 * 1024)%N ++ " MB".

End Format.

(** * Properties *)

(** ** Strings and objects *)

Ltac eqb_cases :=
  repeat match goal with
         | |- context [String.eqb ?a ?b] => destruct (String.eqb_spec a b); simplify_eq/=
         | H : context [String.eqb ?a ?b] |- _ => destruct (String.eqb_spec a b); simplify_eq/=
         end.

Lemma append_cons c s t : String c s ++ t = String c (s ++ t).
Proof. reflexivity. Qed.

Lemma append_nil_r s : s ++ "" = s.
Proof. induction s as [|c s IH]; [done|]. by rewrite append_cons, IH. Qed.

Lemma append_assoc s t u : (s ++ t) ++ u = s ++ t ++ u.
Proof. induction s as [|c s IH]; [done|]. by rewrite !append_cons, IH. Qed.

Lemma append_length s t : String.length (s ++ t) = String.length s + String.length t.
Proof. induction s as [|c s IH]; [done|]. rewrite append_cons. simpl. by rewrite IH. Qed.

Lemma lower_char_idem c : JS.lower_char (JS.lower_char c) = JS.lower_char c.
Proof. destruct c as [[] [] [] [] [] [] [] []]; vm_compute; reflexivity. Qed.

Lemma toLowerCase_idem s : JS.toLowerCase (JS.toLowerCase s) = JS.toLowerCase s.
Proof.
  induction s as [|c r IH]; simpl; [reflexivity|].
  by rewrite lower_char_idem, IH.
Qed.

Lemma obj_get_define_eq {V} k (v : V) o : JS.obj_get k (JS.obj_define k v o) = Some v.
Proof.
  induction o as [|[k' v'] o IH]; simpl; eqb_cases; done.
Qed.

Lemma obj_get_define_ne {V} k k' (v : V) o :
  k ≠ k' → JS.obj_get k' (JS.obj_define k v o) = JS.obj_get k' o.
Proof.
  intros Hne. induction o as [|[k0 v0] o IH]; simpl; eqb_cases; try done.
Qed.

Lemma obj_define_keys {V} k (v : V) o k' :
  k' ∈ (JS.obj_define k v o).*1 ↔ k' = k ∨ k' ∈ o.*1.
Proof.
  induction o as [|[k0 v0] o IH]; simpl.
  - rewrite elem_of_cons, elem_of_nil. tauto.
  - eqb_cases; simpl; rewrite ?elem_of_cons; [tauto|]. rewrite IH. tauto.
Qed.

Lemma obj_define_NoDup {V} k (v : V) o : NoDup o.*1 → NoDup (JS.obj_define k v o).*1.
Proof.
  induction o as [|[k0 v0] o IH]; simpl; intros Hnd.
  - apply NoDup_singleton.
  - apply NoDup_cons in Hnd as [Hin Hnd]. eqb_cases; simpl.
    + by apply NoDup_cons.
    + apply NoDup_cons. split; [|by apply IH].
      rewrite obj_define_keys. intros [->|?]; done.
Qed.

(** The assignment [o[k] = v]: nothing happens for the key "__proto__",
    the property is created or overwritten for every other key. *)
Lemma obj_set_proto {V} (v : V) o : JS.obj_set "__proto__" v o = o.
Proof. reflexivity. Qed.

Lemma obj_set_define {V} k (v : V) o :
  k ≠ "__proto__" → JS.obj_set k v o = JS.obj_define k v o.
Proof. unfold JS.obj_set. intros Hk. by destruct (String.eqb_spec k "__proto__"). Qed.

Lemma obj_set_cases {V} k (v : V) o :
  (k = "__proto__" ∧ JS.obj_set k v o = o)
  ∨ (k ≠ "__proto__" ∧ JS.obj_set k v o = JS.obj_define k v o).
Proof.
  destruct (decide (k = "__proto__")) as [->|Hk]; [by left|].
  right. by rewrite obj_set_define.
Qed.

Lemma obj_get_set_eq {V} k (v : V) o :
  k ≠ "__proto__" → JS.obj_get k (JS.obj_set k v o) = Some v.
Proof. intros Hk. rewrite obj_set_define by done. apply obj_get_define_eq. Qed.

Lemma obj_get_set_ne {V} k k' (v : V) o :
  k ≠ k' → JS.obj_get k' (JS.obj_set k v o) = JS.obj_get k' o.
Proof.
  intros Hne. destruct (obj_set_cases k v o) as [[_ ->]|[_ ->]]; [done|].
  by apply obj_get_define_ne.
Qed.

Lemma obj_set_keys {V} k (v : V) o k' :
  k' ∈ (JS.obj_set k v o).*1 ↔ (k' = k ∧ k ≠ "__proto__") ∨ k' ∈ o.*1.
Proof.
  destruct (obj_set_cases k v o) as [[-> ->]|[Hk ->]]; [tauto|].
  rewrite obj_define_keys. tauto.
Qed.

Lemma obj_set_NoDup {V} k (v : V) o : NoDup o.*1 → NoDup (JS.obj_set k v o).*1.
Proof.
  destruct (obj_set_cases k v o) as [[_ ->]|[_ ->]]; [done|]. apply obj_define_NoDup.
Qed.

Lemma obj_get_Some_key {V} k (v : V) o : JS.obj_get k o = Some v → (k, v) ∈ o.
Proof.
  induction o as [|[k0 v0] o IH]; simpl; [done|].
  eqb_cases; intros H; simplify_eq; [left|right; auto].
Qed.

Lemma obj_get_is_Some {V} k (o : list (string * V)) :
  is_Some (JS.obj_get k o) ↔ k ∈ o.*1.
Proof.
  induction o as [|[k0 v0] o IH]; simpl.
  - split; [by intros [? ?]|by intros ?%elem_of_nil].
  - eqb_cases; rewrite elem_of_cons; [split; eauto|].
    rewrite IH. split; [by right|]. by intros [?|?].
Qed.

(** ** C3, C4, C10, C1: update-homebrew-tap *)

(** Every alias is one of the four canonical identifiers. *)
Lemma alias_canonical k v :
  Homebrew.PLATFORM_ALIASES !! k = Some v →
  v ∈ [ "darwin-arm64"; "darwin-x64"; "linux-arm64"; "linux-x64" ].
Proof.
  intros H. apply elem_of_list_to_map_2 in H.
  repeat (apply elem_of_cons in H as [H|H]; [injection H as -> ->; set_solver|]).
  by apply elem_of_nil in H.
Qed.

Lemma canonical_fixed v :
  v ∈ [ "darwin-arm64"; "darwin-x64"; "linux-arm64"; "linux-x64" ] →
  Homebrew.normalizePlatform v = JS.Str v ∧ JS.toLowerCase v = v.
Proof.
  intros H.
  repeat (apply elem_of_cons in H as [->|H]; [by vm_compute|]).
  by apply elem_of_nil in H.
Qed.

(** Lower-casing reaches two of the names of [Object.prototype] only. *)
Lemma lower_inherited s :
  JS.toLowerCase s ∈ JS.prototype_names →
  JS.toLowerCase s = "constructor" ∨ JS.toLowerCase s = "__proto__".
Proof.
  intros H. pose proof (toLowerCase_idem s) as Hid. unfold JS.prototype_names in H.
  repeat (apply elem_of_cons in H as [H|H];
          [first [ by left | by right
                 | exfalso; rewrite H in Hid; vm_compute in Hid; discriminate ]|]).
  by apply elem_of_nil in H.
Qed.

Lemma plain_not_inherited s : plain_platform s → JS.toLowerCase s ∉ JS.prototype_names.
Proof. intros [H1 H2] [?|?]%lower_inherited; done. Qed.

Lemma normalizePlatform_cases s :
  (∃ a, Homebrew.PLATFORM_ALIASES !! JS.toLowerCase s = Some a
        ∧ a ∈ [ "darwin-arm64"; "darwin-x64"; "linux-arm64"; "linux-x64" ]
        ∧ Homebrew.normalizePlatform s = JS.Str a)
  ∨ (¬ plain_platform s
     ∧ Homebrew.normalizePlatform s = JS.Inherited (JS.toLowerCase s))
  ∨ (Homebrew.PLATFORM_ALIASES !! JS.toLowerCase s = None
     ∧ plain_platform s
     ∧ Homebrew.normalizePlatform s = JS.Str (JS.toLowerCase s)).
Proof.
  unfold Homebrew.normalizePlatform, JS.index.
  destruct (Homebrew.PLATFORM_ALIASES !! JS.toLowerCase s) as [a|] eqn:E.
  - left. exists a. pose proof (alias_canonical _ _ E) as Hc. split; [done|]. split; [done|].
    repeat (apply elem_of_cons in Hc as [->|Hc]; [done|]).
    by apply elem_of_nil in Hc.
  - right. case_bool_decide as Hin.
    + left. split; [|done]. intros Hp. by apply (plain_not_inherited s).
    + right. split; [done|]. split; [|done].
      split; intros Heq; apply Hin; rewrite Heq; apply (bool_decide_unpack _); by vm_compute.
Qed.

Lemma normalizePlatform_plain s :
  plain_platform s →
  ∃ t, Homebrew.normalizePlatform s = JS.Str t
       ∧ Homebrew.normalizePlatform t = JS.Str t
       ∧ JS.toLowerCase t = t.
Proof.
  intros Hp. destruct (normalizePlatform_cases s) as [(a & E & Hc & ->)|[[Hn _]|(E & _ & ->)]].
  - exists a. split; [done|]. by apply canonical_fixed.
  - done.
  - exists (JS.toLowerCase s). split; [done|]. split; [|apply toLowerCase_idem].
    destruct (normalizePlatform_cases (JS.toLowerCase s))
      as [(a & E' & _)|[[Hn _]|(_ & _ & ->)]].
    + rewrite toLowerCase_idem in E'. congruence.
    + exfalso. apply Hn. unfold plain_platform. by rewrite toLowerCase_idem.
    + by rewrite toLowerCase_idem.
Qed.

Lemma normalizePlatform_inherited s :
  ¬ plain_platform s →
  Homebrew.normalizePlatform s = JS.Inherited (JS.toLowerCase s)
  ∧ (JS.toLowerCase s = "constructor" ∨ JS.toLowerCase s = "__proto__").
Proof.
  intros Hn. split.
  - destruct (normalizePlatform_cases s) as [(a & E & Hc & _)|[[_ ->]|(_ & Hp & _)]];
      [|done|done].
    exfalso. apply Hn. pose proof (alias_canonical _ _ E) as _.
    apply elem_of_list_to_map_2 in E.
    repeat (apply elem_of_cons in E as [E|E];
            [injection E as E _; unfold plain_platform; rewrite E; by split|]).
    by apply elem_of_nil in E.
  - unfold plain_platform in Hn.
    destruct (decide (JS.toLowerCase s = "constructor")); [by left|].
    destruct (decide (JS.toLowerCase s = "__proto__")); [by right|].
    exfalso. by apply Hn.
Qed.

Lemma normalized_idem s : plain_platform s → normalized (normalized s) = normalized s.
Proof.
  intros (t & E & Et & _)%normalizePlatform_plain. unfold normalized.
  rewrite E. simpl. by rewrite Et.
Qed.

Lemma normalized_lower s : plain_platform s → JS.toLowerCase (normalized s) = normalized s.
Proof.
  intros (t & E & _ & Et)%normalizePlatform_plain. unfold normalized. by rewrite E.
Qed.

Lemma normalized_plain s : plain_platform s → plain_platform (normalized s).
Proof.
  intros Hp. destruct (normalizePlatform_plain s Hp) as (t & E & Et & Hl).
  unfold normalized. rewrite E. simpl.
  destruct (decide (plain_platform t)) as [|Hn]; [done|].
  apply normalizePlatform_inherited in Hn as [Hn _]. congruence.
Qed.

(** What an inherited name turns into as a key. *)
Lemma normalized_inherited s :
  ¬ plain_platform s →
  (JS.toLowerCase s = "constructor" ∧ normalized s = "function Object() { [native code] }")
  ∨ (JS.toLowerCase s = "__proto__" ∧ normalized s = "[object Object]").
Proof.
  intros [E [Hl|Hl]]%normalizePlatform_inherited; unfold normalized; rewrite E, Hl;
    [left|right]; done.
Qed.

(** No asset is ever stored under "__proto__", the one key that an
    assignment does not create. *)
Lemma normalized_not_proto s : normalized s ≠ "__proto__".
Proof.
  destruct (decide (plain_platform s)) as [Hp|Hn].
  - intros Heq. apply normalized_plain in Hp as [_ Hp]. apply Hp. by rewrite Heq.
  - destruct (normalized_inherited s Hn) as [[_ ->]|[_ ->]]; done.
Qed.

(** C3.  The claim fails on the code at the two lower-case names that the
    alias table inherits from [Object.prototype].  For every other string
    [normalizePlatform] returns a lower-case string on which a second
    application changes nothing (idempotence), and on a string without an
    entry it returns the lower-cased input; it is case-insensitive
    throughout (two strings with the same lower-casing normalise to the
    same result, as do "DARWIN-AARCH64" and "darwin-aarch64", both to
    "darwin-arm64").  At "constructor" and "__proto__", in any
    capitalisation, it returns the inherited member, which is not a
    string, and a second application throws a [TypeError]. *)
Theorem normalizePlatform_idempotent_case_insensitive :
  (∀ s, plain_platform s →
        ∃ t, Homebrew.normalizePlatform s = JS.Str t
             ∧ Homebrew.normalizePlatform_any (Homebrew.normalizePlatform s)
               = inr (Homebrew.normalizePlatform s)
             ∧ JS.toLowerCase t = t)
  ∧ (∀ s1 s2, JS.toLowerCase s1 = JS.toLowerCase s2 →
              Homebrew.normalizePlatform s1 = Homebrew.normalizePlatform s2)
  ∧ (∀ s, Homebrew.normalizePlatform (JS.toLowerCase s) = Homebrew.normalizePlatform s)
  ∧ Homebrew.normalizePlatform "DARWIN-AARCH64" = JS.Str "darwin-arm64"
  ∧ Homebrew.normalizePlatform "darwin-aarch64" = JS.Str "darwin-arm64"
  ∧ (∀ s, JS.index Homebrew.PLATFORM_ALIASES (JS.toLowerCase s) = None →
          Homebrew.normalizePlatform s = JS.Str (JS.toLowerCase s))
  ∧ Homebrew.normalizePlatform "constructor" = JS.Inherited "constructor"
  ∧ Homebrew.normalizePlatform "__proto__" = JS.Inherited "__proto__"
  ∧ (∀ s, ¬ plain_platform s →
          Homebrew.normalizePlatform s = JS.Inherited (JS.toLowerCase s)
          ∧ Homebrew.normalizePlatform_any (Homebrew.normalizePlatform s)
            = inl (mkError "TypeError" "platform.toLowerCase is not a function")).
Proof.
  split.
  { intros s (t & E & Et & Hl)%normalizePlatform_plain. exists t.
    rewrite E. simpl. by rewrite Et. }
  split; [intros s1 s2 H; unfold Homebrew.normalizePlatform; by rewrite H|].
  split; [intros s; unfold Homebrew.normalizePlatform; by rewrite toLowerCase_idem|].
  split; [by vm_compute|]. split; [by vm_compute|].
  split; [intros s H; unfold Homebrew.normalizePlatform; by rewrite H|].
  split; [by vm_compute|]. split; [by vm_compute|].
  intros s [E _]%normalizePlatform_inherited. by rewrite E.
Qed.

(** The theorem at "Darwin-AMD64" / "darwin-amd64", at "FreeBSD-x64" and
    at "Constructor". *)
Lemma normalizePlatform_idempotent_case_insensitive_witness :
  Homebrew.normalizePlatform "Darwin-AMD64" = Homebrew.normalizePlatform "darwin-amd64"
  ∧ Homebrew.normalizePlatform "FreeBSD-x64" = JS.Str "freebsd-x64"
  ∧ Homebrew.normalizePlatform_any (Homebrew.normalizePlatform "FreeBSD-x64")
    = inr (JS.Str "freebsd-x64")
  ∧ Homebrew.normalizePlatform_any (Homebrew.normalizePlatform "Constructor")
    = inl (mkError "TypeError" "platform.toLowerCase is not a function").
Proof.
  destruct normalizePlatform_idempotent_case_insensitive
    as (Hidem & Hci & _ & _ & _ & Hno & _ & _ & Hbad).
  assert (E : Homebrew.normalizePlatform "FreeBSD-x64" = JS.Str "freebsd-x64").
  { apply (Hno "FreeBSD-x64"). vm_compute. reflexivity. }
  split; [apply Hci; reflexivity|]. split; [exact E|]. split.
  - destruct (Hidem "FreeBSD-x64") as (t & _ & Hagain & _).
    + split; discriminate.
    + rewrite <- E. exact Hagain.
  - apply (Hbad "Constructor"). intros [Hc _]. apply Hc. reflexivity.
Defined.

(** *** The monad *)

Ltac io_unfold :=
  unfold try_catch, mbind, io_mbind, io_bind, mret, io_mret, io_ret, fetch,
    readFile_utf8, new_Date, response_text, response_arrayBuffer, perform,
    consult, core_debug, core_info, core_warning, emit, throw in *.

(** Membership of an event in an explicit log. *)
Ltac mem_solve :=
  rewrite ?elem_of_app, ?elem_of_cons, ?elem_of_nil;
  split; [intros; destruct_or?; simplify_eq; done | intros; simplify_eq; eauto 10].

Lemma io_bind_returned {A B} (m : IO A) (f : A → IO B) w a t :
  m w = (Returned a, t) →
  (m ≫= f) w = (fst (f a w), (t ++ snd (f a w))%list).
Proof. io_unfold. intros ->. by destruct (f a w). Qed.

Lemma io_bind_thrown {A B} (m : IO A) (f : A → IO B) w e t :
  m w = (Thrown e, t) → (m ≫= f) w = (Thrown e, t).
Proof. io_unfold. by intros ->. Qed.

(** A loop whose body always returns, returns: the state is the fold of
    the pure part of the body and the log the concatenation of the logs. *)
Lemma for_of_pure {A S} (body : S → A → IO S) (step : S → A → S)
    (events : A → list Event) w l s :
  (∀ s x, body s x w = (Returned (step s x), events x)) →
  for_of body l s w = (Returned (fold_left step l s), List.concat (events <$> l)).
Proof.
  intros Hbody. revert s. induction l as [|x l IH]; intros s; simpl; [done|].
  rewrite (io_bind_returned _ _ _ _ _ (Hbody s x)), IH. done.
Qed.

(** The first iteration that throws ends the loop: the error escapes and
    nothing after it is run. *)
Lemma for_of_thrown {A S} (body : S → A → IO S) w pre x post s s' t e t' :
  for_of body pre s w = (Returned s', t) →
  body s' x w = (Thrown e, t') →
  for_of body (pre ++ x :: post) s w = (Thrown e, (t ++ t')%list).
Proof.
  revert s t. induction pre as [|y pre IH]; intros s t; simpl.
  - intros [= <- <-] Hx. by rewrite (io_bind_thrown _ _ _ _ _ Hx).
  - intros Hpre Hx.
    destruct (body s y w) as [[s1|e1] t1] eqn:Hy.
    + rewrite (io_bind_returned _ _ _ _ _ Hy) in Hpre.
      rewrite (io_bind_returned _ _ _ _ _ Hy).
      destruct (for_of body pre s1 w) as [o2 t2] eqn:Hrest. simpl in Hpre.
      injection Hpre as -> <-.
      rewrite (IH _ _ Hrest Hx). simpl. by rewrite app_assoc.
    + rewrite (io_bind_thrown _ _ _ _ _ Hy) in Hpre. done.
Qed.

(** *** [fetchSha256] and [processAssets] *)

Lemma fetchSha256_result url w :
  fst (Homebrew.fetchSha256 url w) = Returned (sidecar_of w (url ++ ".sha256")).
Proof.
  unfold Homebrew.fetchSha256, sidecar_of, sidecar_hash. io_unfold. simpl.
  destruct (net_fetch w _) as [e|r]; simpl; [done|].
  destruct (resp_ok r); simpl; [|done].
  destruct (resp_text r) as [e|content]; simpl; [done|].
  by destruct (JS.match_sha256 _).
Qed.

Lemma fetchSha256_fetches url w t :
  EvFetch t ∈ snd (Homebrew.fetchSha256 url w) ↔ t = url ++ ".sha256".
Proof.
  unfold Homebrew.fetchSha256. io_unfold. simpl.
  destruct (net_fetch w _) as [e|r]; simpl; [mem_solve|].
  destruct (resp_ok r); simpl; [|mem_solve].
  destruct (resp_text r) as [e|content]; simpl; [mem_solve|].
  destruct (JS.match_sha256 _); simpl; mem_solve.
Qed.

Lemma processAssets_step_eq acc p info w :
  Homebrew.processAssets_step acc (p, info) w
  = (Returned (JS.obj_set (normalized p) (resolved w info) acc),
     asset_events w (p, info)).
Proof.
  unfold asset_events, Homebrew.processAssets_step, resolved, needs_fetch.
  destruct (JS.falsy_opt _ && JS.truthy _); [|done].
  pose proof (fetchSha256_result (Homebrew.url info) w) as Hres.
  destruct (Homebrew.fetchSha256 (Homebrew.url info) w) as [o t] eqn:E.
  simpl in Hres. subst o. io_unfold. simpl. rewrite E. simpl.
  by destruct (JS.falsy_opt _).
Qed.

(** The loop as a fold. *)
Lemma processAssets_eq raw w :
  Homebrew.processAssets raw w
  = (Returned (fold_left (put_asset w) raw []), List.concat (asset_events w <$> raw)).
Proof.
  unfold Homebrew.processAssets. apply for_of_pure.
  intros s [p info]. apply processAssets_step_eq.
Qed.

(** *** The object built by the loop *)

Lemma put_asset_define w acc entry :
  put_asset w acc entry
  = JS.obj_define (normalized (fst entry)) (resolved w (snd entry)) acc.
Proof. apply obj_set_define, normalized_not_proto. Qed.

Section assets_fold.
Context (w : World).

Local Abbreviation put := (put_asset w).

Lemma fold_put_keys raw acc k :
  k ∈ (fold_left put raw acc).*1
  ↔ k ∈ acc.*1 ∨ ∃ entry, entry ∈ raw ∧ normalized (fst entry) = k.
Proof.
  revert acc. induction raw as [|x raw IH]; intros acc; simpl.
  - split; [by left|]. intros [?|(? & ?%elem_of_nil & _)]; done.
  - rewrite IH, put_asset_define, obj_define_keys. split.
    + intros [[->|?]|(e & ? & ?)]; [right; exists x|by left|right; exists e];
        rewrite elem_of_cons; auto.
    + intros [?|(e & [->|?]%elem_of_cons & ?)]; eauto.
Qed.

Lemma fold_put_NoDup raw acc : NoDup acc.*1 → NoDup (fold_left put raw acc).*1.
Proof.
  revert acc. induction raw as [|x raw IH]; intros acc Hnd; simpl; [done|].
  apply IH. by apply obj_set_NoDup.
Qed.

Lemma fold_put_other raw acc k :
  (∀ entry, entry ∈ raw → normalized (fst entry) ≠ k) →
  JS.obj_get k (fold_left put raw acc) = JS.obj_get k acc.
Proof.
  revert acc. induction raw as [|x raw IH]; intros acc Hk; simpl; [done|].
  rewrite IH.
  - apply obj_get_set_ne, Hk. by left.
  - intros e He. apply Hk. by right.
Qed.

Lemma fold_put_last pre p info post acc :
  last_for_key p post →
  JS.obj_get (normalized p) (fold_left put (pre ++ (p, info) :: post) acc)
  = Some (resolved w info).
Proof.
  intros Hlast. rewrite fold_left_app. simpl.
  rewrite (fold_put_other post); [|exact Hlast].
  apply obj_get_set_eq, normalized_not_proto.
Qed.

End assets_fold.

(** The alias table as the source lists it: a spelling in any
    capitalisation is stored under the canonical name next to it. *)
Lemma normalized_alias p a c :
  (a, c) ∈ [ ("darwin-aarch64", "darwin-arm64"); ("darwin-x86_64", "darwin-x64");
             ("darwin-amd64", "darwin-x64"); ("macos-arm64", "darwin-arm64");
             ("macos-x64", "darwin-x64"); ("macos-amd64", "darwin-x64");
             ("linux-aarch64", "linux-arm64"); ("linux-x86_64", "linux-x64");
             ("linux-amd64", "linux-x64") ] →
  JS.toLowerCase p = a → normalized p = c.
Proof.
  intros Hin Hp. unfold normalized, Homebrew.normalizePlatform. rewrite Hp.
  repeat (apply elem_of_cons in Hin as [[= -> ->]|Hin]; [by vm_compute|]).
  by apply elem_of_nil in Hin.
Qed.

Lemma normalized_canonical p :
  JS.toLowerCase p ∈ [ "darwin-arm64"; "darwin-x64"; "linux-arm64"; "linux-x64" ] →
  normalized p = JS.toLowerCase p.
Proof.
  intros Hin. unfold normalized, Homebrew.normalizePlatform.
  repeat (apply elem_of_cons in Hin as [->|Hin]; [by vm_compute|]).
  by apply elem_of_nil in Hin.
Qed.

(** C4.  Whatever the input map and the network, [processAssets] returns
    a mapping whose keys are exactly the normalised raw keys, each present
    once, the entry under a key being the one produced from the raw key
    that comes last, in iteration order, among those normalising to it.
    The nine aliases of the table, in any capitalisation, are stored
    under their canonical names (darwin-arm64, darwin-x64, linux-arm64,
    linux-x64), as are the canonical names themselves, so no two
    spellings of one platform coexist.  The key made from a raw key is
    lower-case and a fixed point of the normalisation, except where the
    claim fails on the code: a raw key that lower-cases to "constructor"
    or "__proto__" is stored under the text of the member that the alias
    table inherits, which is neither. *)
Theorem processAssets_keys_canonical_last_write_wins :
  (∀ (w : World) (raw : Homebrew.Assets),
     ∃ out log,
       Homebrew.processAssets raw w = (Returned out, log)
       ∧ (∀ k, k ∈ out.*1 ↔ ∃ entry, entry ∈ raw ∧ normalized (fst entry) = k)
       ∧ NoDup out.*1
       ∧ (∀ pre p info post,
            raw = (pre ++ (p, info) :: post)%list → last_for_key p post →
            JS.obj_get (normalized p) out = Some (resolved w info))
       ∧ (∀ entry, entry ∈ raw → plain_platform (fst entry) →
            normalized (normalized (fst entry)) = normalized (fst entry)
            ∧ JS.toLowerCase (normalized (fst entry)) = normalized (fst entry)))
  ∧ (∀ p a c,
       (a, c) ∈ [ ("darwin-aarch64", "darwin-arm64"); ("darwin-x86_64", "darwin-x64");
                  ("darwin-amd64", "darwin-x64"); ("macos-arm64", "darwin-arm64");
                  ("macos-x64", "darwin-x64"); ("macos-amd64", "darwin-x64");
                  ("linux-aarch64", "linux-arm64"); ("linux-x86_64", "linux-x64");
                  ("linux-amd64", "linux-x64") ] →
       JS.toLowerCase p = a → normalized p = c)
  ∧ (∀ p, JS.toLowerCase p ∈ [ "darwin-arm64"; "darwin-x64"; "linux-arm64"; "linux-x64" ] →
          normalized p = JS.toLowerCase p)
  ∧ (∀ (w : World) info,
       fst (Homebrew.processAssets [ ("constructor", info) ] w)
       = Returned [ ("function Object() { [native code] }", resolved w info) ])
  ∧ JS.toLowerCase "function Object() { [native code] }"
    ≠ "function Object() { [native code] }"
  ∧ normalized "function Object() { [native code] }"
    ≠ "function Object() { [native code] }".
Proof.
  split; [|split; [exact normalized_alias|split; [exact normalized_canonical|]]].
  - intros w raw. eexists _, _. split; [apply processAssets_eq|].
    assert (Hkeys : ∀ k, k ∈ (fold_left (put_asset w) raw []).*1
             ↔ ∃ entry, entry ∈ raw ∧ normalized (fst entry) = k).
    { intros k. rewrite fold_put_keys. split; [|by right].
      intros [?%elem_of_nil|?]; done. }
    split; [exact Hkeys|]. split; [|split].
    + apply fold_put_NoDup. simpl. apply NoDup_nil_2.
    + intros pre p info post -> Hlast. by apply fold_put_last.
    + intros entry _ Hp. split; [by apply normalized_idem|by apply normalized_lower].
  - split; [|split; [by vm_compute|by vm_compute]].
    intros w info. rewrite processAssets_eq. reflexivity.
Qed.

(** Two spellings of the Intel macOS platform in one map: both are
    stored under "darwin-x64", in one entry, taken from the spelling that
    comes last. *)
Lemma processAssets_keys_canonical_last_write_wins_witness :
  normalized "Darwin-AMD64" = "darwin-x64"
  ∧ ∃ out log,
      Homebrew.processAssets
        [ ("Darwin-AMD64", Homebrew.mkAssetInfo "https://h/a" (Some lower_hash) None);
          ("darwin-x64", Homebrew.mkAssetInfo "https://h/b" (Some lower_hash) None) ]
        (world_of offline no_files []) = (Returned out, log)
      ∧ JS.obj_get "darwin-x64" out
        = Some (Homebrew.mkAssetInfo "https://h/b" (Some lower_hash) None)
      ∧ normalized (normalized "Darwin-AMD64") = normalized "Darwin-AMD64".
Proof.
  destruct processAssets_keys_canonical_last_write_wins as (Hrun & Halias & _).
  split.
  - apply (Halias "Darwin-AMD64" "darwin-amd64" "darwin-x64"); [|reflexivity].
    apply (bool_decide_unpack _). vm_compute. reflexivity.
  - destruct (Hrun (world_of offline no_files [])
      [ ("Darwin-AMD64", Homebrew.mkAssetInfo "https://h/a" (Some lower_hash) None);
        ("darwin-x64", Homebrew.mkAssetInfo "https://h/b" (Some lower_hash) None) ])
      as (out & log & E & _ & _ & Hlast & Hcanon).
    exists out, log. split; [exact E|]. split.
    + apply (Hlast [ ("Darwin-AMD64", Homebrew.mkAssetInfo "https://h/a" (Some lower_hash) None) ]
                   "darwin-x64" (Homebrew.mkAssetInfo "https://h/b" (Some lower_hash) None) []).
      * reflexivity.
      * intros e He. inversion He.
    + apply (Hcanon ("Darwin-AMD64", Homebrew.mkAssetInfo "https://h/a" (Some lower_hash) None)).
      * left.
      * split; discriminate.
Defined.

Example processAssets_collision_one_entry :
  fst (Homebrew.processAssets
         [ ("darwin-amd64", Homebrew.mkAssetInfo "https://h/a" (Some lower_hash) None);
           ("darwin-x64", Homebrew.mkAssetInfo "https://h/b" (Some lower_hash) None) ]
         (world_of offline no_files []))
  = Returned [ ("darwin-x64", Homebrew.mkAssetInfo "https://h/b" (Some lower_hash) None) ]
  ∧ fst (Homebrew.processAssets
         [ ("darwin-x64", Homebrew.mkAssetInfo "https://h/b" (Some lower_hash) None);
           ("darwin-amd64", Homebrew.mkAssetInfo "https://h/a" (Some lower_hash) None) ]
         (world_of offline no_files []))
  = Returned [ ("darwin-x64", Homebrew.mkAssetInfo "https://h/a" (Some lower_hash) None) ].
Proof. split; vm_compute; reflexivity. Qed.

(** *** Which assets are fetched *)

Lemma truthy_spec s : JS.truthy s = true ↔ s ≠ "".
Proof. unfold JS.truthy. destruct (String.eqb_spec s ""); simpl; split; done. Qed.

Lemma needs_fetch_spec info :
  needs_fetch info = true
  ↔ (Homebrew.sha256 info = None ∨ Homebrew.sha256 info = Some "") ∧ Homebrew.url info ≠ "".
Proof.
  unfold needs_fetch, JS.falsy_opt. rewrite andb_true_iff, truthy_spec.
  destruct (Homebrew.sha256 info) as [h|]; [|split; intros [_ ?]; auto].
  rewrite negb_true_iff, <- not_true_iff_false, truthy_spec. split.
  - intros [Hh ?]. split; [right|done]. f_equal. by destruct (decide (h = "")).
  - intros [[?|[= ->]] ?]; [done|]. split; [|done]. by intros ?.
Qed.

Lemma asset_events_present w p info :
  needs_fetch info = false → asset_events w (p, info) = [].
Proof.
  unfold asset_events, Homebrew.processAssets_step, needs_fetch. by intros ->.
Qed.

Lemma asset_events_fetched w p info :
  needs_fetch info = true →
  asset_events w (p, info)
  = (EvLog Info ("Fetching SHA256 for " ++ normalized p ++ "...")
     :: snd (Homebrew.fetchSha256 (Homebrew.url info) w)
     ++ (if JS.falsy_opt (sidecar_of w (Homebrew.url info ++ ".sha256"))
         then [EvLog Warning ("Could not fetch SHA256 for " ++ normalized p
                              ++ ", formula may be incomplete")]
         else []))%list.
Proof.
  unfold asset_events, Homebrew.processAssets_step, needs_fetch. intros ->.
  pose proof (fetchSha256_result (Homebrew.url info) w) as Hres.
  destruct (Homebrew.fetchSha256 (Homebrew.url info) w) as [o t] eqn:E.
  simpl in Hres. subst o. io_unfold. simpl. rewrite E. simpl.
  destruct (JS.falsy_opt _); simpl; by rewrite ?app_nil_r.
Qed.

Lemma asset_events_fetch w p info t :
  EvFetch t ∈ asset_events w (p, info)
  ↔ needs_fetch info = true ∧ t = Homebrew.url info ++ ".sha256".
Proof.
  destruct (needs_fetch info) eqn:Hn.
  - rewrite (asset_events_fetched _ _ _ Hn), elem_of_cons, elem_of_app, fetchSha256_fetches.
    split; [|intros [_ ->]; auto].
    intros [?|[?|Hw]]; [done|done|]. destruct (JS.falsy_opt _); inversion Hw as [|? ? ? Hw']; inversion Hw'.
  - rewrite (asset_events_present _ _ _ Hn), elem_of_nil. split; [done|by intros [? _]].
Qed.

Lemma processAssets_fetches w raw t :
  EvFetch t ∈ List.concat (asset_events w <$> raw)
  ↔ ∃ e, e ∈ raw ∧ needs_fetch (snd e) = true ∧ t = Homebrew.url (snd e) ++ ".sha256".
Proof.
  rewrite list_elem_of_In, in_concat. split.
  - intros (l & Hl & Ht).
    apply list_elem_of_In, list_elem_of_fmap in Hl as ([p info] & -> & He).
    apply list_elem_of_In, asset_events_fetch in Ht as [Hn ->]. by exists (p, info).
  - intros ([p info] & He & Hn & ->). exists (asset_events w (p, info)). split.
    + apply list_elem_of_In, list_elem_of_fmap. by exists (p, info).
    + apply list_elem_of_In, asset_events_fetch. done.
Qed.

(** C10, as amended. For an input entry that no later entry overwrites
    (no later raw key normalises to the same key), the output entry under
    the normalised key keeps url and filename; a sha256 that is present
    and not empty is kept and the iteration does nothing else (no sidecar
    request); the sha256 differs from the input only for an asset whose
    sha256 is absent or empty and whose url is not empty; and the
    requests of the whole run are exactly the sidecars of such assets. *)
Theorem processAssets_frame (w : World) (raw pre post : Homebrew.Assets)
    (p : string) (info : Homebrew.AssetInfo) :
  raw = (pre ++ (p, info) :: post)%list →
  last_for_key p post →
  ∃ out log entry,
    Homebrew.processAssets raw w = (Returned out, log)
    ∧ JS.obj_get (normalized p) out = Some entry
    ∧ Homebrew.url entry = Homebrew.url info
    ∧ Homebrew.filename entry = Homebrew.filename info
    ∧ (∀ h, Homebrew.sha256 info = Some h → h ≠ "" →
            Homebrew.sha256 entry = Some h ∧ asset_events w (p, info) = [])
    ∧ (Homebrew.sha256 entry ≠ Homebrew.sha256 info →
         (Homebrew.sha256 info = None ∨ Homebrew.sha256 info = Some "")
         ∧ Homebrew.url info ≠ "")
    ∧ log = List.concat (asset_events w <$> raw)
    ∧ (∀ t, EvFetch t ∈ log ↔
            ∃ e, e ∈ raw
                 ∧ ((Homebrew.sha256 (snd e) = None ∨ Homebrew.sha256 (snd e) = Some "")
                    ∧ Homebrew.url (snd e) ≠ "")
                 ∧ t = Homebrew.url (snd e) ++ ".sha256").
Proof.
  intros -> Hlast. eexists _, _, (resolved w info).
  split; [apply processAssets_eq|].
  split; [by apply fold_put_last|].
  split; [done|]. split; [done|]. split; [|split; [|split; [done|]]].
  - intros h Hh Hne.
    assert (needs_fetch info = false) as Hn.
    { apply not_true_iff_false. rewrite needs_fetch_spec, Hh.
      intros [[?|?] _]; by simplify_eq. }
    split; [|by apply asset_events_present].
    unfold resolved. simpl. by rewrite Hn.
  - unfold resolved. simpl. destruct (needs_fetch info) eqn:Hn; [|done].
    intros _. by apply needs_fetch_spec.
  - intros t. rewrite processAssets_fetches.
    split; intros (e & He & Hn & ->); exists e; (split; [done|split; [|done]]);
      by apply needs_fetch_spec.
Qed.

(** The theorem at a two-asset map: the first asset carries its sha256,
    the second has none and its sidecar is out of reach. *)
Lemma processAssets_frame_witness :
  ∃ out log entry,
    Homebrew.processAssets
      [ ("Linux-AMD64", Homebrew.mkAssetInfo "https://h/l" (Some lower_hash) (Some "l.tgz"));
        ("darwin-arm64", Homebrew.mkAssetInfo "https://h/d" None None) ]
      (world_of offline no_files []) = (Returned out, log)
    ∧ JS.obj_get "linux-x64" out = Some entry
    ∧ Homebrew.url entry = "https://h/l"
    ∧ Homebrew.filename entry = Some "l.tgz"
    ∧ Homebrew.sha256 entry = Some lower_hash.
Proof.
  destruct (processAssets_frame (world_of offline no_files [])
    [ ("Linux-AMD64", Homebrew.mkAssetInfo "https://h/l" (Some lower_hash) (Some "l.tgz"));
      ("darwin-arm64", Homebrew.mkAssetInfo "https://h/d" None None) ]
    [] [ ("darwin-arm64", Homebrew.mkAssetInfo "https://h/d" None None) ]
    "Linux-AMD64" (Homebrew.mkAssetInfo "https://h/l" (Some lower_hash) (Some "l.tgz")))
    as (out & log & entry & E & Hget & Hurl & Hfile & Hsha & _).
  - reflexivity.
  - intros e He. inversion He as [|? ? ? He']; subst; [vm_compute; discriminate|inversion He'].
  - exists out, log, entry. split; [exact E|]. split; [exact Hget|].
    split; [exact Hurl|]. split; [exact Hfile|].
    apply (Hsha lower_hash); [reflexivity|discriminate].
Defined.

(** C10, as stated, fails in two ways.  A raw entry that a later spelling
    of the same platform overwrites does not keep its url in the output;
    and a sha256 that is present but empty is treated as missing: the
    sidecar is requested and its hash replaces the input value. *)
Lemma processAssets_frame_counterexample :
  (∃ entry,
     fst (Homebrew.processAssets
            [ ("darwin-amd64", Homebrew.mkAssetInfo "https://h/a" (Some lower_hash) None);
              ("darwin-x64", Homebrew.mkAssetInfo "https://h/b" (Some lower_hash) None) ]
            (world_of offline no_files []))
     = Returned [ (normalized "darwin-amd64", entry) ]
     ∧ Homebrew.url entry ≠ "https://h/a")
  ∧ Homebrew.processAssets
      [ ("linux-x64", Homebrew.mkAssetInfo "https://h/c" (Some "") None) ]
      (world_of (λ _, inr (body lower_hash)) no_files [])
    = (Returned [ ("linux-x64", Homebrew.mkAssetInfo "https://h/c" (Some lower_hash) None) ],
       [ EvLog Info "Fetching SHA256 for linux-x64...";
         EvLog Debug "Fetching SHA256 from https://h/c.sha256";
         EvFetch "https://h/c.sha256";
         EvLog Debug ("Found SHA256: " ++ lower_hash) ]).
Proof.
  split.
  - exists (Homebrew.mkAssetInfo "https://h/b" (Some lower_hash) None).
    split; [vm_compute; reflexivity|discriminate].
  - vm_compute. reflexivity.
Qed.

(** *** Isolation in [processAssets] *)



(** ** C1, C2: compute-checksums *)

Lemma fetchSha256FromUrl_eq url w :
  Checksums.fetchSha256FromUrl url w
  = (Returned (sidecar_of w (url ++ ".sha256")),
     [ EvLog Debug ("Fetching SHA256 from " ++ url ++ ".sha256"); EvFetch (url ++ ".sha256") ]).
Proof.
  unfold Checksums.fetchSha256FromUrl, sidecar_of. io_unfold. simpl.
  destruct (net_fetch w _) as [e|r]; simpl; [done|].
  destruct (resp_ok r); simpl; [|done].
  by destruct (resp_text r) as [e|content].
Qed.

Lemma readSha256File_eq filepath w :
  Checksums.readSha256File filepath w
  = (Returned (match fs_readFile w (filepath ++ ".sha256") with
               | inr content => sidecar_hash content
               | inl _ => None
               end),
     [ EvReadFile (filepath ++ ".sha256") ]).
Proof.
  unfold Checksums.readSha256File. io_unfold. simpl.
  by destruct (fs_readFile w _).
Qed.






(** *** Sidecar content *)

Lemma hex_digit_class c :
  c ∈ hex_digits → JS.is_hex c = true ∧ JS.is_white c = false.
Proof.
  unfold hex_digits. simpl. intros H.
  repeat (apply elem_of_cons in H as [->|H]; [by vm_compute|]).
  by apply elem_of_nil in H.
Qed.

Lemma trimEnd_keep c r :
  JS.is_white c = false → JS.trimEnd (String c r) = String c (JS.trimEnd r).
Proof. simpl. intros ->. by destruct (JS.trimEnd r). Qed.

Lemma trimEnd_hex h rest :
  all_hex h → JS.trimEnd (h ++ rest) = h ++ JS.trimEnd rest.
Proof.
  unfold all_hex. induction h as [|c h IH]; simpl list_ascii_of_string; intros Hh; [done|].
  apply Forall_cons in Hh as [Hc Hh]. change (String c h ++ rest) with (String c (h ++ rest)).
  rewrite trimEnd_keep by by apply hex_digit_class. by rewrite IH.
Qed.

Lemma trim_hex h rest :
  all_hex h → h ≠ "" → JS.trim (h ++ rest) = h ++ JS.trimEnd rest.
Proof.
  intros Hh Hne. unfold JS.trim. destruct h as [|c h]; [done|].
  assert (JS.is_white c = false) as Hc.
  { apply hex_digit_class. by apply Forall_cons in Hh as [? _]. }
  change (JS.trimStart (String c h ++ rest)) with
    (if JS.is_white c then JS.trimStart (h ++ rest) else String c h ++ rest).
  rewrite Hc. by apply trimEnd_hex.
Qed.

Lemma take_hex h rest :
  all_hex h → JS.take_while_n JS.is_hex (String.length h) (h ++ rest) = Some h.
Proof.
  unfold all_hex. induction h as [|c h IH]; simpl; intros Hh; [done|].
  apply Forall_cons in Hh as [Hc Hh].
  apply hex_digit_class in Hc as [-> _]. by rewrite IH.
Qed.

Lemma sidecar_hash_hex h rest :
  String.length h = 64 → all_hex h →
  sidecar_hash (h ++ rest) = Some (JS.toLowerCase h).
Proof.
  intros Hlen Hh. unfold sidecar_hash, JS.match_sha256.
  rewrite trim_hex; [|done|by intros ->].
  by rewrite <- Hlen, take_hex.
Qed.

Lemma toLowerCase_length s : String.length (JS.toLowerCase s) = String.length s.
Proof. induction s; simpl; congruence. Qed.

Lemma usable_hash h :
  String.length h = 64 → Checksums.usable (Some (JS.toLowerCase h)) = Some (JS.toLowerCase h).
Proof.
  intros Hlen. unfold Checksums.usable.
  destruct (JS.truthy _) eqn:Ht; [done|].
  apply not_true_iff_false in Ht. rewrite truthy_spec in Ht.
  destruct (decide (JS.toLowerCase h = "")) as [E|E]; [|done].
  pose proof (toLowerCase_length h) as Hl. rewrite E, Hlen in Hl. done.
Qed.

(** Lower-casing leaves a hash written with the digits 0-9 and a-f alone. *)
Lemma toLowerCase_lower_hex h :
  Forall (λ c, c ∈ list_ascii_of_string "0123456789abcdef") (list_ascii_of_string h) →
  JS.toLowerCase h = h.
Proof.
  induction h as [|c h IH]; simpl; intros Hh; [done|].
  apply Forall_cons in Hh as [Hc Hh]. rewrite IH by done. f_equal.
  repeat (apply elem_of_cons in Hc as [->|Hc]; [by vm_compute|]).
  by apply elem_of_nil in Hc.
Qed.

(** C2, as amended.  With sidecar reading enabled, a reference whose
    sidecar begins with 64 hexadecimal characters, whatever follows them,
    resolves to those characters lower-cased (so unchanged when written in
    lower case), and the iteration does nothing but read the sidecar and
    log: no stream is opened, nothing is downloaded, no digest is
    computed.  This holds for a local file that is not itself named
    [*.sha256], also as a one-file batch, and for a URL whose sidecar is
    answered 2xx.  The hash is assigned to the result object under the
    base name: the object then holds it under that name, unless the name
    is "__proto__", for which the assignment stores nothing. *)
Theorem sidecar_hash_trusted (w : World) (alg : HashAlgorithm) (h rest : string) :
  String.length h = 64 → all_hex h →
  (∀ filepath result,
     JS.endsWith filepath ".sha256" = false →
     fs_readFile w (filepath ++ ".sha256") = inr (h ++ rest) →
     Checksums.processFiles_step alg true result filepath w
     = (Returned (JS.obj_set (JS.basename filepath) (JS.toLowerCase h) result),
        [ EvReadFile (filepath ++ ".sha256");
          EvLog Info ("Read existing checksum for " ++ JS.basename filepath) ]))
  ∧ (∀ patterns filepath,
       glob_files w patterns = inr [ filepath ] →
       JS.endsWith filepath ".sha256" = false →
       fs_readFile w (filepath ++ ".sha256") = inr (h ++ rest) →
       Checksums.processFiles patterns alg true w
       = (Returned (JS.obj_set (JS.basename filepath) (JS.toLowerCase h) []),
          [ EvGlob patterns;
            EvReadFile (filepath ++ ".sha256");
            EvLog Info ("Read existing checksum for " ++ JS.basename filepath) ])
       ∧ (JS.basename filepath ≠ "__proto__" →
          JS.obj_set (JS.basename filepath) (JS.toLowerCase h) []
          = [ (JS.basename filepath, JS.toLowerCase h) ])
       ∧ (JS.basename filepath = "__proto__" →
          JS.obj_set (JS.basename filepath) (JS.toLowerCase h) [] = []))
  ∧ (∀ url pathname result r,
       url_pathname w url = inr pathname →
       net_fetch w (url ++ ".sha256") = inr r →
       resp_ok r = true →
       resp_text r = inr (h ++ rest) →
       Checksums.processUrls_step alg true result url w
       = (Returned (JS.obj_set (JS.basename pathname) (JS.toLowerCase h) result),
          [ EvLog Debug ("Fetching SHA256 from " ++ url ++ ".sha256");
            EvFetch (url ++ ".sha256");
            EvLog Info ("Fetched existing checksum for " ++ JS.basename pathname) ]))
  ∧ (Forall (λ c, c ∈ list_ascii_of_string "0123456789abcdef") (list_ascii_of_string h) →
     JS.toLowerCase h = h)
  ∧ (∀ key (result : Checksums.ChecksumResult),
       (key ≠ "__proto__" →
        JS.obj_get key (JS.obj_set key (JS.toLowerCase h) result) = Some (JS.toLowerCase h))
       ∧ (key = "__proto__" → JS.obj_set key (JS.toLowerCase h) result = result)).
Proof.
  intros Hlen Hh.
  assert (Hfile : ∀ filepath result,
     JS.endsWith filepath ".sha256" = false →
     fs_readFile w (filepath ++ ".sha256") = inr (h ++ rest) →
     Checksums.processFiles_step alg true result filepath w
     = (Returned (JS.obj_set (JS.basename filepath) (JS.toLowerCase h) result),
        [ EvReadFile (filepath ++ ".sha256");
          EvLog Info ("Read existing checksum for " ++ JS.basename filepath) ])).
  { intros filepath result Hend Hread. unfold Checksums.processFiles_step. rewrite Hend.
    rewrite (io_bind_returned _ _ _ _ _ (readSha256File_eq filepath w)).
    rewrite Hread, (sidecar_hash_hex _ _ Hlen Hh), (usable_hash _ Hlen). done. }
  split; [exact Hfile|].
  split; [|split; [|split; [apply toLowerCase_lower_hex|]]].
  3: { intros key result. split; [apply obj_get_set_eq|by intros ->]. }
  - intros patterns filepath Hglob Hend Hread. split; [|split].
    + unfold Checksums.processFiles.
      rewrite (io_bind_returned _ _ _ [filepath] [EvGlob patterns]);
        [|io_unfold; by rewrite Hglob].
      cbn [for_of fst snd].
      rewrite (io_bind_returned _ _ _ _ _ (Hfile filepath [] Hend Hread)). done.
    + intros Hkey. by rewrite obj_set_define.
    + by intros ->.
  - intros url pathname result r Hpath Hnet Hok Htext.
    unfold Checksums.processUrls_step, Checksums.new_URL_pathname.
    rewrite (io_bind_returned _ _ _ pathname []); [|io_unfold; by rewrite Hpath].
    simpl. rewrite (io_bind_returned _ _ _ _ _ (fetchSha256FromUrl_eq url w)).
    unfold sidecar_of. rewrite Hnet, Hok, Htext.
    rewrite (sidecar_hash_hex _ _ Hlen Hh), (usable_hash _ Hlen). done.
Qed.

(** The theorem on the line that a checksum tool writes next to
    [dist/myapp.tar.gz]. *)
Lemma sidecar_hash_trusted_witness :
  Checksums.processFiles "dist/*" alg_sha256 true
    (dist_with (sidecar_line lower_hash "myapp.tar.gz"))
  = (Returned [ ("myapp.tar.gz", lower_hash) ],
     [ EvGlob "dist/*";
       EvReadFile "dist/myapp.tar.gz.sha256";
       EvLog Info "Read existing checksum for myapp.tar.gz" ]).
Proof.
  destruct (sidecar_hash_trusted (dist_with (sidecar_line lower_hash "myapp.tar.gz"))
              alg_sha256 lower_hash ("  myapp.tar.gz" ++ JS.nl)) as (_ & Hbatch & _ & _).
  - reflexivity.
  - unfold all_hex. apply (bool_decide_unpack _). vm_compute. reflexivity.
  - apply (Hbatch "dist/*" "dist/myapp.tar.gz"); reflexivity.
Defined.

(** C2, as stated, fails in three ways.  A sidecar written in upper case
    is answered in lower case, not unchanged.  With sidecar reading
    switched off the content is read and digested although the sidecar is
    there.  And a file that is itself named [*.sha256] is skipped, sidecar
    or not. *)
Lemma sidecar_hash_trusted_counterexample :
  (fst (Checksums.processFiles "dist/*" alg_sha256 true
          (dist_with (sidecar_line upper_hash "myapp.tar.gz")))
   = Returned [ ("myapp.tar.gz", lower_hash) ]
   ∧ lower_hash ≠ upper_hash)
  ∧ Checksums.processFiles "dist/*" alg_sha256 false
      (dist_with (sidecar_line lower_hash "myapp.tar.gz"))
    = (Returned [ ("myapp.tar.gz", "digest") ],
       [ EvGlob "dist/*";
         EvLog Info "Computing sha256 for myapp.tar.gz...";
         EvReadStream "dist/myapp.tar.gz";
         EvDigest alg_sha256 [] ])
  ∧ Checksums.processFiles "dist/*" alg_sha256 true dist_sidecar_only
    = (Returned [], [ EvGlob "dist/*" ]).
Proof.
  split; [split; [vm_compute; reflexivity|discriminate]|].
  split; vm_compute; reflexivity.
Qed.

(** ** C5, C6: the two context builders *)

Lemma getFileSize_eq filepath w :
  ReleaseNotes.getFileSize filepath w
  = (Returned (match fs_stat_size w filepath with inr n => Some n | inl _ => None end),
     [ EvStat filepath ]).
Proof.
  unfold ReleaseNotes.getFileSize. io_unfold. simpl.
  by destruct (fs_stat_size w _).
Qed.

Lemma readSha256_eq assetPath w :
  ReleaseNotes.readSha256 assetPath w
  = (Returned (match fs_readFile w (assetPath ++ ".sha256") with
               | inr content => sidecar_hash content
               | inl _ => None
               end),
     [ EvReadFile (assetPath ++ ".sha256") ]).
Proof.
  unfold ReleaseNotes.readSha256. io_unfold. simpl.
  by destruct (fs_readFile w _).
Qed.

Lemma discoverAssets_step_eq w projectName acc filepath :
  ReleaseNotes.discoverAssets_step projectName acc filepath w
  = (Returned (acc ++ discovered_asset w projectName filepath)%list,
     discovery_events w projectName filepath).
Proof.
  unfold discovery_events, discovered_asset, ReleaseNotes.discoverAssets_step.
  destruct (JS.endsWith filepath ".sha256"); [by rewrite app_nil_r|].
  destruct (ReleaseNotes.detectPlatform _ _) as [platform|]; [|by rewrite app_nil_r].
  rewrite !(io_bind_returned _ _ _ _ _ (getFileSize_eq filepath w)).
  rewrite !(io_bind_returned _ _ _ _ _ (readSha256_eq filepath w)). done.
Qed.

Lemma fold_left_app_concat {A B} (f : A → list B) l acc :
  fold_left (λ acc x, acc ++ f x)%list l acc = (acc ++ List.concat (f <$> l))%list.
Proof.
  revert acc. induction l as [|x l IH]; intros acc; simpl; [by rewrite app_nil_r|].
  by rewrite IH, app_assoc.
Qed.

(** Once the glob has answered, discovery returns the discovered assets,
    sorted: no iteration can throw. *)
Lemma discoverAssets_eq w assetsDir projectName files :
  glob_files w (asset_patterns assetsDir) = inr files →
  ReleaseNotes.discoverAssets assetsDir projectName w
  = (Returned (JS.sort ReleaseNotes.compareAssets (discovered w projectName files)),
     (EvGlob (asset_patterns assetsDir)
      :: List.concat (discovery_events w projectName <$> files) ++ [])%list).
Proof.
  intros Hglob. unfold ReleaseNotes.discoverAssets. fold (asset_patterns assetsDir).
  rewrite (io_bind_returned _ _ _ files [EvGlob (asset_patterns assetsDir)]);
    [|io_unfold; by rewrite Hglob].
  simpl.
  rewrite (io_bind_returned _ _ _ _ _
             (for_of_pure _ (λ acc f, acc ++ discovered_asset w projectName f)%list
                (discovery_events w projectName) w files []
                (λ s x, discoverAssets_step_eq w projectName s x))).
  rewrite fold_left_app_concat. done.
Qed.

(** C5, as amended.  [strip_v] removes one leading "v" and nothing else.
    The release-notes builder, which returns as soon as the glob has
    answered, exposes the version as given next to the stripped one.  The
    formula builder puts the stripped string in both [version] and
    [versionClean]: the version as given is not in its context. *)
Theorem buildContext_version_fields :
  (∀ r, JS.strip_v ("v" ++ r) = r)
  ∧ (∀ s, JS.startsWith s "v" = false → JS.strip_v s = s)
  ∧ (∀ (w : World) version assetsDir projectName projectDescription repository
       isPrerelease buildStatus workflowRunId files,
       glob_files w (asset_patterns assetsDir) = inr files →
       ∃ ctx log,
         ReleaseNotes.buildContext version assetsDir projectName projectDescription
           repository isPrerelease buildStatus workflowRunId w = (Returned ctx, log)
         ∧ ReleaseNotes.version ctx = version
         ∧ ReleaseNotes.versionClean ctx = JS.strip_v version)
  ∧ (∀ name version assets description homepage license binaryName privateRepo,
       let ctx := Homebrew.buildContext name version assets description homepage
                    license binaryName privateRepo in
       Homebrew.version ctx = JS.strip_v version
       ∧ Homebrew.versionClean ctx = JS.strip_v version).
Proof.
  split; [done|]. split.
  { intros [|c s]; [done|].
    destruct c as [[] [] [] [] [] [] [] []]; simpl; try done.
    by destruct s. }
  split.
  - intros w version assetsDir projectName projectDescription repository
      isPrerelease buildStatus workflowRunId files Hglob.
    unfold ReleaseNotes.buildContext.
    rewrite (io_bind_returned _ _ _ _ _ (discoverAssets_eq w assetsDir projectName files Hglob)).
    rewrite (io_bind_returned new_Date _ _ (clock_now w) []) by done.
    simpl. eexists _, _. split; [reflexivity|]. done.
  - intros. unfold ctx, Homebrew.buildContext.
    by destruct (fold_left _ _ _).
Qed.

(** The theorem at "v1.2.3" and at "1.2.3", in an empty assets directory. *)
Lemma buildContext_version_fields_witness :
  JS.strip_v "1.2.3" = "1.2.3"
  ∧ ∃ ctx log,
      ReleaseNotes.buildContext "v1.2.3" "release-assets" "myapp" "" "o/myapp" false [] ""
        (world_of offline no_files []) = (Returned ctx, log)
      ∧ ReleaseNotes.version ctx = "v1.2.3"
      ∧ ReleaseNotes.versionClean ctx = "1.2.3".
Proof.
  destruct buildContext_version_fields as (_ & Hkeep & Hrelease & _). split.
  - apply Hkeep. reflexivity.
  - apply (Hrelease (world_of offline no_files []) "v1.2.3" "release-assets" "myapp" ""
                    "o/myapp" false [] "" []).
    reflexivity.
Defined.

(** C5, as stated, fails for the formula context: built from "v1.2.3",
    its [version] field is "1.2.3"; the original string is in no field. *)
Lemma buildContext_version_fields_counterexample :
  Homebrew.version
    (Homebrew.buildContext "myapp" "v1.2.3" [] "myapp binary" "" "MIT" "myapp" false)
  = "1.2.3"
  ∧ Homebrew.version
      (Homebrew.buildContext "myapp" "v1.2.3" [] "myapp binary" "" "MIT" "myapp" false)
    ≠ "v1.2.3".
Proof. split; [reflexivity|discriminate]. Qed.

(** C6. In every formula context the amd64 fields are the x64 fields:
    both are read from the same key of the assets mapping, "darwin-x64"
    and "linux-x64", and from nothing else; this holds in particular for
    the context built from processed assets. *)
Theorem buildContext_amd64_mirrors_x64 :
  (∀ name version assets description homepage license binaryName privateRepo,
     let ctx := Homebrew.buildContext name version assets description homepage
                  license binaryName privateRepo in
     Homebrew.darwinAmd64 ctx = Homebrew.darwinX64 ctx
     ∧ Homebrew.linuxAmd64 ctx = Homebrew.linuxX64 ctx
     ∧ Homebrew.darwinAmd64 ctx = JS.obj_get "darwin-x64" assets
     ∧ Homebrew.linuxAmd64 ctx = JS.obj_get "linux-x64" assets)
  ∧ (∀ (w : World) raw name version description homepage license binaryName privateRepo,
       ∃ processed log,
         Homebrew.processAssets raw w = (Returned processed, log)
         ∧ let ctx := Homebrew.buildContext name version processed description homepage
                        license binaryName privateRepo in
           Homebrew.darwinAmd64 ctx = Homebrew.darwinX64 ctx
           ∧ Homebrew.linuxAmd64 ctx = Homebrew.linuxX64 ctx).
Proof.
  assert (Hall : ∀ name version assets description homepage license binaryName privateRepo,
     let ctx := Homebrew.buildContext name version assets description homepage
                  license binaryName privateRepo in
     Homebrew.darwinAmd64 ctx = Homebrew.darwinX64 ctx
     ∧ Homebrew.linuxAmd64 ctx = Homebrew.linuxX64 ctx
     ∧ Homebrew.darwinAmd64 ctx = JS.obj_get "darwin-x64" assets
     ∧ Homebrew.linuxAmd64 ctx = JS.obj_get "linux-x64" assets).
  { intros. unfold ctx, Homebrew.buildContext. by destruct (fold_left _ _ _). }
  split; [exact Hall|].
  intros w raw name version description homepage license binaryName privateRepo.
  eexists _, _. split; [apply processAssets_eq|].
  intros ctx. destruct (Hall name version (fold_left (put_asset w) raw []) description
                          homepage license binaryName privateRepo) as (H1 & H2 & _).
  by split.
Qed.

Example buildContext_amd64_from_alias :
  let ctx := Homebrew.buildContext "myapp" "v1.0.0"
               [ ("darwin-x64", Homebrew.mkAssetInfo "https://h/b" (Some lower_hash) None) ]
               "" "" "MIT" "" false in
  Homebrew.darwinAmd64 ctx = Some (Homebrew.mkAssetInfo "https://h/b" (Some lower_hash) None)
  ∧ Homebrew.darwinX64 ctx = Homebrew.darwinAmd64 ctx
  ∧ Homebrew.linuxAmd64 ctx = None
  ∧ Homebrew.binaryName ctx = "myapp".
Proof. vm_compute. done. Qed.

(** ** C9: the display order *)

Lemma filter_all {A} (P : A → Prop) `{∀ x, Decision (P x)} l :
  Forall P l → filter P l = l.
Proof.
  induction 1 as [|x l Hx Hl IH]; [done|]. by rewrite filter_cons_True, IH.
Qed.

Lemma filter_none {A} (P : A → Prop) `{∀ x, Decision (P x)} l :
  Forall (λ x, ¬ P x) l → filter P l = [].
Proof.
  induction 1 as [|x l Hx Hl IH]; [done|]. by rewrite filter_cons_False, IH.
Qed.

Section stable_sort.
Context {A : Type} (key : A → Z) (cmp : A → A → Z).
Hypothesis cmp_key : ∀ a b, cmp a b = (key a - key b)%Z.

Local Abbreviation le := (λ a b, (key a ≤ key b)%Z).

Lemma sort_insert_perm x l : JS.sort_insert cmp x l ≡ₚ x :: l.
Proof.
  induction l as [|y l IH]; simpl; [done|].
  destruct (cmp x y <=? 0)%Z; [done|]. rewrite IH. apply Permutation_swap.
Qed.

Lemma sort_perm l : JS.sort cmp l ≡ₚ l.
Proof.
  unfold JS.sort. induction l as [|x l IH]; simpl; [done|].
  by rewrite sort_insert_perm, IH.
Qed.

Lemma sort_insert_sorted x l :
  StronglySorted le l → StronglySorted le (JS.sort_insert cmp x l).
Proof.
  induction 1 as [|y l Hl IH Hy]; simpl.
  - repeat constructor.
  - destruct (Z.leb_spec (cmp x y) 0) as [Hle|Hgt]; rewrite cmp_key in *.
    + constructor; [by constructor|].
      constructor; [lia|]. eapply Forall_impl; [exact Hy|]. simpl. intros. lia.
    + constructor; [exact IH|].
      rewrite sort_insert_perm. constructor; [lia|exact Hy].
Qed.

Lemma sort_sorted l : StronglySorted le (JS.sort cmp l).
Proof.
  unfold JS.sort. induction l as [|x l IH]; simpl; [constructor|].
  by apply sort_insert_sorted.
Qed.

(** Among the elements of one key nothing moves. *)
Lemma sort_insert_filter k x l :
  filter (λ a, key a = k) (JS.sort_insert cmp x l) = filter (λ a, key a = k) (x :: l).
Proof.
  induction l as [|y l IH]; simpl; [done|].
  destruct (Z.leb_spec (cmp x y) 0) as [Hle|Hgt]; [done|]. rewrite cmp_key in Hgt.
  rewrite (filter_cons _ y (JS.sort_insert _ _ _)), IH, !filter_cons.
  repeat case_decide; try done. lia.
Qed.

Lemma sort_stable k l :
  filter (λ a, key a = k) (JS.sort cmp l) = filter (λ a, key a = k) l.
Proof.
  unfold JS.sort. induction l as [|x l IH]; simpl; [done|].
  rewrite sort_insert_filter, !filter_cons. by rewrite IH.
Qed.

(** A sorted list is its part below [k] followed by its part from [k] on. *)
Lemma sorted_split k l :
  StronglySorted le l →
  l = (filter (λ a, (key a < k)%Z) l ++ filter (λ a, ¬ (key a < k)%Z) l)%list.
Proof.
  induction 1 as [|y l Hl IH Hy]; [done|].
  rewrite !filter_cons. case_decide as Hk; case_decide as Hk'; try done.
  - simpl. by rewrite <- IH.
  - rewrite (filter_none (λ a, (key a < k)%Z) l), (filter_all (λ a, ¬ (key a < k)%Z) l);
      [done| |]; (eapply Forall_impl; [exact Hy|]); simpl; intros; lia.
Qed.

(** Sortedness and stability determine the arrangement: whatever stable
    sorting algorithm an engine runs, it returns the list of [JS.sort]. *)
Lemma stable_sorted_unique l1 l2 :
  StronglySorted le l1 → StronglySorted le l2 →
  (∀ k, filter (λ a, key a = k) l1 = filter (λ a, key a = k) l2) →
  l1 = l2.
Proof.
  revert l2. induction l1 as [|x l1 IH]; intros [|y l2] H1 H2 Hf; [done| | |].
  - specialize (Hf (key y)). by rewrite filter_cons_True in Hf.
  - specialize (Hf (key x)). by rewrite filter_cons_True in Hf.
  - apply StronglySorted_inv in H1 as [H1 Hx]. apply StronglySorted_inv in H2 as [H2 Hy].
    assert (key x = key y) as Hk.
    { assert (y ∈ x :: l1) as Hyin.
      { pose proof (Hf (key y)) as Hfy. rewrite (filter_cons_True _ y) in Hfy by done.
        assert (y ∈ filter (λ a, key a = key y) (x :: l1)) as Hin by (rewrite Hfy; left).
        by apply list_elem_of_filter in Hin as [_ ?]. }
      assert (x ∈ y :: l2) as Hxin.
      { pose proof (Hf (key x)) as Hfx. rewrite (filter_cons_True _ x) in Hfx by done.
        assert (x ∈ filter (λ a, key a = key x) (y :: l2)) as Hin by (rewrite <- Hfx; left).
        by apply list_elem_of_filter in Hin as [_ ?]. }
      rewrite Forall_forall in Hx, Hy.
      apply elem_of_cons in Hyin as [->|Hyin]; [done|].
      apply elem_of_cons in Hxin as [->|Hxin]; [done|].
      specialize (Hx _ Hyin). specialize (Hy _ Hxin). simpl in *. lia. }
    pose proof (Hf (key x)) as Hhead.
    rewrite (filter_cons_True _ x), (filter_cons_True _ y) in Hhead by done.
    injection Hhead as <- _. f_equal. apply IH; [done|done|].
    intros k. specialize (Hf k). rewrite !filter_cons in Hf.
    case_decide; [by injection Hf|done].
Qed.

Lemma sort_unique l l' :
  StronglySorted le l' →
  (∀ k, filter (λ a, key a = k) l' = filter (λ a, key a = k) l) →
  l' = JS.sort cmp l.
Proof.
  intros Hs Hf. apply stable_sorted_unique; [done|apply sort_sorted|].
  intros k. by rewrite Hf, sort_stable.
Qed.

End stable_sort.

Lemma orderIndex_listed a i :
  ReleaseNotes.platformOrder !! i = Some (ReleaseNotes.id (ReleaseNotes.platform a)) →
  ReleaseNotes.orderIndex a = Z.of_nat i.
Proof.
  unfold ReleaseNotes.orderIndex. intros H.
  do 6 (destruct i as [|i]; [injection H as <-; by vm_compute|]). done.
Qed.

Lemma indexOf_absent l x : x ∉ l → JS.indexOf l x = (-1)%Z.
Proof.
  induction l as [|y l IH]; [done|]. intros [Hy Hl]%not_elem_of_cons.
  cbn [JS.indexOf]. destruct (String.eqb_spec y x) as [->|_]; [done|].
  by rewrite IH.
Qed.

Lemma orderIndex_unlisted a :
  ¬ listed a → ReleaseNotes.orderIndex a = 999%Z.
Proof.
  unfold listed, ReleaseNotes.orderIndex. intros Hn. by rewrite indexOf_absent.
Qed.

Lemma listed_iff a : listed a ↔ (ReleaseNotes.orderIndex a < 999)%Z.
Proof.
  split.
  - intros (i & Hi)%list_elem_of_lookup. rewrite (orderIndex_listed _ _ Hi).
    apply lookup_lt_Some in Hi. simpl in Hi. lia.
  - intros Hlt. destruct (decide (listed a)) as [|Hn]; [done|].
    rewrite (orderIndex_unlisted _ Hn) in Hlt. lia.
Qed.

Lemma unlisted_iff a : ¬ listed a ↔ ReleaseNotes.orderIndex a = 999%Z.
Proof.
  split; [apply orderIndex_unlisted|]. rewrite listed_iff. lia.
Qed.

(** C9. Once the glob has answered, [discoverAssets] returns the
    discovered assets rearranged so that display indices never decrease,
    the index of an asset being the position of its platform id in
    linux-amd64, linux-amd64-musl, linux-aarch64, darwin-arm64,
    darwin-amd64, windows-amd64 and 999 for any other id.  Hence the
    result is its listed assets (those of the six ids) followed by the
    unlisted ones, and the unlisted ones, like the assets of any one
    platform, stand in discovery order. *)
Theorem discoverAssets_display_order (w : World) (assetsDir projectName : string)
    (files : list string) :
  let order := [ "linux-amd64"; "linux-amd64-musl"; "linux-aarch64";
                 "darwin-arm64"; "darwin-amd64"; "windows-amd64" ] in
  glob_files w (asset_patterns assetsDir) = inr files →
  ∃ assets log,
    ReleaseNotes.discoverAssets assetsDir projectName w = (Returned assets, log)
    ∧ assets ≡ₚ discovered w projectName files
    ∧ StronglySorted display_le assets
    ∧ (∀ a i, order !! i = Some (ReleaseNotes.id (ReleaseNotes.platform a)) →
              ReleaseNotes.orderIndex a = Z.of_nat i)
    ∧ (∀ a, ReleaseNotes.id (ReleaseNotes.platform a) ∉ order →
            ReleaseNotes.orderIndex a = 999%Z)
    ∧ (∀ a, listed a ↔ ReleaseNotes.id (ReleaseNotes.platform a) ∈ order)
    ∧ assets = (filter listed assets
                ++ filter (λ a, ¬ listed a) (discovered w projectName files))%list
    ∧ (∀ k, filter (λ a, ReleaseNotes.orderIndex a = k) assets
            = filter (λ a, ReleaseNotes.orderIndex a = k) (discovered w projectName files)).
Proof.
  intros order Hglob. eexists _, _.
  split; [by apply discoverAssets_eq|].
  set (found := discovered w projectName files).
  set (assets := JS.sort ReleaseNotes.compareAssets found).
  assert (Hcmp : ∀ a b, ReleaseNotes.compareAssets a b
                        = (ReleaseNotes.orderIndex a - ReleaseNotes.orderIndex b)%Z) by done.
  assert (Hsorted : StronglySorted display_le assets)
    by apply (sort_sorted _ _ Hcmp).
  assert (Hstable : ∀ k, filter (λ a, ReleaseNotes.orderIndex a = k) assets
                         = filter (λ a, ReleaseNotes.orderIndex a = k) found)
    by (intros k; apply (sort_stable _ _ Hcmp)).
  split; [apply (sort_perm ReleaseNotes.compareAssets)|].
  split; [exact Hsorted|]. split; [exact orderIndex_listed|].
  split; [exact orderIndex_unlisted|]. split; [done|]. split; [|exact Hstable].
  rewrite (sorted_split ReleaseNotes.orderIndex 999 assets Hsorted) at 1. f_equal.
  - apply list_filter_iff. intros a. by rewrite listed_iff.
  - rewrite (list_filter_iff _ (λ a, ReleaseNotes.orderIndex a = 999%Z) assets),
      (list_filter_iff (λ a, ¬ listed a) (λ a, ReleaseNotes.orderIndex a = 999%Z) found).
    + apply Hstable.
    + apply unlisted_iff.
    + intros a. rewrite <- unlisted_iff, listed_iff. done.
Qed.

(** The theorem in a release directory of five archives: the result is
    sorted, the unlisted archives stand last in discovery order, and an
    archive for darwin-arm64 has display index 3, one for linux-amd64
    display index 0. *)
Lemma discoverAssets_display_order_witness :
  ∃ assets log,
    ReleaseNotes.discoverAssets "r" "app" release_dir = (Returned assets, log)
    ∧ StronglySorted display_le assets
    ∧ assets = (filter listed assets
                ++ filter (λ a, ¬ listed a)
                     (discovered release_dir "app"
                        [ "r/app-windows-aarch64.zip"; "r/app-darwin-arm64.tar.gz";
                          "r/notes.tar.gz"; "r/app-linux-arm64.tar.gz";
                          "r/app-linux-amd64.tar.gz" ]))%list
    ∧ (∀ a, ReleaseNotes.id (ReleaseNotes.platform a) = "darwin-arm64" →
            ReleaseNotes.orderIndex a = 3%Z)
    ∧ (∀ a, ReleaseNotes.id (ReleaseNotes.platform a) = "linux-amd64" →
            ReleaseNotes.orderIndex a = 0%Z).
Proof.
  destruct (discoverAssets_display_order release_dir "r" "app"
              [ "r/app-windows-aarch64.zip"; "r/app-darwin-arm64.tar.gz"; "r/notes.tar.gz";
                "r/app-linux-arm64.tar.gz"; "r/app-linux-amd64.tar.gz" ])
    as (assets & log & E & _ & Hsorted & Hindex & _ & _ & Hsplit & _).
  - reflexivity.
  - exists assets, log. split; [exact E|]. split; [exact Hsorted|].
    split; [exact Hsplit|]. split.
    + intros a Ha. apply (Hindex a 3%nat). rewrite Ha. reflexivity.
    + intros a Ha. apply (Hindex a 0%nat). rewrite Ha. reflexivity.
Defined.

(** Listed platforms come first, in display order; the two unlisted
    archives follow in the order in which they were found; the archive
    that cannot be classified is left out with a warning. *)
Example discoverAssets_release_dir :
  (match fst (ReleaseNotes.discoverAssets "r" "app" release_dir) with
   | Returned assets => ReleaseNotes.filename <$> assets
   | Thrown _ => []
   end)
  = [ "app-linux-amd64.tar.gz"; "app-darwin-arm64.tar.gz";
      "app-windows-aarch64.zip"; "app-linux-arm64.tar.gz" ]
  ∧ EvLog Warning "Could not detect platform for: notes.tar.gz"
    ∈ snd (ReleaseNotes.discoverAssets "r" "app" release_dir).
Proof.
  split; [vm_compute; reflexivity|].
  set (log := snd _). vm_compute in log. subst log.
  repeat first [apply list_elem_of_here | apply list_elem_of_further].
Qed.

(** ** C7, C8: classification *)

Lemma find_first {A} (f : A → bool) pre x post :
  f x = true → (∀ y, y ∈ pre → f y = false) → find f (pre ++ x :: post) = Some x.
Proof.
  intros Hx. induction pre as [|y pre IH]; intros Hpre; simpl.
  - by rewrite Hx.
  - rewrite (Hpre y) by left. apply IH. intros z Hz. apply Hpre. by right.
Qed.

Lemma find_pattern_Some b entry :
  find (λ entry, JS.includes b (fst entry)) ReleaseNotes.PLATFORM_PATTERNS = Some entry →
  fst entry ∈ pattern_ids ∧ JS.includes b (fst entry) = true.
Proof.
  intros [Hin Hinc]%find_some. split; [|done].
  apply list_elem_of_fmap. exists entry. split; [done|]. by apply list_elem_of_In.
Qed.

Lemma find_pattern_None b :
  find (λ entry, JS.includes b (fst entry)) ReleaseNotes.PLATFORM_PATTERNS = None
  ↔ no_known_id b.
Proof.
  split.
  - intros Hnone i (entry & -> & Hin)%list_elem_of_fmap.
    apply (find_none _ _ Hnone entry). by apply list_elem_of_In.
  - intros Hno. destruct (find _ _) as [entry|] eqn:E; [|done].
    apply find_pattern_Some in E as [Hin Hinc]. by rewrite (Hno _ Hin) in Hinc.
Qed.

Lemma basename_scan_plain f cur last :
  JS.includes f "/" = false →
  JS.basename_scan f cur last = if JS.truthy (cur ++ f) then cur ++ f else last.
Proof.
  revert cur. induction f as [|c f IH]; intros cur Hf.
  - simpl. by rewrite append_nil_r.
  - cbn [JS.includes JS.startsWith] in Hf.
    destruct (Ascii.eqb "/" c) eqn:Hc; [by destruct f|].
    cbn [JS.basename_scan]. rewrite Ascii.eqb_sym, Hc, IH.
    + by rewrite append_assoc.
    + simpl in Hf. by destruct (JS.includes f "/").
Qed.

(** A name without a slash is its own base name. *)
Lemma basename_plain f : JS.includes f "/" = false → JS.basename f = f.
Proof.
  intros Hf. unfold JS.basename. rewrite basename_scan_plain by done.
  simpl. by destruct f.
Qed.

Lemma pattern_ids_split pre i post :
  pattern_ids = (pre ++ i :: post)%list →
  ∃ pre' pat post',
    ReleaseNotes.PLATFORM_PATTERNS = (pre' ++ (i, pat) :: post')%list ∧ pre = fst <$> pre'.
Proof.
  unfold pattern_ids. intros (pre' & rest & -> & Hrest & ->)%fmap_app_inv.
  symmetry in Hrest. apply fmap_cons_inv in Hrest as ([j pat] & post' & [= ->] & _ & ->).
  by exists pre', pat, post'.
Qed.

(** C7, as amended.  When the base name of a file contains an id of the
    platform table, classification returns the first entry whose id
    occurs in it, in the order linux-amd64-musl, linux-amd64,
    linux-aarch64, linux-arm64, darwin-arm64, darwin-amd64,
    windows-amd64, windows-aarch64 of the table, whatever surrounds the
    id.  So it succeeds with a table id that occurs in the name; it
    returns the id that occurs when no other table id occurs; it returns
    linux-amd64-musl, the first entry, whenever that id occurs, although
    linux-amd64 then occurs too: as for
    myapp-v1.2.3-linux-amd64-musl.tar.gz; and of two unrelated ids in one
    name the one that stands earlier in this order wins. *)
Theorem detectPlatform_first_table_match :
  let order := [ "linux-amd64-musl"; "linux-amd64"; "linux-aarch64"; "linux-arm64";
                 "darwin-arm64"; "darwin-amd64"; "windows-amd64"; "windows-aarch64" ] in
  (∀ f proj pre i post,
     order = (pre ++ i :: post)%list →
     JS.includes (JS.basename f) i = true →
     (∀ j, j ∈ pre → JS.includes (JS.basename f) j = false) →
     ∃ pat, (i, pat) ∈ ReleaseNotes.PLATFORM_PATTERNS
            ∧ ReleaseNotes.detectPlatform f proj = Some (ReleaseNotes.with_id i pat))
  ∧ (∀ f proj pre i pat post,
       ReleaseNotes.PLATFORM_PATTERNS = (pre ++ (i, pat) :: post)%list →
       JS.includes (JS.basename f) i = true →
       (∀ entry, entry ∈ pre → JS.includes (JS.basename f) (fst entry) = false) →
       ReleaseNotes.detectPlatform f proj = Some (ReleaseNotes.with_id i pat))
  ∧ (∀ f proj i,
       i ∈ order → JS.includes (JS.basename f) i = true →
       ∃ p, ReleaseNotes.detectPlatform f proj = Some p
            ∧ ReleaseNotes.id p ∈ order
            ∧ JS.includes (JS.basename f) (ReleaseNotes.id p) = true
            ∧ ((∀ j, j ∈ order → j ≠ i → JS.includes (JS.basename f) j = false) →
               ReleaseNotes.id p = i))
  ∧ (∀ f proj,
       JS.includes (JS.basename f) "linux-amd64-musl" = true →
       ReleaseNotes.id <$> ReleaseNotes.detectPlatform f proj = Some "linux-amd64-musl")
  ∧ (∀ f, JS.includes f "/" = false → JS.basename f = f)
  ∧ JS.includes "myapp-v1.2.3-linux-amd64-musl.tar.gz" "linux-amd64" = true
  ∧ ReleaseNotes.id <$> ReleaseNotes.detectPlatform "myapp-v1.2.3-linux-amd64-musl.tar.gz" "myapp"
    = Some "linux-amd64-musl".
Proof.
  intros order.
  assert (Hfirst : ∀ f proj pre i pat post,
     ReleaseNotes.PLATFORM_PATTERNS = (pre ++ (i, pat) :: post)%list →
     JS.includes (JS.basename f) i = true →
     (∀ entry, entry ∈ pre → JS.includes (JS.basename f) (fst entry) = false) →
     ReleaseNotes.detectPlatform f proj = Some (ReleaseNotes.with_id i pat)).
  { intros f proj pre i pat post Htable Hinc Hpre. unfold ReleaseNotes.detectPlatform.
    rewrite Htable.
    by rewrite (find_first (λ entry, JS.includes (JS.basename f) (fst entry)) pre (i, pat) post). }
  split; [|split; [exact Hfirst|split; [|split; [|split; [exact basename_plain|split; by vm_compute]]]]].
  - intros f proj pre i post Horder Hinc Hpre.
    destruct (pattern_ids_split pre i post Horder) as (pre' & pat & post' & Htable & ->).
    exists pat. split.
    + rewrite Htable. apply elem_of_app. right. left.
    + apply (Hfirst f proj pre' i pat post' Htable Hinc).
      intros entry He. apply Hpre, list_elem_of_fmap. by exists entry.
  - intros f proj i Hi Hinc. change order with pattern_ids in *.
    unfold ReleaseNotes.detectPlatform.
    destruct (find _ _) as [[j pat]|] eqn:E.
    + apply find_pattern_Some in E as [Hj Hjinc]. simpl in *.
      exists (ReleaseNotes.with_id j pat). split; [done|]. split; [done|]. split; [done|].
      intros Honly. destruct (decide (j = i)) as [|Hne]; [done|].
      by rewrite (Honly j Hj Hne) in Hjinc.
    + apply find_pattern_None in E. by rewrite (E i Hi) in Hinc.
  - intros f proj Hinc. unfold ReleaseNotes.detectPlatform, ReleaseNotes.PLATFORM_PATTERNS.
    cbn [find fst]. by rewrite Hinc.
Qed.

(** The theorem at [app-darwin-amd64.zip], whose only table id is
    darwin-amd64, the sixth in the order, and at a name that holds
    darwin-arm64 and linux-aarch64, of which linux-aarch64 stands
    earlier. *)
Lemma detectPlatform_first_table_match_witness :
  ReleaseNotes.id <$> ReleaseNotes.detectPlatform "app-darwin-amd64.zip" "app"
  = Some "darwin-amd64"
  ∧ ReleaseNotes.id <$> ReleaseNotes.detectPlatform "cross-darwin-arm64-linux-aarch64.zip" "cross"
    = Some "linux-aarch64".
Proof.
  destruct detectPlatform_first_table_match as (Hfirst & _).
  split.
  - destruct (Hfirst "app-darwin-amd64.zip" "app"
                [ "linux-amd64-musl"; "linux-amd64"; "linux-aarch64"; "linux-arm64";
                  "darwin-arm64" ]
                "darwin-amd64" [ "windows-amd64"; "windows-aarch64" ]) as (pat & _ & E).
    + reflexivity.
    + reflexivity.
    + intros j Hj.
      repeat (apply elem_of_cons in Hj as [->|Hj]; [reflexivity|]).
      inversion Hj.
    + rewrite E. reflexivity.
  - destruct (Hfirst "cross-darwin-arm64-linux-aarch64.zip" "cross"
                [ "linux-amd64-musl"; "linux-amd64" ]
                "linux-aarch64"
                [ "linux-arm64"; "darwin-arm64"; "darwin-amd64"; "windows-amd64";
                  "windows-aarch64" ]) as (pat & _ & E).
    + reflexivity.
    + reflexivity.
    + intros j Hj.
      repeat (apply elem_of_cons in Hj as [->|Hj]; [reflexivity|]).
      inversion Hj.
    + rewrite E. reflexivity.
Defined.

(** C7, as stated, fails on a name in which two unrelated table ids
    occur: the name contains darwin-arm64, yet it is classified as
    linux-aarch64, which stands earlier in the table. *)
Lemma detectPlatform_first_table_match_counterexample :
  "darwin-arm64" ∈ pattern_ids
  ∧ JS.includes "qemu-darwin-arm64-to-linux-aarch64.tar.gz" "darwin-arm64" = true
  ∧ ReleaseNotes.id <$> ReleaseNotes.detectPlatform "qemu-darwin-arm64-to-linux-aarch64.tar.gz" "qemu"
    = Some "linux-aarch64"
  ∧ ReleaseNotes.id <$> ReleaseNotes.detectPlatform "qemu-darwin-arm64-to-linux-aarch64.tar.gz" "qemu"
    ≠ Some "darwin-arm64".
Proof.
  split; [apply (bool_decide_unpack _); by vm_compute|].
  split; [by vm_compute|]. split; [by vm_compute|]. vm_compute. discriminate.
Qed.

(** *** The package patterns *)

Lemma deb_here_eq s :
  ReleaseNotes.deb_here s = suffix_here "_" ReleaseNotes.is_lower_alnum ".deb" s.
Proof.
  destruct s as [|c r]; [done|].
  destruct c as [[] [] [] [] [] [] [] []]; reflexivity.
Qed.

Lemma rpm_here_eq s :
  ReleaseNotes.rpm_here s = suffix_here "." ReleaseNotes.is_lower_alnum_us ".rpm" s.
Proof.
  destruct s as [|c r]; [done|].
  destruct c as [[] [] [] [] [] [] [] []]; reflexivity.
Qed.

Lemma search_ext (f g : string → option string) s :
  (∀ t, f t = g t) → JS.search f s = JS.search g s.
Proof.
  intros Hfg. induction s as [|c s IH]; simpl; rewrite Hfg; [done|]. by rewrite IH.
Qed.

Lemma span_app cls s : s = fst (JS.span cls s) ++ snd (JS.span cls s).
Proof.
  induction s as [|c s IH]; [done|]. simpl. destruct (cls c); [|done].
  destruct (JS.span cls s) as [a rest]. simpl in *. by rewrite append_cons, <- IH.
Qed.

Lemma endsWith_app x suf : JS.endsWith (x ++ suf) suf = true.
Proof.
  induction x as [|c x IH].
  - destruct suf; simpl; by rewrite ?String.eqb_refl, ?Ascii.eqb_refl.
  - rewrite append_cons. cbn [JS.endsWith]. by rewrite IH, orb_true_r.
Qed.

Section package_pattern.
Context (sep : ascii) (cls : ascii → bool) (d : ascii) (ext' : string).
Hypothesis sep_out : cls sep = false.
Hypothesis dot_out : cls d = false.

Local Abbreviation ext := (String d ext').
Local Abbreviation here := (suffix_here sep cls ext).

(** The run stops in front of a character outside the class. *)
Lemma span_run run rest :
  Forall (λ c, cls c = true) (list_ascii_of_string run) →
  JS.span cls (run ++ String d rest) = (run, String d rest).
Proof.
  induction run as [|c run IH]; simpl list_ascii_of_string; intros Hrun.
  - simpl. by rewrite dot_out.
  - apply Forall_cons in Hrun as [Hc Hrun]. rewrite append_cons. simpl.
    by rewrite Hc, IH.
Qed.

(** What is left after a run still ends with the separator and what
    follows it. *)
Lemma span_rest x y :
  ∃ x', snd (JS.span cls (x ++ String sep y)) = x' ++ String sep y.
Proof.
  induction x as [|c x [x' IH]].
  - exists "". simpl. by rewrite sep_out.
  - rewrite append_cons. simpl. destruct (cls c).
    + exists x'. by destruct (JS.span cls _).
    + by exists (String c x).
Qed.

Lemma search_suffix stem run :
  run ≠ "" →
  Forall (λ c, cls c = true) (list_ascii_of_string run) →
  JS.search here (stem ++ String sep (run ++ ext)) = Some run.
Proof.
  intros Hne Hrun. induction stem as [|c stem IH].
  - simpl. rewrite Ascii.eqb_refl, span_run by done.
    rewrite (proj2 (truthy_spec run) Hne), String.eqb_refl. done.
  - rewrite append_cons. cbn [JS.search]. rewrite IH.
    assert (here (String c (stem ++ String sep (run ++ ext))) = None) as ->; [|done].
    simpl. destruct (Ascii.eqb c sep); [|done].
    destruct (span_rest stem (run ++ ext)) as [x' Hx'].
    destruct (JS.span cls _) as [a rest]. simpl in Hx'. subst rest.
    destruct (String.eqb_spec (x' ++ String sep (run ++ ext)) ext) as [E|_];
      [|by rewrite andb_false_r].
    apply (f_equal String.length) in E. rewrite append_length in E. simpl in E.
    rewrite append_length in E. simpl in E. lia.
Qed.

(** A match ends the string with the extension. *)
Lemma search_ends s run : JS.search here s = Some run → JS.endsWith s ext = true.
Proof.
  induction s as [|c s IH]; [done|]. cbn [JS.search].
  destruct (here (String c s)) as [m|] eqn:E.
  - intros _. cbn [suffix_here] in E. destruct (Ascii.eqb c sep); [|done].
    pose proof (span_app cls s) as Hs.
    destruct (JS.span cls s) as [a rest]. destruct (JS.truthy a); [|done].
    cbn [fst snd andb] in *.
    destruct (String.eqb_spec rest ext) as [Hrest|]; [|done].
    rewrite Hs, Hrest. apply (endsWith_app (String c a) ext).
  - intros H. cbn [JS.endsWith]. apply orb_true_iff. right. by apply IH.
Qed.

End package_pattern.

Lemma endsWith_length t b :
  JS.endsWith t b = true →
(String.length b ≤ String.length t)%nat ∧ (String.length t = String.length b → t = b).
Proof.
  induction t as [|c t IH]; cbn [JS.endsWith].
  - rewrite orb_false_r. intros ->%String.eqb_eq. done.
  - intros [->%String.eqb_eq|[Hle Heq]%IH]%orb_true_iff; [done|].
    simpl. split; lia.
Qed.

(** A string does not end with two different extensions of one length. *)
Lemma endsWith_exclusive a b s :
  String.length a = String.length b → a ≠ b →
  JS.endsWith s a = true → JS.endsWith s b = false.
Proof.
  intros Hlen Hne Ha. apply not_true_iff_false. intros Hb.
  induction s as [|c s IH]; cbn [JS.endsWith] in *.
  - rewrite orb_false_r in *. apply String.eqb_eq in Ha, Hb. congruence.
  - apply orb_true_iff in Ha as [Ha|Ha]; apply orb_true_iff in Hb as [Hb|Hb].
    + apply String.eqb_eq in Ha, Hb. congruence.
    + apply String.eqb_eq in Ha. apply endsWith_length in Hb as [Hb _].
      rewrite <- Ha in Hlen. simpl in Hlen. lia.
    + apply String.eqb_eq in Hb. apply endsWith_length in Ha as [Ha _].
      rewrite <- Hb in Hlen. simpl in Hlen. lia.
    + by apply IH.
Qed.

(** An architecture name that a table inherits selects no platform: the
    lookup is that of the table's own entries. *)
Lemma platform_of_arch_own table archName :
  ReleaseNotes.platform_of_arch table archName
  = (platformId ← table !! archName;
     if JS.truthy platformId then
       ReleaseNotes.with_id platformId <$> JS.obj_get platformId ReleaseNotes.PLATFORM_PATTERNS
     else None).
Proof.
  unfold ReleaseNotes.platform_of_arch, JS.index.
  destruct (table !! archName) as [pid|]; [done|].
  case_bool_decide; [|done]. cbn [mbind option_bind JS.truthy_value JS.to_string].
  destruct (String.eqb archName "__proto__"); [done|].
  by destruct (String.eqb archName "constructor").
Qed.

Lemma deb_arch_cases archName pid :
  ReleaseNotes.DEB_ARCH_MAP !! archName = Some pid →
  (archName = "amd64" ∧ pid = "linux-amd64") ∨ (archName = "arm64" ∧ pid = "linux-aarch64").
Proof.
  intros H. apply elem_of_list_to_map_2 in H.
  repeat (apply elem_of_cons in H as [[= -> ->]|H]; [auto|]). by apply elem_of_nil in H.
Qed.

Lemma rpm_arch_cases archName pid :
  ReleaseNotes.RPM_ARCH_MAP !! archName = Some pid →
  (archName = "x86_64" ∧ pid = "linux-amd64") ∨ (archName = "aarch64" ∧ pid = "linux-aarch64").
Proof.
  intros H. apply elem_of_list_to_map_2 in H.
  repeat (apply elem_of_cons in H as [[= -> ->]|H]; [auto|]). by apply elem_of_nil in H.
Qed.

Lemma search_deb stem archName :
  archName ≠ "" →
  Forall (λ c, ReleaseNotes.is_lower_alnum c = true) (list_ascii_of_string archName) →
  JS.search ReleaseNotes.deb_here (stem ++ "_" ++ archName ++ ".deb") = Some archName.
Proof.
  intros Hne Hcls. rewrite (search_ext _ _ _ deb_here_eq).
  by apply (search_suffix "_" ReleaseNotes.is_lower_alnum "." "deb").
Qed.

Lemma search_rpm stem archName :
  archName ≠ "" →
  Forall (λ c, ReleaseNotes.is_lower_alnum_us c = true) (list_ascii_of_string archName) →
  JS.search ReleaseNotes.rpm_here (stem ++ "." ++ archName ++ ".rpm") = Some archName.
Proof.
  intros Hne Hcls. rewrite (search_ext _ _ _ rpm_here_eq).
  by apply (search_suffix "." ReleaseNotes.is_lower_alnum_us "." "rpm").
Qed.

Lemma search_deb_none s : JS.endsWith s ".rpm" = true → JS.search ReleaseNotes.deb_here s = None.
Proof.
  intros Hrpm. rewrite (search_ext _ _ _ deb_here_eq).
  destruct (JS.search _ s) as [m|] eqn:E; [|done].
  apply search_ends in E.
  by rewrite (endsWith_exclusive ".rpm" ".deb" s) in E.
Qed.

Lemma search_rpm_none s : JS.endsWith s ".deb" = true → JS.search ReleaseNotes.rpm_here s = None.
Proof.
  intros Hdeb. rewrite (search_ext _ _ _ rpm_here_eq).
  destruct (JS.search _ s) as [m|] eqn:E; [|done].
  apply search_ends in E.
  by rewrite (endsWith_exclusive ".deb" ".rpm" s) in E.
Qed.

Lemma ends_deb stem archName : JS.endsWith (stem ++ "_" ++ archName ++ ".deb") ".deb" = true.
Proof. rewrite <- !append_assoc. apply endsWith_app. Qed.

Lemma ends_rpm stem archName : JS.endsWith (stem ++ "." ++ archName ++ ".rpm") ".rpm" = true.
Proof. rewrite <- !append_assoc. apply endsWith_app. Qed.

(** C8. For a file whose base name holds no id of the platform table:
    a name ending in [_<arch>.deb] is classified through the Debian table
    (amd64 to linux-amd64, arm64 to linux-aarch64), a name ending in
    [.<arch>.rpm] through the RPM table (x86_64 to linux-amd64, aarch64 to
    linux-aarch64), and an architecture of the pattern's class that its
    table does not hold leaves the file unclassified.  The package type
    depends on the extension alone: deb for [.deb], rpm for [.rpm], binary
    otherwise.  So myapp_1.0.0_arm64.deb is linux-aarch64 of type deb and
    myapp-1.0.0.x86_64.rpm is linux-amd64 of type rpm. *)
Theorem detectPlatform_package_suffix :
  (∀ f proj stem archName pid,
     no_known_id (JS.basename f) →
     JS.basename f = stem ++ "_" ++ archName ++ ".deb" →
     ReleaseNotes.DEB_ARCH_MAP !! archName = Some pid →
     ∃ pat, JS.obj_get pid ReleaseNotes.PLATFORM_PATTERNS = Some pat
            ∧ ReleaseNotes.detectPlatform f proj = Some (ReleaseNotes.with_id pid pat))
  ∧ (∀ f proj stem archName pid,
       no_known_id (JS.basename f) →
       JS.basename f = stem ++ "." ++ archName ++ ".rpm" →
       ReleaseNotes.RPM_ARCH_MAP !! archName = Some pid →
       ∃ pat, JS.obj_get pid ReleaseNotes.PLATFORM_PATTERNS = Some pat
              ∧ ReleaseNotes.detectPlatform f proj = Some (ReleaseNotes.with_id pid pat))
  ∧ (∀ f proj stem archName,
       no_known_id (JS.basename f) →
       JS.basename f = stem ++ "_" ++ archName ++ ".deb" →
       archName ≠ "" →
       Forall (λ c, ReleaseNotes.is_lower_alnum c = true) (list_ascii_of_string archName) →
       ReleaseNotes.DEB_ARCH_MAP !! archName = None →
       ReleaseNotes.detectPlatform f proj = None)
  ∧ (∀ f proj stem archName,
       no_known_id (JS.basename f) →
       JS.basename f = stem ++ "." ++ archName ++ ".rpm" →
       archName ≠ "" →
       Forall (λ c, ReleaseNotes.is_lower_alnum_us c = true) (list_ascii_of_string archName) →
       ReleaseNotes.RPM_ARCH_MAP !! archName = None →
       ReleaseNotes.detectPlatform f proj = None)
  ∧ (∀ f, JS.endsWith f ".deb" = true → ReleaseNotes.getAssetType f = ReleaseNotes.deb)
  ∧ (∀ f, JS.endsWith f ".rpm" = true → ReleaseNotes.getAssetType f = ReleaseNotes.rpm)
  ∧ (∀ f, JS.endsWith f ".deb" = false → JS.endsWith f ".rpm" = false →
          ReleaseNotes.getAssetType f = ReleaseNotes.binary)
  ∧ (ReleaseNotes.id <$> ReleaseNotes.detectPlatform "myapp_1.0.0_arm64.deb" "myapp"
     = Some "linux-aarch64"
     ∧ ReleaseNotes.getAssetType "myapp_1.0.0_arm64.deb" = ReleaseNotes.deb)
  ∧ (ReleaseNotes.id <$> ReleaseNotes.detectPlatform "myapp-1.0.0.x86_64.rpm" "myapp"
     = Some "linux-amd64"
     ∧ ReleaseNotes.getAssetType "myapp-1.0.0.x86_64.rpm" = ReleaseNotes.rpm).
Proof.
  repeat split; try (vm_compute; reflexivity).
  - intros f proj stem archName pid Hno Hname Harch.
    unfold ReleaseNotes.detectPlatform.
    rewrite (proj2 (find_pattern_None _) Hno), Hname.
    destruct (deb_arch_cases _ _ Harch) as [[-> ->]|[-> ->]];
      (rewrite search_deb; [|done|by vm_compute; repeat constructor]);
      eexists; (split; [|reflexivity]); reflexivity.
  - intros f proj stem archName pid Hno Hname Harch.
    unfold ReleaseNotes.detectPlatform.
    rewrite (proj2 (find_pattern_None _) Hno), Hname.
    rewrite search_deb_none by apply ends_rpm.
    destruct (rpm_arch_cases _ _ Harch) as [[-> ->]|[-> ->]];
      (rewrite search_rpm; [|done|by vm_compute; repeat constructor]);
      eexists; (split; [|reflexivity]); reflexivity.
  - intros f proj stem archName Hno Hname Hne Hcls Harch.
    unfold ReleaseNotes.detectPlatform.
    rewrite (proj2 (find_pattern_None _) Hno), Hname.
    rewrite search_deb by done. rewrite search_rpm_none by apply ends_deb.
    simpl. rewrite platform_of_arch_own. by rewrite Harch.
  - intros f proj stem archName Hno Hname Hne Hcls Harch.
    unfold ReleaseNotes.detectPlatform.
    rewrite (proj2 (find_pattern_None _) Hno), Hname.
    rewrite search_deb_none by apply ends_rpm. rewrite search_rpm by done.
    simpl. rewrite platform_of_arch_own. by rewrite Harch.
  - intros f Hdeb. unfold ReleaseNotes.getAssetType. by rewrite Hdeb.
  - intros f Hrpm. unfold ReleaseNotes.getAssetType.
    by rewrite (endsWith_exclusive ".rpm" ".deb" f), Hrpm.
  - intros f Hdeb Hrpm. unfold ReleaseNotes.getAssetType. by rewrite Hdeb, Hrpm.
Qed.

(** The theorem at a Debian package under a directory and at an RPM
    package. *)
Lemma detectPlatform_package_suffix_witness :
  (ReleaseNotes.id <$> ReleaseNotes.detectPlatform "pkg/myapp_1.0.0_amd64.deb" "myapp"
   = Some "linux-amd64"
   ∧ ReleaseNotes.getAssetType "myapp_1.0.0_amd64.deb" = ReleaseNotes.deb)
  ∧ ReleaseNotes.id <$> ReleaseNotes.detectPlatform "myapp-1.0.0.aarch64.rpm" "myapp"
    = Some "linux-aarch64".
Proof.
  destruct detectPlatform_package_suffix as (Hdeb & Hrpm & _ & _ & Htype & _).
  split; [split|].
  - destruct (Hdeb "pkg/myapp_1.0.0_amd64.deb" "myapp" "myapp_1.0.0" "amd64" "linux-amd64")
      as (pat & _ & ->).
    + intros i Hi. unfold pattern_ids in Hi. simpl in Hi.
      repeat (apply elem_of_cons in Hi as [->|Hi]; [reflexivity|]). inversion Hi.
    + reflexivity.
    + reflexivity.
    + reflexivity.
  - apply Htype. reflexivity.
  - destruct (Hrpm "myapp-1.0.0.aarch64.rpm" "myapp" "myapp-1.0.0" "aarch64" "linux-aarch64")
      as (pat & _ & ->).
    + intros i Hi. unfold pattern_ids in Hi. simpl in Hi.
      repeat (apply elem_of_cons in Hi as [->|Hi]; [reflexivity|]). inversion Hi.
    + reflexivity.
    + reflexivity.
    + reflexivity.
Defined.

(** Packages next to each other in one directory: each gets its platform
    from its architecture suffix and its type from its extension. *)
Example discoverAssets_packages :
  (match fst (ReleaseNotes.discoverAssets "r" "myapp"
                (world_of offline no_files
                   [ "r/myapp_1.0.0_arm64.deb"; "r/myapp-1.0.0.x86_64.rpm" ])) with
   | Returned assets =>
       (λ a, (ReleaseNotes.filename a, ReleaseNotes.id (ReleaseNotes.platform a),
              ReleaseNotes.type a, ReleaseNotes.extension a)) <$> assets
   | Thrown _ => []
   end)
  = [ ("myapp-1.0.0.x86_64.rpm", "linux-amd64", ReleaseNotes.rpm, "rpm");
      ("myapp_1.0.0_arm64.deb", "linux-aarch64", ReleaseNotes.deb, "deb") ].
Proof. vm_compute. reflexivity. Qed.

(** * Further properties *)

(** ** update-homebrew-tap *)

(** X1. A normalised platform is never itself an alias: the alias table
    has no entry for it, and indexing the table with it answers
    [undefined], so normalising again has nothing to replace. *)
Theorem normalizePlatform_never_alias (s : string) :
  Homebrew.PLATFORM_ALIASES !! normalized s = None
  ∧ JS.index Homebrew.PLATFORM_ALIASES (normalized s) = None.
Proof.
  assert (Hown : Homebrew.PLATFORM_ALIASES !! normalized s = None
                 ∧ normalized s ∉ JS.prototype_names).
  { destruct (decide (plain_platform s)) as [Hp|Hn].
    - destruct (normalizePlatform_cases s) as [(a & E & Hc & Ea)|[[Hn _]|(E & _ & Ea)]];
        [|done|]; unfold normalized; rewrite Ea; simpl.
      + repeat (apply elem_of_cons in Hc as [->|Hc];
                [split; [by vm_compute|apply (bool_decide_unpack _); by vm_compute]|]).
        by apply elem_of_nil in Hc.
      + split; [done|by apply plain_not_inherited].
    - destruct (normalized_inherited s Hn) as [[_ ->]|[_ ->]];
        (split; [by vm_compute|apply (bool_decide_unpack _); by vm_compute]). }
  destruct Hown as [Hown Hproto]. split; [done|].
  unfold JS.index. rewrite Hown. by case_bool_decide.
Qed.



Lemma take_while_n_length p n s m :
  JS.take_while_n p n s = Some m → String.length m = n.
Proof.
  revert s m. induction n as [|n IH]; intros s m; simpl.
  - by intros [= <-].
  - destruct s as [|c r]; [done|]. destruct (p c); [|done].
    destruct (JS.take_while_n p n r) as [m'|] eqn:E; [|done].
    intros [= <-]. simpl. by rewrite (IH _ _ E).
Qed.

Lemma take_while_n_all p n s m :
  JS.take_while_n p n s = Some m →
  Forall (λ c, p c = true) (list_ascii_of_string m).
Proof.
  revert s m. induction n as [|n IH]; intros s m; simpl.
  - intros [= <-]. constructor.
  - destruct s as [|c r]; [done|]. destruct (p c) eqn:Hc; [|done].
    destruct (JS.take_while_n p n r) as [m'|] eqn:E; [|done].
    intros [= <-]. simpl. constructor; [done|]. by apply (IH _ _ E).
Qed.

Lemma sidecar_hash_length content h :
  sidecar_hash content = Some h → String.length h = 64.
Proof.
  unfold sidecar_hash, JS.match_sha256.
  destruct (JS.take_while_n _ _ _) as [m|] eqn:E; [|done].
  intros [= <-]. rewrite toLowerCase_length. by apply take_while_n_length in E.
Qed.

Lemma sidecar_of_length w target h :
  sidecar_of w target = Some h → String.length h = 64.
Proof.
  unfold sidecar_of. destruct (net_fetch w target) as [|r]; [done|].
  destruct (resp_ok r); [|done]. destruct (resp_text r); [done|].
  apply sidecar_hash_length.
Qed.

(** Resolving a resolved entry changes nothing: a hash that was present
    or has been fetched is kept, and a sidecar that was out of reach is
    still out of reach. *)
Lemma resolved_idem w info : resolved w (resolved w info) = resolved w info.
Proof.
  unfold resolved at 1. unfold needs_fetch at 1.
  destruct (needs_fetch info) eqn:Hn; unfold resolved; rewrite Hn; simpl.
  - destruct (sidecar_of w _) as [h|] eqn:E; simpl.
    + apply sidecar_of_length in E. by destruct h.
    + by apply andb_true_iff in Hn as [_ ->].
  - unfold needs_fetch in Hn. by rewrite Hn.
Qed.

Lemma obj_define_fresh {V} k (v : V) o :
  k ∉ o.*1 → JS.obj_define k v o = (o ++ [(k, v)])%list.
Proof.
  induction o as [|[k' v'] o IH]; simpl; [done|].
  intros [Hne Hk]%not_elem_of_cons. destruct (String.eqb_spec k' k); [done|].
  by rewrite IH.
Qed.

Lemma obj_define_keys_list {V} k (v : V) o :
  (JS.obj_define k v o).*1 = if decide (k ∈ o.*1) then o.*1 else (o.*1 ++ [k])%list.
Proof.
  induction o as [|[k' v'] o IH]; [done|]. cbn [JS.obj_define].
  destruct (String.eqb_spec k' k) as [->|Hne]; rewrite !fmap_cons; cbn [fst].
  - rewrite decide_True; [done|left].
  - rewrite IH. destruct (decide (k ∈ o.*1)).
    + rewrite decide_True; [done|by right].
    + rewrite decide_False; [done|]. by intros [?|?]%elem_of_cons.
Qed.

Lemma obj_define_entries {V} k (v : V) o e :
  e ∈ JS.obj_define k v o → e = (k, v) ∨ e ∈ o.
Proof.
  induction o as [|[k' v'] o IH]; simpl.
  - intros ?%list_elem_of_singleton. by left.
  - destruct (String.eqb k' k).
    + intros [->|?]%elem_of_cons; [by left|right; by right].
    + intros [->|[->|?]%IH]%elem_of_cons; [right; left|by left|right; by right].
Qed.

Lemma fold_put_entries w raw acc e :
  e ∈ fold_left (put_asset w) raw acc →
  e ∈ acc ∨ ∃ r, r ∈ raw ∧ e = (normalized (fst r), resolved w (snd r)).
Proof.
  revert acc. induction raw as [|x raw IH]; intros acc; simpl; [by left|].
  intros [He|(r & Hr & ->)]%IH.
  - rewrite put_asset_define in He.
    apply obj_define_entries in He as [->|He]; [|by left].
    right. exists x. split; [left|done].
  - right. exists r. split; [by right|done].
Qed.

Lemma fold_put_settled w l acc :
  Forall (λ e, normalized (fst e) = fst e ∧ resolved w (snd e) = snd e) l →
  NoDup (acc.*1 ++ l.*1) →
  fold_left (put_asset w) l acc = (acc ++ l)%list.
Proof.
  revert acc. induction l as [|[k v] l IH]; intros acc Hl Hnd; simpl.
  - by rewrite app_nil_r.
  - apply Forall_cons in Hl as [[Hk Hv] Hl]. simpl in *.
    rewrite put_asset_define. simpl. rewrite Hk, Hv.
    assert (k ∉ acc.*1) as Hfresh.
    { apply NoDup_app in Hnd as (_ & Hdis & _). intros Hin. apply (Hdis k Hin). left. }
    rewrite obj_define_fresh by done. rewrite IH; [by rewrite <- app_assoc|done|].
    rewrite fmap_app. simpl. rewrite <- app_assoc. done.
Qed.

(** X3. When no raw key lower-cases to "constructor" or "__proto__",
    processing the output of [processAssets] again, in the same world,
    returns it unchanged: its keys are normalised already, hashes that
    are present are kept, and the assets left without a hash are looked
    up again with the same result.  (A key made from one of the two
    names is not stable: "constructor" is stored under the text of the
    [Object] function, which a second pass lower-cases.) *)
Theorem processAssets_reprocess (w : World) (raw : Homebrew.Assets) :
  (∀ entry, entry ∈ raw → plain_platform (fst entry)) →
  ∃ out log,
    Homebrew.processAssets raw w = (Returned out, log)
    ∧ fst (Homebrew.processAssets out w) = Returned out.
Proof.
  intros Hplain. eexists _, _. split; [apply processAssets_eq|].
  rewrite processAssets_eq. simpl. f_equal.
  apply (fold_put_settled w _ []).
  - apply Forall_forall. intros e [?%elem_of_nil|(r & Hr & ->)]%fold_put_entries; [done|].
    simpl. split; [apply normalized_idem, Hplain, Hr|apply resolved_idem].
  - simpl. apply fold_put_NoDup. simpl. constructor.
Qed.

Lemma processAssets_reprocess_witness :
  ∃ out log,
    Homebrew.processAssets
      [ ("Darwin-AArch64", Homebrew.mkAssetInfo "https://h/d" None None);
        ("linux-amd64", Homebrew.mkAssetInfo "https://h/l" (Some lower_hash) None) ]
      (world_of (λ _, inr (body lower_hash)) no_files []) = (Returned out, log)
    ∧ fst (Homebrew.processAssets out (world_of (λ _, inr (body lower_hash)) no_files []))
      = Returned out.
Proof.
  apply (processAssets_reprocess (world_of (λ _, inr (body lower_hash)) no_files [])
           [ ("Darwin-AArch64", Homebrew.mkAssetInfo "https://h/d" None None);
             ("linux-amd64", Homebrew.mkAssetInfo "https://h/l" (Some lower_hash) None) ]).
  intros entry He.
  repeat (apply elem_of_cons in He as [->|He]; [split; discriminate|]).
  inversion He.
Defined.

(** Without the hypothesis the second pass moves the entry. *)
Example processAssets_reprocess_inherited :
  fst (Homebrew.processAssets
         [ ("constructor", Homebrew.mkAssetInfo "https://h/c" (Some lower_hash) None) ]
         (world_of offline no_files []))
  = Returned [ ("function Object() { [native code] }",
                Homebrew.mkAssetInfo "https://h/c" (Some lower_hash) None) ]
  ∧ fst (Homebrew.processAssets
           [ ("function Object() { [native code] }",
              Homebrew.mkAssetInfo "https://h/c" (Some lower_hash) None) ]
           (world_of offline no_files []))
    = Returned [ ("function object() { [native code] }",
                  Homebrew.mkAssetInfo "https://h/c" (Some lower_hash) None) ].
Proof. split; vm_compute; reflexivity. Qed.

Lemma fold_put_order w raw acc :
  (fold_left (put_asset w) raw acc).*1
  = (acc.*1 ++ dedup_from acc.*1 (normalized <$> raw.*1))%list.
Proof.
  revert acc. induction raw as [|[p info] raw IH]; intros acc; simpl.
  - by rewrite app_nil_r.
  - rewrite IH, put_asset_define. simpl. rewrite obj_define_keys_list.
    destruct (decide (_ ∈ acc.*1)); [done|]. by rewrite <- app_assoc.
Qed.

(** X4. The output lists the platforms in the order in which they first
    appear in the input: a raw key that normalises to a platform already
    seen does not move it (it only replaces its value). *)
Theorem processAssets_key_order (w : World) (raw : Homebrew.Assets) :
  ∃ out log,
    Homebrew.processAssets raw w = (Returned out, log)
    ∧ out.*1 = dedup_from [] (normalized <$> raw.*1).
Proof.
  eexists _, _. split; [apply processAssets_eq|]. apply (fold_put_order w raw []).
Qed.

Example processAssets_order_example :
  fst (Homebrew.processAssets
         [ ("linux-amd64", Homebrew.mkAssetInfo "https://h/l1" (Some lower_hash) None);
           ("macos-arm64", Homebrew.mkAssetInfo "https://h/m" (Some lower_hash) None);
           ("Linux-X64", Homebrew.mkAssetInfo "https://h/l2" (Some lower_hash) None) ]
         (world_of offline no_files []))
  = Returned
      [ ("linux-x64", Homebrew.mkAssetInfo "https://h/l2" (Some lower_hash) None);
        ("darwin-arm64", Homebrew.mkAssetInfo "https://h/m" (Some lower_hash) None) ].
Proof. vm_compute. reflexivity. Qed.

Lemma accessor_reads field key name version assets description homepage license
    binaryName privateRepo :
  (field, key) ∈ accessors →
  field (Homebrew.buildContext name version assets description homepage license
           binaryName privateRepo)
  = JS.obj_get key assets.
Proof.
  unfold accessors, Homebrew.buildContext. intros H.
  destruct (fold_left _ _ _).
  repeat (apply elem_of_cons in H as [[= -> ->]|H]; [done|]).
  by apply elem_of_nil in H.
Qed.

(** X5. After processing, a convenience field of the formula context is
    absent exactly when no raw key normalises to its platform, and
    otherwise holds the entry made from the last raw key that does: so
    "macos-arm64" or "Darwin-AArch64" in the input fills [darwinArm64]. *)
Theorem formula_accessors_after_processing (w : World) (raw : Homebrew.Assets)
    (name version description homepage license binaryName : string) (privateRepo : bool) :
  ∃ out log,
    Homebrew.processAssets raw w = (Returned out, log)
    ∧ let ctx := Homebrew.buildContext name version out description homepage license
                   binaryName privateRepo in
      ∀ field key, (field, key) ∈ accessors →
        (field ctx = None ↔ ∀ e, e ∈ raw → normalized (fst e) ≠ key)
        ∧ (∀ pre p info post,
             raw = (pre ++ (p, info) :: post)%list →
             normalized p = key →
             last_for_key p post →
             field ctx = Some (resolved w info)).
Proof.
  eexists _, _. split; [apply processAssets_eq|].
  intros ctx field key Hfield. unfold ctx. rewrite (accessor_reads _ _ _ _ _ _ _ _ _ _ Hfield).
  split.
  - rewrite eq_None_not_Some, obj_get_is_Some, fold_put_keys. split.
    + intros Hno e He Hk. apply Hno. right. by exists e.
    + intros Hno [?%elem_of_nil|(e & He & Hk)]; [done|]. by apply (Hno e).
  - intros pre p info post -> <- Hlast. by apply fold_put_last.
Qed.

(** The theorem on a map that names the Apple Silicon build by an alias
    and has no Linux build. *)
Lemma formula_accessors_after_processing_witness :
  ∃ out log,
    Homebrew.processAssets
      [ ("macOS-arm64", Homebrew.mkAssetInfo "https://h/m" (Some lower_hash) None) ]
      (world_of offline no_files []) = (Returned out, log)
    ∧ Homebrew.darwinArm64
        (Homebrew.buildContext "myapp" "v1.0.0" out "" "" "MIT" "" false)
      = Some (Homebrew.mkAssetInfo "https://h/m" (Some lower_hash) None)
    ∧ Homebrew.linuxAmd64
        (Homebrew.buildContext "myapp" "v1.0.0" out "" "" "MIT" "" false)
      = None.
Proof.
  destruct (formula_accessors_after_processing (world_of offline no_files [])
              [ ("macOS-arm64", Homebrew.mkAssetInfo "https://h/m" (Some lower_hash) None) ]
              "myapp" "v1.0.0" "" "" "MIT" "" false) as (out & log & E & Hacc).
  exists out, log. split; [exact E|]. split.
  - destruct (Hacc Homebrew.darwinArm64 "darwin-arm64") as [_ Hsome]; [left|].
    apply (Hsome [] "macOS-arm64"
             (Homebrew.mkAssetInfo "https://h/m" (Some lower_hash) None) []).
    + reflexivity.
    + reflexivity.
    + intros e He. inversion He.
  - destruct (Hacc Homebrew.linuxAmd64 "linux-x64") as [Hnone _].
    + do 5 right. left.
    + apply Hnone. intros e He. inversion He as [|? ? ? He']; subst; [|inversion He'].
      vm_compute. discriminate.
Defined.

Lemma group_step_eq macos linux e :
  Homebrew.group_step (macos, linux) e
  = (if macos_key e then (macos ++ [e])%list else macos,
     if negb (macos_key e) && linux_key e then (linux ++ [e])%list else linux).
Proof.
  destruct e as [p a]. unfold Homebrew.group_step, macos_key, linux_key. cbn [fst].
  destruct (_ || _); [done|]. by destruct (JS.startsWith p "linux-").
Qed.

Lemma group_fold assets macos linux :
  fold_left Homebrew.group_step assets (macos, linux)
  = ((macos ++ List.filter macos_key assets)%list,
     (linux ++ List.filter (λ e, negb (macos_key e) && linux_key e) assets)%list).
Proof.
  revert macos linux. induction assets as [|e assets IH]; intros macos linux.
  - cbn. by rewrite !app_nil_r.
  - cbn [fold_left List.filter]. rewrite group_step_eq, IH.
    destruct (macos_key e), (linux_key e); cbn [negb andb]; by rewrite <- ?app_assoc.
Qed.

Lemma linux_not_macos e : linux_key e = true → macos_key e = false.
Proof.
  unfold linux_key, macos_key. destruct (fst e) as [|c r]; [done|]. simpl.
  destruct c as [[] [] [] [] [] [] [] []]; simpl; done.
Qed.

(** X6. The two groups of the formula context are the entries of the
    assets mapping, in its order, whose key starts with "darwin-" or
    "macos-", and with "linux-"; no entry is in both, an entry with any
    other key (a Windows build, say) is in neither, and a convenience
    field that is present is an entry of its group. *)
Theorem buildContext_groups (name version : string) (assets : Homebrew.Assets)
    (description homepage license binaryName : string) (privateRepo : bool) :
  let ctx := Homebrew.buildContext name version assets description homepage license
               binaryName privateRepo in
  Homebrew.macosAssets ctx = List.filter macos_key assets
  ∧ Homebrew.linuxAssets ctx = List.filter linux_key assets
  ∧ (∀ e, linux_key e = true → macos_key e = false)
  ∧ (∀ e, e ∈ assets → macos_key e = false → linux_key e = false →
          (e ∉ Homebrew.macosAssets ctx) ∧ (e ∉ Homebrew.linuxAssets ctx))
  ∧ (∀ a, Homebrew.darwinArm64 ctx = Some a → ("darwin-arm64", a) ∈ Homebrew.macosAssets ctx)
  ∧ (∀ a, Homebrew.darwinX64 ctx = Some a → ("darwin-x64", a) ∈ Homebrew.macosAssets ctx)
  ∧ (∀ a, Homebrew.linuxArm64 ctx = Some a → ("linux-arm64", a) ∈ Homebrew.linuxAssets ctx)
  ∧ (∀ a, Homebrew.linuxX64 ctx = Some a → ("linux-x64", a) ∈ Homebrew.linuxAssets ctx).
Proof.
  intros ctx.
  assert (Hm : Homebrew.macosAssets ctx = List.filter macos_key assets).
  { unfold ctx, Homebrew.buildContext. by rewrite group_fold. }
  assert (Hl : Homebrew.linuxAssets ctx = List.filter linux_key assets).
  { unfold ctx, Homebrew.buildContext. rewrite group_fold. simpl.
    apply filter_ext. intros e. destruct (linux_key e) eqn:E; [|by rewrite andb_false_r].
    by rewrite (linux_not_macos _ E). }
  assert (Hin : ∀ k a (test : string * Homebrew.AssetInfo → bool),
            JS.obj_get k assets = Some a → test (k, a) = true →
            (k, a) ∈ List.filter test assets).
  { intros k a test Hget Htest. apply list_elem_of_In, filter_In.
    split; [|done]. by apply list_elem_of_In, obj_get_Some_key. }
  split; [exact Hm|]. split; [exact Hl|]. split; [exact linux_not_macos|].
  split.
  { intros e _ Hnm Hnl. rewrite Hm, Hl. split; intros Hin'%list_elem_of_In%filter_In;
      destruct Hin' as [_ Ht]; congruence. }
  rewrite Hm, Hl. unfold ctx, Homebrew.buildContext. destruct (fold_left _ _ _). simpl.
  repeat split; intros a Ha; by apply Hin.
Qed.

(** The theorem on a map with a macOS and a Windows build. *)
Lemma buildContext_groups_witness :
  let ctx := Homebrew.buildContext "myapp" "v1.0.0"
               [ ("darwin-arm64", Homebrew.mkAssetInfo "https://h/m" None None);
                 ("windows-x64", Homebrew.mkAssetInfo "https://h/w" None None) ]
               "" "" "MIT" "" false in
  ("darwin-arm64", Homebrew.mkAssetInfo "https://h/m" None None) ∈ Homebrew.macosAssets ctx
  ∧ (("windows-x64", Homebrew.mkAssetInfo "https://h/w" None None) ∉ Homebrew.macosAssets ctx)
  ∧ (("windows-x64", Homebrew.mkAssetInfo "https://h/w" None None) ∉ Homebrew.linuxAssets ctx).
Proof.
  intros ctx.
  destruct (buildContext_groups "myapp" "v1.0.0"
              [ ("darwin-arm64", Homebrew.mkAssetInfo "https://h/m" None None);
                ("windows-x64", Homebrew.mkAssetInfo "https://h/w" None None) ]
              "" "" "MIT" "" false) as (_ & _ & _ & Hother & Harm & _).
  split.
  - apply Harm. reflexivity.
  - apply Hother.
    + right. left.
    + reflexivity.
    + reflexivity.
Defined.

(** ** compute-checksums *)

Lemma usable_sidecar_hash content :
  Checksums.usable (sidecar_hash content) = sidecar_hash content.
Proof.
  destruct (sidecar_hash content) as [h|] eqn:E; [|done].
  apply sidecar_hash_length in E. by destruct h.
Qed.

Lemma usable_sidecar_of w target :
  Checksums.usable (sidecar_of w target) = sidecar_of w target.
Proof.
  destruct (sidecar_of w target) as [h|] eqn:E; [|done].
  apply sidecar_of_length in E. by destruct h.
Qed.

Lemma usable_file_sidecar w filepath :
  Checksums.usable (file_sidecar w filepath) = file_sidecar w filepath.
Proof.
  unfold file_sidecar. destruct (fs_readFile w _); [done|]. apply usable_sidecar_hash.
Qed.

Lemma hashFile_eq filepath alg w :
  Checksums.hashFile filepath alg w
  = match fs_readStream w filepath with
    | inr data => (Returned (crypto_digest w alg data),
                   [ EvReadStream filepath; EvDigest alg data ])
    | inl e => (Thrown e, [ EvReadStream filepath ])
    end.
Proof.
  unfold Checksums.hashFile. io_unfold. by destruct (fs_readStream w filepath).
Qed.

(** One iteration of [processFiles] on a path that is not skipped. *)
Lemma processFiles_step_eq w alg flag result filepath :
  JS.endsWith filepath ".sha256" = false →
  Checksums.processFiles_step alg flag result filepath w
  = (stored (JS.basename filepath) result (file_hash w alg flag filepath),
     ((if flag then [ EvReadFile (filepath ++ ".sha256") ] else [])
      ++ match (if flag then file_sidecar w filepath else None) with
         | Some _ => [ EvLog Info ("Read existing checksum for " ++ JS.basename filepath) ]
         | None =>
             EvLog Info ("Computing " ++ algorithm_name alg ++ " for "
                         ++ JS.basename filepath ++ "...")
             :: EvReadStream filepath
             :: match fs_readStream w filepath with
                | inr data => [ EvDigest alg data ]
                | inl _ => []
                end
         end)%list).
Proof.
  intros Hend. unfold Checksums.processFiles_step, file_hash. rewrite Hend.
  assert (Hcompute :
    (core_info ("Computing " ++ algorithm_name alg ++ " for " ++ JS.basename filepath ++ "...")
       ≫= λ _, Checksums.hashFile filepath alg
                 ≫= λ hash, mret (JS.obj_set (JS.basename filepath) hash result)) w
    = (stored (JS.basename filepath) result
         match fs_readStream w filepath with
         | inr data => inr (crypto_digest w alg data)
         | inl e => inl e
         end,
       EvLog Info ("Computing " ++ algorithm_name alg ++ " for " ++ JS.basename filepath ++ "...")
       :: EvReadStream filepath
       :: match fs_readStream w filepath with
          | inr data => [ EvDigest alg data ]
          | inl _ => []
          end)).
  { rewrite (io_bind_returned (core_info _) _ _ tt [EvLog Info _]) by done.
    pose proof (hashFile_eq filepath alg w) as Hh.
    destruct (fs_readStream w filepath) as [e|data].
    - by rewrite (io_bind_thrown _ _ _ _ _ Hh).
    - by rewrite (io_bind_returned _ _ _ _ _ Hh). }
  destruct flag.
  - rewrite (io_bind_returned _ _ _ _ _ (readSha256File_eq filepath w)).
    fold (file_sidecar w filepath). rewrite usable_file_sidecar.
    destruct (file_sidecar w filepath) as [h|]; [done|].
    cbv beta iota. by rewrite Hcompute.
  - by rewrite Hcompute.
Qed.

Lemma downloadUrl_eq url w :
  Checksums.downloadUrl url w
  = (match net_fetch w url with
     | inr r =>
         if resp_ok r then
           match resp_arrayBuffer r with
           | inr buffer => Returned buffer
           | inl e => Thrown e
           end
         else Thrown (new_Error ("Failed to download " ++ url ++ ": "
                                 ++ JS.show_N (resp_status r) ++ " " ++ resp_statusText r))
     | inl e => Thrown e
     end,
     [ EvLog Debug ("Downloading " ++ url); EvFetch url ]).
Proof.
  unfold Checksums.downloadUrl. io_unfold. simpl.
  destruct (net_fetch w url) as [e|r]; simpl; [done|].
  destruct (resp_ok r); simpl; [|done]. by destruct (resp_arrayBuffer r).
Qed.

(** One iteration of [processUrlMap]. *)
Lemma processUrlMap_step_eq w alg flag result identifier url :
  Checksums.processUrlMap_step alg flag result (identifier, url) w
  = (stored identifier result (url_hash w alg flag url),
     ((if flag then [ EvLog Debug ("Fetching SHA256 from " ++ url ++ ".sha256");
                      EvFetch (url ++ ".sha256") ] else [])
      ++ match (if flag then sidecar_of w (url ++ ".sha256") else None) with
         | Some _ => [ EvLog Info ("Fetched existing checksum for " ++ identifier) ]
         | None =>
             EvLog Info ("Downloading and computing " ++ algorithm_name alg ++ " for "
                         ++ identifier ++ "...")
             :: EvLog Debug ("Downloading " ++ url)
             :: EvFetch url
             :: download_digest w alg url
         end)%list).
Proof.
  unfold Checksums.processUrlMap_step, url_hash.
  assert (Hcompute :
    (core_info ("Downloading and computing " ++ algorithm_name alg ++ " for "
                ++ identifier ++ "...")
       ≫= λ _, Checksums.downloadUrl url
                 ≫= λ buffer, Checksums.hashBuffer buffer alg
                                ≫= λ hash, mret (JS.obj_set identifier hash result)) w
    = (stored identifier result
         match net_fetch w url with
         | inr r =>
             if resp_ok r then
               match resp_arrayBuffer r with
               | inr buffer => inr (crypto_digest w alg buffer)
               | inl e => inl e
               end
             else inl (new_Error ("Failed to download " ++ url ++ ": "
                                  ++ JS.show_N (resp_status r) ++ " " ++ resp_statusText r))
         | inl e => inl e
         end,
       EvLog Info ("Downloading and computing " ++ algorithm_name alg ++ " for "
                   ++ identifier ++ "...")
       :: EvLog Debug ("Downloading " ++ url)
       :: EvFetch url
       :: download_digest w alg url)).
  { rewrite (io_bind_returned (core_info _) _ _ tt [EvLog Info _]) by done.
    pose proof (downloadUrl_eq url w) as Hd. unfold download_digest.
    destruct (net_fetch w url) as [e|r].
    { by rewrite (io_bind_thrown _ _ _ _ _ Hd). }
    destruct (resp_ok r).
    2: { by rewrite (io_bind_thrown _ _ _ _ _ Hd). }
    destruct (resp_arrayBuffer r) as [e|buffer].
    { by rewrite (io_bind_thrown _ _ _ _ _ Hd). }
    rewrite (io_bind_returned _ _ _ _ _ Hd).
    rewrite (io_bind_returned (Checksums.hashBuffer buffer alg) _ _
               (crypto_digest w alg buffer) [EvDigest alg buffer]) by done.
    done. }
  destruct flag.
  - rewrite (io_bind_returned _ _ _ _ _ (fetchSha256FromUrl_eq url w)).
    rewrite usable_sidecar_of.
    destruct (sidecar_of w (url ++ ".sha256")) as [h|]; [done|].
    cbv beta iota. by rewrite Hcompute.
  - by rewrite Hcompute.
Qed.

(** One iteration of [processUrls] on a URL that parses is the iteration
    of [processUrlMap] on that URL, keyed by the base name of its path. *)
Lemma processUrls_step_keyed w alg flag result url pathname :
  url_pathname w url = inr pathname →
  Checksums.processUrls_step alg flag result url w
  = Checksums.processUrlMap_step alg flag result (JS.basename pathname, url) w.
Proof.
  intros Hpath. unfold Checksums.processUrls_step, Checksums.new_URL_pathname.
  rewrite (io_bind_returned _ _ _ pathname []); [|io_unfold; by rewrite Hpath].
  cbn [app]. symmetry. apply surjective_pairing.
Qed.

Lemma for_of_map {A B S} (body : S → A → IO S) (body' : S → B → IO S) (f : A → B) w l s :
  (∀ s x, x ∈ l → body s x w = body' s (f x) w) →
  for_of body l s w = for_of body' (f <$> l) s w.
Proof.
  revert s. induction l as [|x l IH]; intros s Hb; [done|].
  cbn [for_of fmap list_fmap]. unfold mbind, io_mbind, io_bind.
  rewrite (Hb s x) by left. destruct (body' s (f x) w) as [[s'|e] t]; [|done].
  rewrite IH; [done|]. intros s0 y Hy. apply Hb. by right.
Qed.

(** X7. [processUrls] is [processUrlMap] with every URL keyed by the
    base name of its path.  For a batch of URLs that parse and whose base
    names are pairwise distinct and not array indices, the URLs under
    their base names are the entries, in order, of the object that holds
    them, and on that object [processUrlMap] returns the same result or
    throws the same error as [processUrls] on the batch, with the same
    events.  (Two URLs with one base name have no such object: the batch
    then requests both, and the later one overwrites the earlier.) *)
Theorem processUrls_is_keyed_map (w : World) (urls : list string) (alg : HashAlgorithm)
    (flag : bool) :
  (∀ url, url ∈ urls → ∃ pathname, url_pathname w url = inr pathname) →
  enumeration (keyed w <$> urls) →
  Checksums.processUrls urls alg flag w
  = Checksums.processUrlMap (keyed w <$> urls) alg flag w.
Proof.
  intros Hvalid _. unfold Checksums.processUrls, Checksums.processUrlMap.
  apply for_of_map. intros s url Hurl. destruct (Hvalid url Hurl) as [pathname Hp].
  unfold keyed. rewrite Hp. by apply processUrls_step_keyed.
Qed.

Lemma processUrls_is_keyed_map_witness :
  Checksums.processUrls [ "https://h/d/a.tgz"; "https://h/e/b.zip" ] alg_sha256 true
    (world_of (λ _, inr (body lower_hash)) no_files [])
  = Checksums.processUrlMap
      [ ("a.tgz", "https://h/d/a.tgz"); ("b.zip", "https://h/e/b.zip") ] alg_sha256 true
      (world_of (λ _, inr (body lower_hash)) no_files []).
Proof.
  apply (processUrls_is_keyed_map (world_of (λ _, inr (body lower_hash)) no_files [])
           [ "https://h/d/a.tgz"; "https://h/e/b.zip" ] alg_sha256 true).
  - intros url Hurl. exists url. reflexivity.
  - split.
    + apply (bool_decide_unpack _). vm_compute. reflexivity.
    + repeat constructor.
Defined.

(** Two URLs with the same base name: [processUrls] requests both
    sidecars, and the later hash is the one kept. *)
Example processUrls_same_base_name :
  Checksums.processUrls [ "https://h/d/a.tgz"; "https://h/e/a.tgz" ] alg_sha256 true
    (world_of (λ target, if String.eqb target "https://h/d/a.tgz.sha256"
                         then inr (body (JS.toLowerCase "0123456789ABCDEF0123456789ABCDEF0123456789ABCDEF0123456789ABCDEF"))
                         else inr (body lower_hash))
              no_files [])
  = (Returned [ ("a.tgz", lower_hash) ],
     [ EvLog Debug "Fetching SHA256 from https://h/d/a.tgz.sha256";
       EvFetch "https://h/d/a.tgz.sha256";
       EvLog Info "Fetched existing checksum for a.tgz";
       EvLog Debug "Fetching SHA256 from https://h/e/a.tgz.sha256";
       EvFetch "https://h/e/a.tgz.sha256";
       EvLog Info "Fetched existing checksum for a.tgz" ]).
Proof. vm_compute. reflexivity. Qed.

Lemma for_of_inv {A S} (P : S → Prop) (body : S → A → IO S) w l s s' t :
  P s →
  (∀ s x s' t, x ∈ l → P s → body s x w = (Returned s', t) → P s') →
  for_of body l s w = (Returned s', t) → P s'.
Proof.
  revert s t. induction l as [|x l IH]; intros s t Hs Hbody; cbn [for_of].
  - by intros [= <- _].
  - unfold mbind, io_mbind, io_bind.
    destruct (body s x w) as [[s1|e] t1] eqn:Hx; [|done].
    destruct (for_of body l s1 w) as [o t2] eqn:Hrest. intros [= -> <-].
    apply (IH s1 t2); [|intros; eapply Hbody; eauto; by right|done].
    apply (Hbody s x s1 t1); [left|done|done].
Qed.

Lemma for_of_skip {A S} (body : S → A → IO S) (keep : A → bool) w l s :
  (∀ s x, keep x = false → body s x w = (Returned s, [])) →
  for_of body l s w = for_of body (List.filter keep l) s w.
Proof.
  intros Hskip. revert s. induction l as [|x l IH]; intros s; [done|].
  cbn [for_of List.filter]. destruct (keep x) eqn:Hk.
  - cbn [for_of]. unfold mbind, io_mbind, io_bind.
    destruct (body s x w) as [[s'|e] t]; [|done]. by rewrite IH.
  - rewrite (io_bind_returned _ _ _ _ _ (Hskip s x Hk)), IH.
    by destruct (for_of body _ s w).
Qed.

(** X8. Hashing is the fallback.  A file whose sidecar is missing,
    unreadable or not a hash, or any file when sidecars are switched off,
    is streamed and digested with the algorithm asked for, and the digest
    is assigned to the result under its base name; a URL in the same
    situation is downloaded and digested, and the digest assigned under
    its key.  After the assignment the result holds the digest under
    that name, unless the name is "__proto__": the digest is computed
    all the same, and the assignment stores nothing. *)
Theorem digest_is_the_fallback (w : World) (alg : HashAlgorithm) (flag : bool)
    (result : Checksums.ChecksumResult) :
  (∀ filepath data,
     JS.endsWith filepath ".sha256" = false →
     (flag = true → file_sidecar w filepath = None) →
     fs_readStream w filepath = inr data →
     fst (Checksums.processFiles_step alg flag result filepath w)
     = Returned (JS.obj_set (JS.basename filepath) (crypto_digest w alg data) result)
     ∧ EvReadStream filepath ∈ snd (Checksums.processFiles_step alg flag result filepath w)
     ∧ EvDigest alg data ∈ snd (Checksums.processFiles_step alg flag result filepath w))
  ∧ (∀ identifier url r buffer,
       (flag = true → sidecar_of w (url ++ ".sha256") = None) →
       net_fetch w url = inr r → resp_ok r = true → resp_arrayBuffer r = inr buffer →
       fst (Checksums.processUrlMap_step alg flag result (identifier, url) w)
       = Returned (JS.obj_set identifier (crypto_digest w alg buffer) result)
       ∧ EvFetch url ∈ snd (Checksums.processUrlMap_step alg flag result (identifier, url) w)
       ∧ EvDigest alg buffer
         ∈ snd (Checksums.processUrlMap_step alg flag result (identifier, url) w))
  ∧ (∀ key digest,
       (key ≠ "__proto__" → JS.obj_get key (JS.obj_set key digest result) = Some digest)
       ∧ (key = "__proto__" → JS.obj_set key digest result = result)).
Proof.
  split; [|split]; [| |intros key digest; split; [apply obj_get_set_eq|by intros ->]].
  - intros filepath data Hend Hside Hstream. rewrite processFiles_step_eq by done.
    unfold file_hash. rewrite Hstream.
    assert ((if flag then file_sidecar w filepath else None) = None) as ->
      by (destruct flag; auto).
    cbn [fst snd stored]. split; [done|].
    split; apply elem_of_app; right; [right; left|do 2 right; left].
  - intros identifier url r buffer Hside Hnet Hok Hbuf. rewrite processUrlMap_step_eq.
    unfold url_hash, download_digest. rewrite Hnet, Hok, Hbuf.
    assert ((if flag then sidecar_of w (url ++ ".sha256") else None) = None) as ->
      by (destruct flag; auto).
    cbn [fst snd stored]. split; [done|].
    split; apply elem_of_app; right; [do 2 right; left|do 3 right; left].
Qed.

(** The theorem on an archive without sidecar. *)
Lemma digest_is_the_fallback_witness :
  fst (Checksums.processFiles_step alg_sha512 true [] "dist/myapp.tar.gz"
         (world_of offline no_files [ "dist/myapp.tar.gz" ]))
  = Returned [ ("myapp.tar.gz", "digest") ].
Proof.
  destruct (digest_is_the_fallback (world_of offline no_files [ "dist/myapp.tar.gz" ])
              alg_sha512 true []) as [Hfile _].
  apply (Hfile "dist/myapp.tar.gz" []); reflexivity.
Defined.

(** A file named "__proto__": the digest is computed and logged, and the
    result stays empty. *)
Example processFiles_proto_file :
  Checksums.processFiles "dist/*" alg_sha256 false
    (world_of offline no_files [ "dist/__proto__" ])
  = (Returned [],
     [ EvGlob "dist/*";
       EvLog Info "Computing sha256 for __proto__...";
       EvReadStream "dist/__proto__";
       EvDigest alg_sha256 [] ]).
Proof. vm_compute. reflexivity. Qed.

(** X9. Local files are not isolated from each other either: once the
    files before it are done, a file that has to be hashed and whose
    stream fails makes [processFiles] throw the stream's error; the files
    after it are not touched and what was computed is lost. *)
Theorem processFiles_fail_fast (w : World) (patterns : string) (alg : HashAlgorithm)
    (flag : bool) (pre post : list string) (filepath : string)
    (done : Checksums.ChecksumResult) (t : list Event) (e : JsError) :
  glob_files w patterns = inr (pre ++ filepath :: post)%list →
  for_of (Checksums.processFiles_step alg flag) pre [] w = (Returned done, t) →
  JS.endsWith filepath ".sha256" = false →
  (flag = true → file_sidecar w filepath = None) →
  fs_readStream w filepath = inl e →
  Checksums.processFiles patterns alg flag w
  = (Thrown e,
     (EvGlob patterns :: t
      ++ (if flag then [ EvReadFile (filepath ++ ".sha256") ] else [])
      ++ [ EvLog Info ("Computing " ++ algorithm_name alg ++ " for "
                       ++ JS.basename filepath ++ "...");
           EvReadStream filepath ])%list).
Proof.
  intros Hglob Hpre Hend Hside Hstream. unfold Checksums.processFiles.
  rewrite (io_bind_returned _ _ _ (pre ++ filepath :: post)%list [EvGlob patterns]);
    [|io_unfold; by rewrite Hglob].
  cbv beta.
  assert (Hstep : Checksums.processFiles_step alg flag done filepath w
                  = (Thrown e,
                     ((if flag then [ EvReadFile (filepath ++ ".sha256") ] else [])
                      ++ [ EvLog Info ("Computing " ++ algorithm_name alg ++ " for "
                                       ++ JS.basename filepath ++ "...");
                           EvReadStream filepath ])%list)).
  { rewrite processFiles_step_eq by done. unfold file_hash. rewrite Hstream.
    assert ((if flag then file_sidecar w filepath else None) = None) as ->
      by (destruct flag; auto).
    done. }
  by rewrite (for_of_thrown _ _ _ _ post _ _ _ _ _ Hpre Hstep).
Qed.

Lemma processFiles_fail_fast_witness :
  Checksums.processFiles "dist/*" alg_sha256 true
    (mkWorld offline no_files (λ _, inl no_such) (λ _, inr 0%N)
             (λ _, inr [ "dist/a.zip"; "dist/b.zip" ]) (λ u, inr u) (λ _ _, "digest")
             (mkDate "" ""))
  = (Thrown no_such,
     [ EvGlob "dist/*"; EvReadFile "dist/a.zip.sha256";
       EvLog Info "Computing sha256 for a.zip..."; EvReadStream "dist/a.zip" ]).
Proof.
  apply (processFiles_fail_fast _ "dist/*" alg_sha256 true [] [ "dist/b.zip" ] "dist/a.zip"
           [] [] no_such); reflexivity.
Defined.

Lemma processFiles_step_keys w alg flag result filepath result' t k :
  Checksums.processFiles_step alg flag result filepath w = (Returned result', t) →
  k ∈ result'.*1 →
  k ∈ result.*1
  ∨ (not_sidecar filepath = true ∧ k = JS.basename filepath ∧ k ≠ "__proto__").
Proof.
  unfold not_sidecar. destruct (JS.endsWith filepath ".sha256") eqn:Hend.
  - unfold Checksums.processFiles_step. rewrite Hend. intros [= <- _]. by left.
  - rewrite processFiles_step_eq by done.
    destruct (file_hash w alg flag filepath) as [e|h]; [done|]. cbn [stored].
    intros [= <- _] [[-> ?]|?]%obj_set_keys; [by right|by left].
Qed.

Lemma processFiles_step_NoDup w alg flag result filepath result' t :
  Checksums.processFiles_step alg flag result filepath w = (Returned result', t) →
  NoDup result.*1 → NoDup result'.*1.
Proof.
  destruct (JS.endsWith filepath ".sha256") eqn:Hend.
  - unfold Checksums.processFiles_step. rewrite Hend. by intros [= <- _].
  - rewrite processFiles_step_eq by done.
    destruct (file_hash w alg flag filepath) as [e|h]; [done|]. cbn [stored].
    intros [= <- _]. apply obj_set_NoDup.
Qed.

(** X10. Sidecar files among the files found are passed over without any
    reading: [processFiles] does what it would do had the glob not found
    them.  When it returns, the result has one entry per key, and every
    key is the base name of a file found that is not a sidecar; no key
    is "__proto__", a name under which an assignment stores nothing. *)
Theorem processFiles_skips_sidecars (w : World) (patterns : string) (alg : HashAlgorithm)
    (flag : bool) (files : list string) :
  glob_files w patterns = inr files →
  Checksums.processFiles patterns alg flag w
  = (fst (for_of (Checksums.processFiles_step alg flag) (List.filter not_sidecar files) [] w),
     EvGlob patterns
     :: snd (for_of (Checksums.processFiles_step alg flag) (List.filter not_sidecar files) [] w))
  ∧ (∀ result,
       fst (Checksums.processFiles patterns alg flag w) = Returned result →
       NoDup result.*1
       ∧ ∀ k, k ∈ result.*1 →
              k ≠ "__proto__"
              ∧ ∃ filepath, filepath ∈ files ∧ not_sidecar filepath = true
                            ∧ k = JS.basename filepath).
Proof.
  intros Hglob.
  assert (Heq : Checksums.processFiles patterns alg flag w
                = (fst (for_of (Checksums.processFiles_step alg flag) files [] w),
                   EvGlob patterns
                   :: snd (for_of (Checksums.processFiles_step alg flag) files [] w))).
  { unfold Checksums.processFiles.
    by rewrite (io_bind_returned _ _ _ files [EvGlob patterns]);
      [|io_unfold; by rewrite Hglob]. }
  split.
  - rewrite Heq.
    rewrite (for_of_skip (Checksums.processFiles_step alg flag) not_sidecar w files []); [done|].
    intros s x Hx. unfold not_sidecar in Hx. apply negb_false_iff in Hx.
    unfold Checksums.processFiles_step. by rewrite Hx.
  - intros result. rewrite Heq. cbn [fst].
    destruct (for_of (Checksums.processFiles_step alg flag) files [] w) as [o t] eqn:Hloop.
    cbn [fst]. intros ->. split.
    + apply (for_of_inv (λ s : Checksums.ChecksumResult, NoDup s.*1)
               (Checksums.processFiles_step alg flag) w files [] result t);
        [apply NoDup_nil_2| |done].
      intros s x s' t' _ Hs Hstep. by apply (processFiles_step_NoDup _ _ _ _ _ _ _ Hstep).
    + apply (for_of_inv
               (λ s : Checksums.ChecksumResult,
                  ∀ k, k ∈ s.*1 →
                       k ≠ "__proto__"
                       ∧ ∃ filepath, filepath ∈ files ∧ not_sidecar filepath = true
                                     ∧ k = JS.basename filepath)
               (Checksums.processFiles_step alg flag) w files [] result t);
        [by intros k ?%elem_of_nil| |done].
      intros s x s' t' Hx Hs Hstep k Hk.
      destruct (processFiles_step_keys _ _ _ _ _ _ _ _ Hstep Hk) as [?|(? & Hkx & ?)];
        [by apply Hs|].
      split; [done|]. by exists x.
Qed.

Lemma processFiles_skips_sidecars_witness :
  Checksums.processFiles "dist/*" alg_sha256 true dist_sidecar_only
  = (Returned [], [ EvGlob "dist/*" ]).
Proof.
  destruct (processFiles_skips_sidecars dist_sidecar_only "dist/*" alg_sha256 true
              [ "dist/a.sha256" ]) as [Heq _].
  - reflexivity.
  - exact Heq.
Defined.

(** X11. A URL that does not parse stops [processUrls] before anything is
    requested for it: the error of the URL constructor is thrown, the log
    holds the events of the URLs before it and nothing else. *)
Theorem processUrls_invalid_url (w : World) (alg : HashAlgorithm) (flag : bool)
    (pre post : list string) (url : string) (done : Checksums.ChecksumResult)
    (t : list Event) (e : JsError) :
  Checksums.processUrls pre alg flag w = (Returned done, t) →
  url_pathname w url = inl e →
  Checksums.processUrls (pre ++ url :: post) alg flag w = (Thrown e, t).
Proof.
  intros Hpre Hurl. unfold Checksums.processUrls in *.
  assert (Hstep : Checksums.processUrls_step alg flag done url w = (Thrown e, [])).
  { unfold Checksums.processUrls_step, Checksums.new_URL_pathname.
    apply io_bind_thrown. io_unfold. by rewrite Hurl. }
  by rewrite (for_of_thrown _ _ _ _ post _ _ _ _ _ Hpre Hstep), app_nil_r.
Qed.

Lemma processUrls_invalid_url_witness :
  Checksums.processUrls [ "not a url"; "https://h/b.tgz" ] alg_sha256 true
    (mkWorld (λ _, inr (body lower_hash)) no_files (λ _, inr []) (λ _, inr 0%N)
             (λ _, inr []) (λ _, inl (mkError "TypeError" "Invalid URL")) (λ _ _, "digest")
             (mkDate "" ""))
  = (Thrown (mkError "TypeError" "Invalid URL"), []).
Proof.
  apply (processUrls_invalid_url _ alg_sha256 true [] [ "https://h/b.tgz" ] "not a url" [] []);
    reflexivity.
Defined.



(** ** The sidecar parser *)

Lemma hex_lower_char c :
  JS.is_hex c = true → JS.lower_char c ∈ list_ascii_of_string "0123456789abcdef".
Proof.
  destruct c as [[] [] [] [] [] [] [] []]; vm_compute; try discriminate; intros _;
    repeat first [apply list_elem_of_here | apply list_elem_of_further].
Qed.

Lemma lower_hex_all_hex h : lower_hex h → all_hex h.
Proof.
  unfold lower_hex, all_hex. intros H. eapply Forall_impl; [exact H|].
  intros c Hc. simpl in Hc.
  repeat (apply elem_of_cons in Hc as [->|Hc];
          [repeat first [apply list_elem_of_here | apply list_elem_of_further]|]).
  by apply elem_of_nil in Hc.
Qed.

Lemma sidecar_hash_lower_hex content h : sidecar_hash content = Some h → lower_hex h.
Proof.
  unfold sidecar_hash, JS.match_sha256, lower_hex.
  destruct (JS.take_while_n _ _ _) as [m|] eqn:E; [|done]. intros [= <-].
  apply take_while_n_all in E. clear -E.
  induction m as [|c m IH]; simpl in *; [constructor|].
  apply Forall_cons in E as [Hc E]. constructor; [by apply hex_lower_char|by apply IH].
Qed.

(** X13. The sidecar parser answers with 64 characters out of 0-9 and
    a-f or not at all.  It reads back the line that a checksum tool
    writes for such a hash (hash, two spaces, file name, newline); it
    reads its own answer back unchanged; white space in front of the
    hash is ignored; and content of fewer than 64 characters is never a
    hash. *)
Theorem sidecar_hash_shape :
  (∀ content h, sidecar_hash content = Some h → String.length h = 64 ∧ lower_hex h)
  ∧ (∀ h name, String.length h = 64 → lower_hex h →
               sidecar_hash (sidecar_line h name) = Some h)
  ∧ (∀ content h, sidecar_hash content = Some h → sidecar_hash h = Some h)
  ∧ (∀ c content, JS.is_white c = true →
                  sidecar_hash (String c content) = sidecar_hash content)
  ∧ (∀ content, (String.length content < 64)%nat → sidecar_hash content = None).
Proof.
  assert (Hback : ∀ h rest, String.length h = 64 → lower_hex h →
                            sidecar_hash (h ++ rest) = Some h).
  { intros h rest Hlen Hh. rewrite sidecar_hash_hex; [|done|by apply lower_hex_all_hex].
    f_equal. by apply toLowerCase_lower_hex. }
  split; [|split; [|split; [|split]]].
  - intros content h Hh. split; [by apply sidecar_hash_length in Hh|].
    by apply sidecar_hash_lower_hex in Hh.
  - intros h name. apply Hback.
  - intros content h Hh. rewrite <- (append_nil_r h) at 1.
    apply Hback; [by apply sidecar_hash_length in Hh|by apply sidecar_hash_lower_hex in Hh].
  - intros c content Hc. unfold sidecar_hash, JS.trim. simpl. by rewrite Hc.
  - intros content Hlen. destruct (sidecar_hash content) as [h|] eqn:E; [|done].
    exfalso. unfold sidecar_hash, JS.match_sha256 in E.
    destruct (JS.take_while_n _ _ _) as [m|] eqn:Em; [|done].
    assert (Hpre : ∀ p n s m', JS.take_while_n p n s = Some m' → (n ≤ String.length s)%nat).
    { clear. intros p n. induction n as [|n IH]; intros s m'; simpl; [lia|].
      destruct s as [|c r]; [done|]. destruct (p c); [|done].
      destruct (JS.take_while_n p n r) as [m0|] eqn:E0; [|done].
      intros _. simpl. apply IH in E0. lia. }
    apply Hpre in Em.
    assert (Htrim : ∀ s, (String.length (JS.trim s) ≤ String.length s)%nat).
    { clear. intros s. unfold JS.trim.
      assert (∀ t, (String.length (JS.trimEnd t) ≤ String.length t)%nat) as He.
      { induction t as [|c t IH]; simpl; [lia|].
        destruct (JS.trimEnd t); [destruct (JS.is_white c); simpl; lia|simpl in *; lia]. }
      assert (∀ t, (String.length (JS.trimStart t) ≤ String.length t)%nat) as Hs.
      { induction t as [|c t IH]; simpl; [lia|]. destruct (JS.is_white c); simpl; lia. }
      specialize (He (JS.trimStart s)). specialize (Hs s). lia. }
    specialize (Htrim content). lia.
Qed.

Lemma sidecar_hash_shape_witness :
  sidecar_hash (sidecar_line lower_hash "myapp.tar.gz") = Some lower_hash
  ∧ sidecar_hash "deadbeef" = None.
Proof.
  destruct sidecar_hash_shape as (_ & Hline & _ & _ & Hshort). split.
  - apply Hline; [reflexivity|].
    unfold lower_hex. apply (bool_decide_unpack _). vm_compute. reflexivity.
  - apply Hshort. vm_compute. lia.
Defined.

(** ** release-notes *)

Lemma platform_of_arch_table table archName p :
  ReleaseNotes.platform_of_arch table archName = Some p →
  ∃ pat, (ReleaseNotes.id p, pat) ∈ ReleaseNotes.PLATFORM_PATTERNS
         ∧ p = ReleaseNotes.with_id (ReleaseNotes.id p) pat.
Proof.
  rewrite platform_of_arch_own. destruct (table !! archName) as [pid|]; [|done].
  cbn [mbind option_bind]. destruct (JS.truthy pid); [|done].
  destruct (JS.obj_get pid ReleaseNotes.PLATFORM_PATTERNS) as [pat|] eqn:E; [|done].
  intros [= <-]. exists pat. split; [|done]. by apply obj_get_Some_key.
Qed.

Lemma detectPlatform_in_table f proj p :
  ReleaseNotes.detectPlatform f proj = Some p →
  ∃ pat, (ReleaseNotes.id p, pat) ∈ ReleaseNotes.PLATFORM_PATTERNS
         ∧ p = ReleaseNotes.with_id (ReleaseNotes.id p) pat.
Proof.
  unfold ReleaseNotes.detectPlatform.
  destruct (find _ _) as [[i pat]|] eqn:E.
  - intros [= <-]. exists pat. split; [|done].
    apply find_some in E as [Hin _]. by apply list_elem_of_In.
  - destruct (JS.search ReleaseNotes.deb_here _ ≫= _) as [q|] eqn:Ed.
    + intros [= <-]. destruct (JS.search ReleaseNotes.deb_here _) as [a|]; [|done].
      by apply platform_of_arch_table in Ed.
    + destruct (JS.search ReleaseNotes.rpm_here _) as [a|]; [|done].
      apply platform_of_arch_table.
Qed.

Lemma detectPlatform_table_cases f proj p :
  ReleaseNotes.detectPlatform f proj = Some p →
  ReleaseNotes.os p ∈ table_systems
  ∧ ((ReleaseNotes.id p ∈ ReleaseNotes.platformOrder
      ∧ ¬ (ReleaseNotes.id p = "linux-arm64" ∨ ReleaseNotes.id p = "windows-aarch64"))
     ∨ ((ReleaseNotes.id p ∉ ReleaseNotes.platformOrder)
        ∧ (ReleaseNotes.id p = "linux-arm64" ∨ ReleaseNotes.id p = "windows-aarch64"))).
Proof.
  intros (pat & Hin & Hp)%detectPlatform_in_table.
  rewrite Hp. revert Hin. generalize (ReleaseNotes.id p). intros i Hin.
  unfold ReleaseNotes.PLATFORM_PATTERNS in Hin.
  repeat (apply elem_of_cons in Hin as [[= -> ->]|Hin];
          [split; [apply (bool_decide_unpack _); by vm_compute|];
           first [ left; split; [apply (bool_decide_unpack _); by vm_compute
                                |intros [?|?]; discriminate]
                 | right; split; [apply (bool_decide_unpack _); by vm_compute|auto] ]|]).
  by apply elem_of_nil in Hin.
Qed.

(** X14. Whatever the file name, a platform that [detectPlatform]
    returns is an entry of the platform table, carrying that entry's own
    description: its system is Linux, macOS or Windows, and its id either
    has a place in the display order or is linux-arm64 or
    windows-aarch64, the two table ids that the display order leaves
    out and that therefore sort last. *)
Theorem detectPlatform_table_entry (f proj : string) (p : ReleaseNotes.Platform) :
  ReleaseNotes.detectPlatform f proj = Some p →
  (∃ pat, (ReleaseNotes.id p, pat) ∈ ReleaseNotes.PLATFORM_PATTERNS
          ∧ p = ReleaseNotes.with_id (ReleaseNotes.id p) pat)
  ∧ ReleaseNotes.os p ∈ table_systems
  ∧ (ReleaseNotes.id p ∈ ReleaseNotes.platformOrder
     ∨ ReleaseNotes.id p = "linux-arm64" ∨ ReleaseNotes.id p = "windows-aarch64")
  ∧ (∀ a, ReleaseNotes.platform a = p →
          ReleaseNotes.orderIndex a = 999%Z
          ↔ ReleaseNotes.id p = "linux-arm64" ∨ ReleaseNotes.id p = "windows-aarch64").
Proof.
  intros Hdet. pose proof (detectPlatform_table_cases _ _ _ Hdet) as Hcases.
  apply detectPlatform_in_table in Hdet as (pat & Hin & Hp).
  split; [by exists pat|].
  destruct Hcases as [Hos Hid]. split; [done|]. split.
  - destruct Hid as [[? _]|[_ [?|?]]]; auto.
  - intros a <-. rewrite <- unlisted_iff. unfold listed.
    destruct Hid as [[? ?]|[? ?]]; split; intros; try done.
Qed.

Lemma detectPlatform_table_entry_witness :
  ReleaseNotes.os (ReleaseNotes.with_id "linux-arm64"
                     (ReleaseNotes.mkPattern "Linux" "" "arm64" "ARM64" None "Linux ARM64"))
  ∈ table_systems.
Proof.
  destruct (detectPlatform_table_entry "app-linux-arm64.tar.gz" "app"
              (ReleaseNotes.with_id "linux-arm64"
                 (ReleaseNotes.mkPattern "Linux" "" "arm64" "ARM64" None "Linux ARM64")))
    as (_ & Hos & _).
  - reflexivity.
  - exact Hos.
Defined.

Lemma discovered_asset_spec w projectName filepath a :
  a ∈ discovered_asset w projectName filepath →
  classified projectName filepath = true
  ∧ ReleaseNotes.filename a = JS.basename filepath
  ∧ ReleaseNotes.detectPlatform (JS.basename filepath) projectName
    = Some (ReleaseNotes.platform a)
  ∧ ReleaseNotes.type a = ReleaseNotes.getAssetType (JS.basename filepath)
  ∧ ReleaseNotes.extension a = ReleaseNotes.getExtension (JS.basename filepath)
  ∧ ReleaseNotes.size a
    = match fs_stat_size w filepath with inr n => Some n | inl _ => None end
  ∧ ReleaseNotes.sha256 a = file_sidecar w filepath.
Proof.
  unfold discovered_asset, classified, not_sidecar, file_sidecar.
  destruct (JS.endsWith filepath ".sha256"); [by intros ?%elem_of_nil|].
  destruct (ReleaseNotes.detectPlatform _ _) as [p|]; [|by intros ?%elem_of_nil].
  intros ->%list_elem_of_singleton. done.
Qed.

Lemma discovered_filenames w projectName files :
  ReleaseNotes.filename <$> discovered w projectName files
  = JS.basename <$> List.filter (classified projectName) files.
Proof.
  unfold discovered. induction files as [|f files IH]; [done|].
  cbn [fmap list_fmap List.concat List.filter]. rewrite fmap_app, IH.
  unfold discovered_asset, classified, not_sidecar.
  destruct (JS.endsWith f ".sha256"); [done|].
  by destruct (ReleaseNotes.detectPlatform _ _).
Qed.

Lemma discovery_warning w projectName filepath :
  not_sidecar filepath = true →
  ReleaseNotes.detectPlatform (JS.basename filepath) projectName = None →
  discovery_events w projectName filepath
  = [ EvLog Warning ("Could not detect platform for: " ++ JS.basename filepath) ].
Proof.
  unfold not_sidecar, discovery_events, ReleaseNotes.discoverAssets_step.
  intros ->%negb_true_iff ->. done.
Qed.

(** X15. Discovery fails only with the glob.  Once the glob has answered,
    [discoverAssets] returns; its assets are, up to the final sorting,
    the classifiable files that are not sidecars, in the order of the
    glob and under their base names; each asset takes platform, type and
    extension from its name, its size from the file system and its hash
    from its sidecar, a failed stat or an unusable sidecar leaving the
    field absent; and each file that cannot be classified draws a
    warning.  When the glob rejects, its error is thrown. *)
Theorem discoverAssets_contents (w : World) (assetsDir projectName : string) :
  (∀ files,
     glob_files w (asset_patterns assetsDir) = inr files →
     ∃ assets log,
       ReleaseNotes.discoverAssets assetsDir projectName w = (Returned assets, log)
       ∧ assets ≡ₚ discovered w projectName files
       ∧ ReleaseNotes.filename <$> discovered w projectName files
         = JS.basename <$> List.filter (classified projectName) files
       ∧ (∀ a, a ∈ assets →
            ∃ filepath,
              filepath ∈ files
              ∧ classified projectName filepath = true
              ∧ ReleaseNotes.filename a = JS.basename filepath
              ∧ ReleaseNotes.detectPlatform (JS.basename filepath) projectName
                = Some (ReleaseNotes.platform a)
              ∧ ReleaseNotes.type a = ReleaseNotes.getAssetType (JS.basename filepath)
              ∧ ReleaseNotes.extension a = ReleaseNotes.getExtension (JS.basename filepath)
              ∧ ReleaseNotes.size a
                = match fs_stat_size w filepath with inr n => Some n | inl _ => None end
              ∧ ReleaseNotes.sha256 a = file_sidecar w filepath)
       ∧ (∀ filepath,
            filepath ∈ files → not_sidecar filepath = true →
            ReleaseNotes.detectPlatform (JS.basename filepath) projectName = None →
            EvLog Warning ("Could not detect platform for: " ++ JS.basename filepath) ∈ log))
  ∧ (∀ e, glob_files w (asset_patterns assetsDir) = inl e →
          ReleaseNotes.discoverAssets assetsDir projectName w
          = (Thrown e, [ EvGlob (asset_patterns assetsDir) ])).
Proof.
  split.
  - intros files Hglob. eexists _, _. split; [by apply discoverAssets_eq|].
    split; [apply (sort_perm ReleaseNotes.compareAssets)|].
    split; [apply discovered_filenames|]. split.
    + intros a Ha. rewrite (sort_perm ReleaseNotes.compareAssets) in Ha.
      unfold discovered in Ha. apply list_elem_of_In, in_concat in Ha as (l & Hl & Ha).
      apply list_elem_of_In, list_elem_of_fmap in Hl as (filepath & -> & Hf).
      exists filepath. split; [done|].
      by apply (discovered_asset_spec w), list_elem_of_In.
    + intros filepath Hf Hns Hnone. right. apply elem_of_app. left.
      apply list_elem_of_In, in_concat. exists (discovery_events w projectName filepath).
      split.
      * apply list_elem_of_In, list_elem_of_fmap. by exists filepath.
      * rewrite discovery_warning by done. by left.
  - intros e Hglob. unfold ReleaseNotes.discoverAssets. fold (asset_patterns assetsDir).
    apply io_bind_thrown. io_unfold. by rewrite Hglob.
Qed.

Lemma discoverAssets_contents_witness :
  ∃ assets log,
    ReleaseNotes.discoverAssets "r" "app" release_dir = (Returned assets, log)
    ∧ EvLog Warning "Could not detect platform for: notes.tar.gz" ∈ log.
Proof.
  destruct (discoverAssets_contents release_dir "r" "app") as [Hok _].
  destruct (Hok [ "r/app-windows-aarch64.zip"; "r/app-darwin-arm64.tar.gz"; "r/notes.tar.gz";
                  "r/app-linux-arm64.tar.gz"; "r/app-linux-amd64.tar.gz" ])
    as (assets & log & E & _ & _ & _ & Hwarn).
  - reflexivity.
  - exists assets, log. split; [exact E|].
    apply (Hwarn "r/notes.tar.gz").
    + do 2 right. left.
    + reflexivity.
    + reflexivity.
Defined.

Lemma filter3_perm {A} (p1 p2 p3 : A → bool) (l : list A) :
  (∀ x, x ∈ l →
     (p1 x = true ∧ p2 x = false ∧ p3 x = false)
     ∨ (p1 x = false ∧ p2 x = true ∧ p3 x = false)
     ∨ (p1 x = false ∧ p2 x = false ∧ p3 x = true)) →
  (List.filter p1 l ++ List.filter p2 l ++ List.filter p3 l)%list ≡ₚ l.
Proof.
  induction l as [|x l IH]; intros Hone; [done|].
  cbn [List.filter].
  assert (Hl : (List.filter p1 l ++ List.filter p2 l ++ List.filter p3 l)%list ≡ₚ l).
  { apply IH. intros y Hy. apply Hone. by right. }
  destruct (Hone x) as [(-> & -> & ->)|[(-> & -> & ->)|(-> & -> & ->)]]; [left|..];
    cbn [app].
  - by rewrite Hl.
  - rewrite <- Permutation_middle. by rewrite Hl.
  - rewrite app_assoc, <- Permutation_middle, <- app_assoc. by rewrite Hl.
Qed.

Lemma StronglySorted_list_filter {A} (R : relation A) (p : A → bool) l :
  StronglySorted R l → StronglySorted R (List.filter p l).
Proof.
  induction 1 as [|x l Hl IH Hx]; [constructor|]. cbn [List.filter].
  destruct (p x); [|done]. constructor; [done|].
  apply Forall_forall. intros y Hy%list_elem_of_In%filter_In. destruct Hy as [Hy _].
  rewrite Forall_forall in Hx. by apply Hx, list_elem_of_In.
Qed.

Lemma has_type_one a :
  (ReleaseNotes.has_type ReleaseNotes.binary a = true
   ∧ ReleaseNotes.has_type ReleaseNotes.deb a = false
   ∧ ReleaseNotes.has_type ReleaseNotes.rpm a = false)
  ∨ (ReleaseNotes.has_type ReleaseNotes.binary a = false
     ∧ ReleaseNotes.has_type ReleaseNotes.deb a = true
     ∧ ReleaseNotes.has_type ReleaseNotes.rpm a = false)
  ∨ (ReleaseNotes.has_type ReleaseNotes.binary a = false
     ∧ ReleaseNotes.has_type ReleaseNotes.deb a = false
     ∧ ReleaseNotes.has_type ReleaseNotes.rpm a = true).
Proof. unfold ReleaseNotes.has_type. destruct (ReleaseNotes.type a); auto. Qed.

Lemma on_os_one a :
  ReleaseNotes.os (ReleaseNotes.platform a) ∈ table_systems →
  (ReleaseNotes.on_os "Linux" a = true ∧ ReleaseNotes.on_os "macOS" a = false
   ∧ ReleaseNotes.on_os "Windows" a = false)
  ∨ (ReleaseNotes.on_os "Linux" a = false ∧ ReleaseNotes.on_os "macOS" a = true
     ∧ ReleaseNotes.on_os "Windows" a = false)
  ∨ (ReleaseNotes.on_os "Linux" a = false ∧ ReleaseNotes.on_os "macOS" a = false
     ∧ ReleaseNotes.on_os "Windows" a = true).
Proof.
  unfold ReleaseNotes.on_os, table_systems. intros H.
  repeat (apply elem_of_cons in H as [->|H]; [auto|]). by apply elem_of_nil in H.
Qed.

(** X16. The groups of the release context divide the sorted assets
    twice without loss or overlap: by package type into binaries, DEB and
    RPM packages, and by operating system into Linux, macOS and Windows
    assets.  Every group keeps the display order, and a package is a DEB
    package exactly when its name ends in [.deb]. *)
Theorem releaseContext_partitions (w : World) (version assetsDir projectName
    projectDescription repository : string) (isPrerelease : bool)
    (buildStatus : ReleaseNotes.BuildStatus) (workflowRunId : string)
    (files : list string) :
  glob_files w (asset_patterns assetsDir) = inr files →
  ∃ ctx log,
    ReleaseNotes.buildContext version assetsDir projectName projectDescription
      repository isPrerelease buildStatus workflowRunId w = (Returned ctx, log)
    ∧ let assets := JS.sort ReleaseNotes.compareAssets (discovered w projectName files) in
      (ReleaseNotes.binaries ctx ++ ReleaseNotes.debPackages ctx
       ++ ReleaseNotes.rpmPackages ctx)%list ≡ₚ assets
      ∧ (ReleaseNotes.linuxAssets ctx ++ ReleaseNotes.macosAssets ctx
         ++ ReleaseNotes.windowsAssets ctx)%list ≡ₚ assets
      ∧ Forall (StronglySorted display_le)
          [ ReleaseNotes.binaries ctx; ReleaseNotes.debPackages ctx;
            ReleaseNotes.rpmPackages ctx; ReleaseNotes.linuxAssets ctx;
            ReleaseNotes.macosAssets ctx; ReleaseNotes.windowsAssets ctx ]
      ∧ (∀ a, a ∈ ReleaseNotes.debPackages ctx
              ↔ a ∈ assets ∧ JS.endsWith (ReleaseNotes.filename a) ".deb" = true).
Proof.
  intros Hglob. unfold ReleaseNotes.buildContext.
  rewrite (io_bind_returned _ _ _ _ _ (discoverAssets_eq w assetsDir projectName files Hglob)).
  rewrite (io_bind_returned new_Date _ _ (clock_now w) []) by done.
  eexists _, _. split; [reflexivity|]. cbn [fst].
  cbn [ReleaseNotes.binaries ReleaseNotes.debPackages ReleaseNotes.rpmPackages
       ReleaseNotes.linuxAssets ReleaseNotes.macosAssets ReleaseNotes.windowsAssets].
  set (assets := JS.sort ReleaseNotes.compareAssets (discovered w projectName files)).
  assert (Hsorted : StronglySorted display_le assets)
    by apply (sort_sorted ReleaseNotes.orderIndex ReleaseNotes.compareAssets (λ _ _, eq_refl)).
  assert (Hfrom : ∀ a, a ∈ assets →
            ∃ filepath, a ∈ discovered_asset w projectName filepath).
  { intros a Ha. unfold assets in Ha. rewrite (sort_perm ReleaseNotes.compareAssets) in Ha.
    apply list_elem_of_In, in_concat in Ha as (l & Hl & Ha).
    apply list_elem_of_In, list_elem_of_fmap in Hl as (filepath & -> & _).
    exists filepath. by apply list_elem_of_In. }
  split; [apply filter3_perm; intros a _; apply has_type_one|].
  split.
  { apply filter3_perm. intros a (filepath & Ha)%Hfrom. apply on_os_one.
    apply discovered_asset_spec in Ha as (_ & _ & Hdet & _).
    by apply detectPlatform_table_cases in Hdet as [? _]. }
  split.
  { repeat (constructor; [by apply StronglySorted_list_filter|]). constructor. }
  intros a. split.
  - intros [Ha Ht]%list_elem_of_In%filter_In. apply list_elem_of_In in Ha.
    split; [done|]. destruct (Hfrom a Ha) as (filepath & Hd).
    apply discovered_asset_spec in Hd as (_ & -> & _ & Htype & _).
    unfold ReleaseNotes.has_type in Ht. rewrite Htype in Ht.
    unfold ReleaseNotes.getAssetType in Ht.
    destruct (JS.endsWith (JS.basename filepath) ".deb"); [done|].
    by destruct (JS.endsWith (JS.basename filepath) ".rpm").
  - intros [Ha Hend]. apply list_elem_of_In, filter_In.
    split; [by apply list_elem_of_In|]. destruct (Hfrom a Ha) as (filepath & Hd).
    apply discovered_asset_spec in Hd as (_ & Hname & _ & Htype & _).
    unfold ReleaseNotes.has_type. rewrite Htype. unfold ReleaseNotes.getAssetType.
    by rewrite <- Hname, Hend.
Qed.

Lemma releaseContext_partitions_witness :
  ∃ ctx log,
    ReleaseNotes.buildContext "v1.0.0" "r" "app" "" "o/app" false [] "" release_dir
    = (Returned ctx, log)
    ∧ (ReleaseNotes.linuxAssets ctx ++ ReleaseNotes.macosAssets ctx
       ++ ReleaseNotes.windowsAssets ctx)%list
      ≡ₚ JS.sort ReleaseNotes.compareAssets
           (discovered release_dir "app"
              [ "r/app-windows-aarch64.zip"; "r/app-darwin-arm64.tar.gz"; "r/notes.tar.gz";
                "r/app-linux-arm64.tar.gz"; "r/app-linux-amd64.tar.gz" ]).
Proof.
  destruct (releaseContext_partitions release_dir "v1.0.0" "r" "app" "" "o/app" false [] ""
              [ "r/app-windows-aarch64.zip"; "r/app-darwin-arm64.tar.gz"; "r/notes.tar.gz";
                "r/app-linux-arm64.tar.gz"; "r/app-linux-amd64.tar.gz" ])
    as (ctx & log & E & _ & Hos & _).
  - reflexivity.
  - exists ctx, log. split; [exact E|exact Hos].
Defined.

Lemma includes_char_cons c d s :
  JS.includes (String d s) (String c "") = Ascii.eqb c d || JS.includes s (String c "").
Proof.
  cbn [JS.includes JS.startsWith]. destruct (Ascii.eqb c d); [by destruct s|done].
Qed.

Lemma includes_char_app c a b :
  JS.includes (a ++ b) (String c "") = JS.includes a (String c "") || JS.includes b (String c "").
Proof.
  induction a as [|d a IH].
  - by destruct b.
  - rewrite append_cons, !includes_char_cons, IH. by rewrite orb_assoc.
Qed.

Lemma from_last_dot_none s : JS.includes s "." = false → JS.from_last_dot s = None.
Proof.
  induction s as [|c s IH]; [done|]. rewrite includes_char_cons.
  intros [Hc Hs]%orb_false_iff. cbn [JS.from_last_dot]. rewrite IH by done.
  by rewrite Ascii.eqb_sym, Hc.
Qed.

Lemma from_last_dot_app x e :
  JS.includes e "." = false → JS.from_last_dot (x ++ "." ++ e) = Some ("." ++ e).
Proof.
  intros He. induction x as [|c x IH].
  - change ("" ++ "." ++ e) with (String "." e). cbn [JS.from_last_dot].
    by rewrite from_last_dot_none.
  - rewrite append_cons. cbn [JS.from_last_dot]. by rewrite IH.
Qed.

Lemma endsWith_no_dot s suffix :
  JS.includes s "." = false → JS.includes suffix "." = true → JS.endsWith s suffix = false.
Proof.
  intros Hs Hsuf. apply not_true_iff_false. intros Hends. revert Hs.
  induction s as [|c s IH]; cbn [JS.endsWith] in Hends.
  - rewrite orb_false_r in Hends. apply String.eqb_eq in Hends. subst. by rewrite Hsuf.
  - apply orb_true_iff in Hends as [E%String.eqb_eq|Hends]; [subst; by rewrite Hsuf|].
    rewrite includes_char_cons. intros [_ ?]%orb_false_iff. by apply IH.
Qed.

(** X17. [getExtension] answers "tar.gz" and "tar.xz" for every name
    with that ending, whatever precedes it.  For any other plain name
    (no slash) it answers the text after the last dot, without the dot;
    and it answers the empty string for a name without any dot and for a
    name whose only dot is its first character. *)
Theorem getExtension_cases :
  (∀ stem, ReleaseNotes.getExtension (stem ++ ".tar.gz") = "tar.gz")
  ∧ (∀ stem, ReleaseNotes.getExtension (stem ++ ".tar.xz") = "tar.xz")
  ∧ (∀ stem e,
       stem ≠ "" → e ≠ "" →
       JS.includes stem "/" = false → JS.includes e "/" = false →
       JS.includes e "." = false →
       JS.endsWith (stem ++ "." ++ e) ".tar.gz" = false →
       JS.endsWith (stem ++ "." ++ e) ".tar.xz" = false →
       ReleaseNotes.getExtension (stem ++ "." ++ e) = e)
  ∧ (∀ f, JS.includes f "/" = false → JS.includes f "." = false →
          ReleaseNotes.getExtension f = "")
  ∧ (∀ e, JS.includes e "/" = false → JS.includes e "." = false →
          ReleaseNotes.getExtension ("." ++ e) = "").
Proof.
  split; [|split; [|split; [|split]]].
  - intros stem. unfold ReleaseNotes.getExtension. by rewrite endsWith_app.
  - intros stem. unfold ReleaseNotes.getExtension.
    rewrite (endsWith_exclusive ".tar.xz" ".tar.gz"); [|done|done|apply endsWith_app].
    by rewrite endsWith_app.
  - intros stem e Hstem He Hs1 Hs2 Hdot Hgz Hxz.
    unfold ReleaseNotes.getExtension. rewrite Hgz, Hxz.
    unfold JS.extname. rewrite basename_plain.
    2:{ rewrite !includes_char_app, Hs1, Hs2. done. }
    destruct stem as [|c stem]; [done|]. rewrite append_cons.
    rewrite from_last_dot_app by done.
    destruct (String.eqb_spec (String c (stem ++ "." ++ e)) "..") as [E|_]; [|done].
    exfalso. apply (f_equal String.length) in E. simpl in E.
    rewrite append_length in E. change ("." ++ e) with (String "." e) in E.
    simpl in E. destruct e; [done|]. simpl in E. lia.
  - intros f Hslash Hdot. unfold ReleaseNotes.getExtension.
    rewrite !(endsWith_no_dot f) by done. unfold JS.extname.
    rewrite basename_plain by done.
    destruct f as [|c f]; [done|]. rewrite includes_char_cons in Hdot.
    apply orb_false_iff in Hdot as [_ Hdot]. by rewrite from_last_dot_none.
  - intros e Hslash Hdot. change ("." ++ e) with (String "." e).
    unfold ReleaseNotes.getExtension.
    assert (∀ suffix, JS.includes suffix "." = true →
                      (String "." e = suffix → False) →
                      JS.endsWith (String "." e) suffix = false) as Hno.
    { intros suffix Hsuf Hne. cbn [JS.endsWith].
      destruct (String.eqb_spec (String "." e) suffix) as [E|_]; [by destruct (Hne E)|].
      by apply endsWith_no_dot. }
    rewrite !Hno; [|done|intros [= ->]; done|done|intros [= ->]; done].
    unfold JS.extname.
    rewrite basename_plain by (rewrite includes_char_cons; by rewrite Hslash).
    by rewrite from_last_dot_none.
Qed.

Lemma getExtension_cases_witness :
  ReleaseNotes.getExtension "app.zip" = "zip" ∧ ReleaseNotes.getExtension "README" = "".
Proof.
  destruct getExtension_cases as (_ & _ & Hlast & Hnone & _). split.
  - apply (Hlast "app" "zip"); [discriminate|discriminate|reflexivity..].
  - apply (Hnone "README"); reflexivity.
Defined.

(** ** update-homebrew-tap: writing the formula *)

Lemma writes_app steps steps' :
  Tap.writes (steps ++ steps') = (Tap.writes steps ++ Tap.writes steps')%list.
Proof. apply omap_app. Qed.

Lemma not_404 {A} (status : option N) (a b : A) :
  status ≠ Some 404%N → match status with Some 404%N => a | _ => b end = b.
Proof.
  intros Hstatus. destruct status as [n|]; [|done].
  destruct n as [|p]; [done|].
  destruct (decide (p = 404%positive)) as [->|Hne]; [done|].
  do 9 (destruct p as [p|p|]; try done).
Qed.

(** X18. [updateTapRepo] rethrows a failed lookup that is not a 404: when
    [getContent] rejects with an error whose status is missing or is not
    404, the function throws that same error after the lookup alone, with
    nothing logged and nothing written to the tap. *)
Theorem updateTapRepo_lookup_failure octokit owner repo branch formulaPath content
    commitMessage committer e :
  Tap.getContent octokit owner repo formulaPath branch = inl e →
  Tap.status e ≠ Some 404%N →
  Tap.updateTapRepo octokit owner repo branch formulaPath content commitMessage committer
  = (inl e, [ Tap.Lookup owner repo formulaPath branch ]).
Proof.
  intros Hget Hstatus. unfold Tap.updateTapRepo. rewrite Hget.
  by apply not_404.
Qed.

Lemma updateTapRepo_lookup_failure_witness :
  let octokit := Tap.mkOctokit
    (λ _ _ _ _, inl (Tap.mkRequestError (Some 403%N) (new_Error "Forbidden")))
    (λ _, inr (Tap.mkCommitData (Some "c0ffee") None)) id in
  Tap.updateTapRepo octokit "me" "homebrew-tap" "main" "Formula/tool.rb" "class Tool" "update"
                    (Tap.mkCommitter "bot" "bot@example.com")
  = (inl (Tap.mkRequestError (Some 403%N) (new_Error "Forbidden")),
     [ Tap.Lookup "me" "homebrew-tap" "Formula/tool.rb" "main" ]).
Proof.
  intros octokit.
  apply (updateTapRepo_lookup_failure octokit "me" "homebrew-tap" "main" "Formula/tool.rb"
           "class Tool" "update" (Tap.mkCommitter "bot" "bot@example.com")
           (Tap.mkRequestError (Some 403%N) (new_Error "Forbidden"))).
  - reflexivity.
  - discriminate.
Defined.

(** X19. [updateTapRepo] writes at most once, as its last step.  No write
    is made exactly when the lookup failed with something other than a
    404.  A write that is made targets the owner, repository, path and
    branch that were looked up, carries the commit message and the
    base64 content, names the committer as author too, and passes a blob
    sha exactly when the lookup answered one object of type "file", whose
    sha it is; the function then returns the commit's sha and URL, each
    defaulting to the empty string, or throws what the write threw. *)
Theorem updateTapRepo_write octokit owner repo branch formulaPath content commitMessage
    committer :
  let run := Tap.updateTapRepo octokit owner repo branch formulaPath content commitMessage
                               committer in
  (Tap.writes run.2 = []
   ↔ ∃ e, Tap.getContent octokit owner repo formulaPath branch = inl e
          ∧ Tap.status e ≠ Some 404%N)
  ∧ ∀ p, p ∈ Tap.writes run.2 →
      Tap.writes run.2 = [ p ]
      ∧ last run.2 = Some (Tap.Write p)
      ∧ p = Tap.mkFileWrite owner repo formulaPath commitMessage
                            (Tap.toBase64 octokit content) branch (Tap.sha p)
                            committer committer
      ∧ (∀ sha, Tap.sha p = Some sha
                ↔ Tap.getContent octokit owner repo formulaPath branch
                  = inr (Tap.Entry "file" sha))
      ∧ run.1 = match Tap.createOrUpdateFileContents octokit p with
                | inr result =>
                    inr (JS.or_else (Tap.commit_sha result) "",
                         JS.or_else (Tap.commit_html_url result) "")
                | inl e => inl e
                end.
Proof.
  intros run. subst run. unfold Tap.updateTapRepo.
  destruct (Tap.getContent octokit owner repo formulaPath branch)
    as [e | [ | type sha]] eqn:Hget.
  - destruct (decide (Tap.status e = Some 404%N)) as [H404|Hne].
    + rewrite H404.
      match goal with |- context [Tap.createOrUpdateFileContents octokit ?q] =>
        set (params := q) end.
      assert (Hw : ∀ o : Tap.RequestError + string * string,
                 Tap.writes ([ Tap.Lookup owner repo formulaPath branch;
                               Tap.Info ("Creating new formula at " ++ formulaPath) ]
                             ++ [ Tap.Write params ]) = [ params ]) by done.
      destruct (Tap.createOrUpdateFileContents octokit params) as [e'|result] eqn:Hput;
        cbn [fst snd]; (split; [split; [done|intros (e0 & [= <-] & Hs); done]|]);
        intros p [->|Hin%elem_of_nil]%elem_of_cons; try done;
        rewrite Hput; (repeat split; try done); intros [= ?].
    + rewrite (not_404 _ _ _ Hne). cbn [fst snd Tap.writes omap list_omap].
      split; [split; [by exists e|done]|]. by intros p Hin%elem_of_nil.
  - match goal with |- context [Tap.createOrUpdateFileContents octokit ?q] =>
      set (params := q) end.
    destruct (Tap.createOrUpdateFileContents octokit params) as [e'|result] eqn:Hput;
      cbn [fst snd]; (split; [split; [done|intros (e0 & [=] & Hs)]|]);
      intros p [->|Hin%elem_of_nil]%elem_of_cons; try done;
      rewrite Hput; (repeat split; try done).
  - destruct (String.eqb type "file") eqn:Htype.
    + apply String.eqb_eq in Htype as ->.
      match goal with |- context [Tap.createOrUpdateFileContents octokit ?q] =>
        set (params := q) end.
      destruct (Tap.createOrUpdateFileContents octokit params) as [e'|result] eqn:Hput;
        cbn [fst snd]; (split; [split; [done|intros (e0 & [=] & Hs)]|]);
        intros p [->|Hin%elem_of_nil]%elem_of_cons; try done;
        rewrite Hput; (repeat split; try done); cbn [Tap.sha params]; congruence.
    + apply String.eqb_neq in Htype.
      match goal with |- context [Tap.createOrUpdateFileContents octokit ?q] =>
        set (params := q) end.
      destruct (Tap.createOrUpdateFileContents octokit params) as [e'|result] eqn:Hput;
        cbn [fst snd]; (split; [split; [done|intros (e0 & [=] & Hs)]|]);
        intros p [->|Hin%elem_of_nil]%elem_of_cons; try done;
        rewrite Hput; (repeat split; try done); cbn [Tap.sha params]; congruence.
Qed.

Lemma updateTapRepo_write_witness :
  let octokit := Tap.mkOctokit
    (λ _ _ _ _, inr (Tap.Entry "file" "0123abcd"))
    (λ _, inr (Tap.mkCommitData (Some "c0ffee") None)) id in
  let run := Tap.updateTapRepo octokit "me" "homebrew-tap" "main" "Formula/tool.rb"
                               "class Tool" "update" (Tap.mkCommitter "bot" "bot@example.com") in
  Tap.writes run.2
  = [ Tap.mkFileWrite "me" "homebrew-tap" "Formula/tool.rb" "update" "class Tool" "main"
                      (Some "0123abcd") (Tap.mkCommitter "bot" "bot@example.com")
                      (Tap.mkCommitter "bot" "bot@example.com") ]
  ∧ run.1 = inr ("c0ffee", "").
Proof.
  intros octokit run.
  destruct (updateTapRepo_write octokit "me" "homebrew-tap" "main" "Formula/tool.rb"
              "class Tool" "update" (Tap.mkCommitter "bot" "bot@example.com")) as [_ Hwrite].
  destruct (Hwrite (Tap.mkFileWrite "me" "homebrew-tap" "Formula/tool.rb" "update" "class Tool"
                      "main" (Some "0123abcd") (Tap.mkCommitter "bot" "bot@example.com")
                      (Tap.mkCommitter "bot" "bot@example.com")))
    as (Hone & _ & _ & _ & Hout).
  - apply list_elem_of_here.
  - split; [exact Hone|exact Hout].
Defined.

(** ** release-notes: sizes *)

Lemma tenths_bounds (bytes d : N) :
  (0 < d)%N →
  let t := ((20 * bytes + d) / (2 * d))%N in
  (2 * d * t ≤ 20 * bytes + d < 2 * d * (t + 1))%N.
Proof.
  intros Hd t. subst t.
  pose proof (N.div_mod' (20 * bytes + d) (2 * d)) as Hdm.
  pose proof (N.mod_lt (20 * bytes + d) (2 * d) ltac:(lia)) as Hlt.
  set (t := ((20 * bytes + d) / (2 * d))%N) in *.
  set (r := ((20 * bytes + d) mod (2 * d))%N) in *. nia.
Qed.

(** X20. For a file size (an integer below 2^53) [formatBytes] picks the
    unit by the thresholds 1024 and 1024 squared and shows one decimal,
    rounded to the nearest tenth: below 1024 the size itself in "B";
    below 1024 squared a number of tenths [t] between 10 and 10240 in
    "KB"; from there on a number of tenths between 10 and 10 * 2^33 in
    "MB", there being no larger unit.  In both cases [t] tenths differ
    from the exact quotient by at most a twentieth.  The rounding can
    reach the next unit's threshold: every size from 1048525 up to
    1048575 is shown as "1024.0 KB". *)
Theorem formatBytes_units (bytes : Format.Size) :
  let n := Format.bytes_of bytes in
  ((n < 1024)%N → Format.formatBytes bytes = JS.show_N n ++ " B")
  ∧ ((1024 ≤ n < 1048576)%N →
       ∃ t, Format.formatBytes bytes
            = (JS.show_N (t / 10) ++ "." ++ JS.show_N (t mod 10)) ++ " KB"
            ∧ (10 ≤ t ≤ 10240)%N
            ∧ (2048 * t ≤ 20 * n + 1024 < 2048 * (t + 1))%N)
  ∧ ((1048576 ≤ n)%N →
       ∃ t, Format.formatBytes bytes
            = (JS.show_N (t / 10) ++ "." ++ JS.show_N (t mod 10)) ++ " MB"
            ∧ (10 ≤ t ≤ 85899345920)%N
            ∧ (2097152 * t ≤ 20 * n + 1048576 < 2097152 * (t + 1))%N)
  ∧ ((1048525 ≤ n < 1048576)%N → Format.formatBytes bytes = "1024.0 KB").
Proof.
  destruct bytes as [n Hsafe]. cbv zeta. cbn [Format.bytes_of].
  pose proof (proj1 (N.ltb_lt _ _) Hsafe) as Hlt.
  unfold Format.formatBytes. cbn [Format.bytes_of].
  change (1024 * 1024)%N with 1048576%N.
  split; [|split; [|split]].
  - intros Hb. destruct (N.ltb_spec n 1024); [done|lia].
  - intros Hb. destruct (N.ltb_spec n 1024); [lia|].
    destruct (N.ltb_spec n 1048576); [|lia].
    pose proof (tenths_bounds n 1024 ltac:(lia)) as Ht. cbv zeta in Ht.
    change (2 * 1024)%N with 2048%N in *.
    exists ((20 * n + 1024) / 2048)%N. split; [done|]. split; lia.
  - intros Hb. destruct (N.ltb_spec n 1024); [lia|].
    destruct (N.ltb_spec n 1048576); [lia|].
    pose proof (tenths_bounds n 1048576 ltac:(lia)) as Ht. cbv zeta in Ht.
    change (2 * 1048576)%N with 2097152%N in *.
    exists ((20 * n + 1048576) / 2097152)%N. split; [done|]. split; lia.
  - intros Hb. destruct (N.ltb_spec n 1024); [lia|].
    destruct (N.ltb_spec n 1048576); [|lia].
    pose proof (tenths_bounds n 1024 ltac:(lia)) as Ht. cbv zeta in Ht.
    change (2 * 1024)%N with 2048%N in *.
    assert (((20 * n + 1024) / 2048)%N = 10240%N) as -> by lia.
    by vm_compute.
Qed.

Lemma formatBytes_units_witness :
  Format.formatBytes (Format.mkSize 512 eq_refl) = "512 B"
  ∧ Format.formatBytes (Format.mkSize 1048575 eq_refl) = "1024.0 KB"
  ∧ ∃ t, Format.formatBytes (Format.mkSize 1536 eq_refl)
         = (JS.show_N (t / 10) ++ "." ++ JS.show_N (t mod 10)) ++ " KB"
         ∧ (10 ≤ t ≤ 10240)%N
         ∧ (2048 * t ≤ 20 * 1536 + 1024 < 2048 * (t + 1))%N.
Proof.
  destruct (formatBytes_units (Format.mkSize 512 eq_refl)) as (Hb & _).
  destruct (formatBytes_units (Format.mkSize 1048575 eq_refl)) as (_ & _ & _ & Hedge).
  destruct (formatBytes_units (Format.mkSize 1536 eq_refl)) as (_ & Hkb & _).
  split; [|split].
  - apply Hb. reflexivity.
  - apply Hedge. split; [discriminate|reflexivity].
  - apply Hkb. split; [discriminate|reflexivity].
Defined.

Example formatBytes_examples :
  Format.formatBytes (Format.mkSize 0 eq_refl) = "0 B"
  ∧ Format.formatBytes (Format.mkSize 1280 eq_refl) = "1.3 KB"
  ∧ Format.formatBytes (Format.mkSize 5368709120 eq_refl) = "5120.0 MB"
  ∧ Format.formatBytes (Format.mkSize 9007199254740991 eq_refl) = "8589934592.0 MB".
Proof. vm_compute. done. Qed.
